(** * VMTranslator: a shallow embedding of the Hack VM-to-assembly translator

    The Python sources are [CodeWriter.py], [Command.py], [Parser.py] and
    [VMTranslator.py].  The translator emits Hack assembly text line by line;
    here each emitted line is an [asm] value whose rendering is the exact
    text of the f-string in the source.  A small Hack machine model gives
    the emitted blocks a meaning, so that the frame protocol, comparisons
    and address computations can be checked semantically. *)

From Stdlib Require Import ZArith List String Ascii Bool Lia.
From Stdlib Require Import DecimalNat.
Import ListNotations.
Open Scope string_scope.
Open Scope list_scope.

(* ------------------------------------------------------------------ *)
(** ** Decimal rendering of Python ints (f"{n}") *)

Fixpoint uint_to_string (u : Decimal.uint) : string :=
  match u with
  | Decimal.Nil => ""
  | Decimal.D0 u => String "0" (uint_to_string u)
  | Decimal.D1 u => String "1" (uint_to_string u)
  | Decimal.D2 u => String "2" (uint_to_string u)
  | Decimal.D3 u => String "3" (uint_to_string u)
  | Decimal.D4 u => String "4" (uint_to_string u)
  | Decimal.D5 u => String "5" (uint_to_string u)
  | Decimal.D6 u => String "6" (uint_to_string u)
  | Decimal.D7 u => String "7" (uint_to_string u)
  | Decimal.D8 u => String "8" (uint_to_string u)
  | Decimal.D9 u => String "9" (uint_to_string u)
  end.

(** [dec n] is Python's [str(n)] for a non-negative int. *)
Definition dec (n : nat) : string := uint_to_string (Nat.to_uint n).

(* ------------------------------------------------------------------ *)
(** ** Small string helpers used by the source ([os.path], [str]) *)

(** [str.endswith]. *)
Fixpoint ends_with (suf s : string) : bool :=
  String.eqb s suf ||
  match s with
  | EmptyString => false
  | String _ s' => ends_with suf s'
  end.

(** [str.startswith]. *)
Fixpoint starts_with (pre s : string) : bool :=
  match pre, s with
  | EmptyString, _ => true
  | String c pre', String c' s' => Ascii.eqb c c' && starts_with pre' s'
  | String _ _, EmptyString => false
  end.

(** [str.replace(old, new)]: every non-overlapping occurrence, left to
    right; [old] is non-empty at every call site. *)
Fixpoint replace_fuel (fuel : nat) (old new s : string) : string :=
  match fuel with
  | O => s
  | S f =>
      match s with
      | EmptyString => EmptyString
      | String c s' =>
          if starts_with old s
          then (new ++ replace_fuel f old new (substring (String.length old)
                                                 (String.length s) s))%string
          else String c (replace_fuel f old new s')
      end
  end.

Definition replace (old new s : string) : string :=
  replace_fuel (S (String.length s)) old new s.

(** [os.path.basename] (POSIX): the part after the last ['/']. *)
Fixpoint basename_acc (acc s : string) : string :=
  match s with
  | EmptyString => acc
  | String c s' =>
      if Ascii.eqb c "/" then basename_acc "" s'
      else basename_acc (acc ++ String c "")%string s'
  end.

Definition basename (p : string) : string := basename_acc "" p.

(** [os.path.join(a, b)] (POSIX) for a relative [b]. *)
Definition path_join (a b : string) : string :=
  if String.eqb a "" then b
  else if ends_with "/" a then (a ++ b)%string else (a ++ "/" ++ b)%string.

(* ------------------------------------------------------------------ *)
(** ** Emitted assembly lines *)

(** Operand of an A-instruction: a literal number or a symbol. *)
Inductive aval :=
| ANum (n : nat)       (* "@17"   *)
| ASym (s : string).   (* "@LCL", "@TRUE_3", "@Foo.2" *)

Inductive asm :=
| At (v : aval)        (* f"@{v}"          *)
| C (s : string)       (* "D=M", "0;JMP"   *)
| Lbl (s : string)     (* f"({label})"     *)
| Cmt (s : string).    (* f"//  {command}" (text after the slashes) *)

Definition render (l : asm) : string :=
  match l with
  | At (ANum n) => "@" ++ dec n
  | At (ASym s) => "@" ++ s
  | C s => s
  | Lbl s => "(" ++ s ++ ")"
  | Cmt s => "//  " ++ s
  end%string.

(** A VM index as the writer receives it: [Command.arg2] is [None] when
    the line has only two words. *)
Definition index := option nat.

Definition show_index (i : index) : string :=
  match i with Some n => dec n | None => "None" end.

(** f"@{index}" *)
Definition at_index (i : index) : asm :=
  match i with Some n => At (ANum n) | None => At (ASym "None") end.

(* ------------------------------------------------------------------ *)
(** ** Errors raised by the source *)

Inductive err :=
| EmptyBaseDir                 (* "Base directory name cannot be empty." *)
| NotAsmOutput (p : string)    (* "Output filepath ... must be a '.asm' file" *)
| InvalidSegment (seg : string)(* "Can't call 'pop()' operation on a ... segment" *)
| InvalidOperand (i : index)   (* "The 'pointer' segment cannot take index ..." *)
| UnboundContext               (* static with no current file: Exception("") *)
| UnknownSegment (seg : string)(* "Unexpected segment command ... read." *)
| InvalidOperator (cmd : string)(* "... is not a valid arithmetic command." *)
| TypeErr                      (* Python TypeError: None used as an int *)
| PathMissing (p : string)     (* "The provided path ... does not exist." *)
| BadInputPath (p : string)    (* "Input path ... must be a valid .vm file ..." *)
| NoVmFiles (p : string)       (* "No vm files found in input path ..." *)
| Malformed (why : string)     (* the exceptions raised by [Command] *)
| KeyErr (k : string)          (* SEGMENTS_MAPPER[segment] on a missing key *)
| BadCommandType.              (* "Command type ... erroneously triggered ..." *)

(* ------------------------------------------------------------------ *)
(** ** The CodeWriter object *)

(** The fields of a [CodeWriter] instance.  [sink_open] is the state of
    the file object [self._write_file], [written] the lines written to it. *)
Record cw := mkCW {
  in_filepath : string;
  out_filename : string;
  current_filename : option string;
  current_function : option string;
  arith_jump_counter : nat;
  return_counter : nat;
  log_vm_commands : bool;
  sink_open : bool;
  written : list asm
}.

(** Methods mutate [self] and may raise; a raised exception leaves the
    mutations made so far in place, as in Python. *)
Definition M (A : Type) : Type := cw -> cw * (err + A).

Definition ret {A} (a : A) : M A := fun s => (s, inr a).
Definition raise {A} (e : err) : M A := fun s => (s, inl e).
Definition bind {A B} (m : M A) (k : A -> M B) : M B :=
  fun s => match m s with
           | (s', inl e) => (s', inl e)
           | (s', inr a) => k a s'
           end.
Definition gets {A} (f : cw -> A) : M A := fun s => (s, inr (f s)).
Definition modify (f : cw -> cw) : M unit := fun s => (f s, inr tt).

Notation "x <- m ;; k" := (bind m (fun x => k))
  (at level 61, m at next level, right associativity).
Notation "m ;; k" := (bind m (fun _ => k)) (at level 61, right associativity).

Definition set_function (f : option string) (s : cw) : cw :=
  mkCW (in_filepath s) (out_filename s) (current_filename s) f
       (arith_jump_counter s) (return_counter s) (log_vm_commands s)
       (sink_open s) (written s).
Definition set_filename_field (f : option string) (s : cw) : cw :=
  mkCW (in_filepath s) (out_filename s) f (current_function s)
       (arith_jump_counter s) (return_counter s) (log_vm_commands s)
       (sink_open s) (written s).
Definition set_arith (n : nat) (s : cw) : cw :=
  mkCW (in_filepath s) (out_filename s) (current_filename s)
       (current_function s) n (return_counter s) (log_vm_commands s)
       (sink_open s) (written s).
Definition set_return (n : nat) (s : cw) : cw :=
  mkCW (in_filepath s) (out_filename s) (current_filename s)
       (current_function s) (arith_jump_counter s) n (log_vm_commands s)
       (sink_open s) (written s).
Definition append_written (l : list asm) (s : cw) : cw :=
  mkCW (in_filepath s) (out_filename s) (current_filename s)
       (current_function s) (arith_jump_counter s) (return_counter s)
       (log_vm_commands s) (sink_open s) (written s ++ l).
Definition close_sink (s : cw) : cw :=
  mkCW (in_filepath s) (out_filename s) (current_filename s)
       (current_function s) (arith_jump_counter s) (return_counter s)
       (log_vm_commands s) false (written s).

(** [CodeWriter.write] *)
Definition write (commands : list asm) : M unit := modify (append_written commands).

(** [if self.log_vm_commands: self.write([f"//  ..."])] *)
Definition log_line (text : string) : M unit :=
  lg <- gets log_vm_commands ;;
  if lg then write [Cmt text] else ret tt.

(** [CodeWriter.close] *)
Definition close : M unit := modify close_sink.

(** [CodeWriter.set_filename] *)
Definition set_filename (filepath : string) : M unit :=
  modify (set_filename_field (Some (replace ".vm" "" (basename filepath))));;
  modify (set_function None).

(** [SEGMENTS_MAPPER] and [CodeWriter.get_ram_code]. *)
Definition get_ram_code (segment : string) : err + string :=
  if String.eqb segment "argument" then inr "ARG"
  else if String.eqb segment "local" then inr "LCL"
  else if String.eqb segment "this" then inr "THIS"
  else if String.eqb segment "that" then inr "THAT"
  else inl (KeyErr segment).

Definition lift {A} (r : err + A) : M A :=
  match r with inl e => raise e | inr a => ret a end.

(** Python's [index == 0] ([None == 0] is [False]). *)
Definition index_eq_zero (idx : index) : bool :=
  match idx with Some 0 => true | _ => false end.

Definition is_base_segment (segment : string) : bool :=
  String.eqb segment "local" || String.eqb segment "argument" ||
  String.eqb segment "this" || String.eqb segment "that".

(** [CodeWriter.translate_segment_vm_code] *)
Definition translate_segment_vm_code (segment : string) (idx : index)
  : M (list asm) :=
  if is_base_segment segment then
    ram_code <- lift (get_ram_code segment) ;;
    ret (At (ASym ram_code) ::
         (if index_eq_zero idx then [C "A=M"]
          else [C "D=M"; at_index idx; C "A=D+A"]))
  else if String.eqb segment "static" then
    fname <- gets current_filename ;;
    match fname with
    | None => raise UnboundContext
    | Some f => ret [At (ASym (f ++ "." ++ show_index idx)%string)]
    end
  else if String.eqb segment "pointer" then
    match idx with
    | Some 0 => ret [At (ASym "THIS")]
    | Some 1 => ret [At (ASym "THAT")]
    | _ => raise (InvalidOperand idx)
    end
  else if String.eqb segment "temp" then
    ret [At (ANum 5); C "D=A"; at_index idx; C "A=D+A"]
  else if String.eqb segment "constant" then
    ret [at_index idx; C "D=A"]
  else raise (UnknownSegment segment).

(** The tail shared by every push: [*SP = D; SP++]. *)
Definition push_d : list asm := [At (ASym "SP"); C "AM=M+1"; C "A=A-1"; C "M=D"].

(** [CodeWriter.translate_push_vm_code_to_asm] *)
Definition translate_push_vm_code_to_asm (segment : string) (idx : index)
  : M (list asm) :=
  pre <- (if String.eqb segment "skip" then ret []
          else sc <- translate_segment_vm_code segment idx ;;
               ret (sc ++ (if String.eqb segment "constant" then []
                           else [C "D=M"]))) ;;
  ret (pre ++ push_d).

(** [CodeWriter.translate_pop_vm_code_to_asm] *)
Definition translate_pop_vm_code_to_asm (segment : string) (idx : index)
  : M (list asm) :=
  if String.eqb segment "constant" then raise (InvalidSegment segment)
  else
    sc <- translate_segment_vm_code segment idx ;;
    ret (sc ++ [C "D=A"; At (ASym "SP"); C "AM=M-1"; C "D=D+M";
                C "A=D-M"; C "D=D-A"; C "M=D"]).

(** [CodeWriter.translate_arithmetic_vm_code_to_assembly]; the comparison
    branch reads and bumps [arith_jump_counter]. *)
Definition translate_arithmetic_vm_code_to_assembly (command : string)
  : M (list asm) :=
  let pre := [At (ASym "SP"); C "AM=M-1"] ++
             (if String.eqb command "neg" || String.eqb command "not" then []
              else [C "D=M"; At (ASym "SP"); C "AM=M-1"]) in
  let post := [At (ASym "SP"); C "M=M+1"] in
  arith <-
    (if String.eqb command "add" then ret [C "M=M+D"]
     else if String.eqb command "sub" then ret [C "M=M-D"]
     else if String.eqb command "neg" then ret [C "M=-M"]
     else if String.eqb command "eq" || String.eqb command "gt"
             || String.eqb command "lt" then
       k <- gets arith_jump_counter ;;
       let jmp := if String.eqb command "eq" then "D;JEQ"
                  else if String.eqb command "gt" then "D;JGT"
                  else "D;JLT" in
       let code := [C "D=M-D"; At (ASym ("TRUE_" ++ dec k)%string); C jmp;
                    C "D=0"; At (ASym ("END_" ++ dec k)%string); C "0;JMP";
                    Lbl ("TRUE_" ++ dec k)%string; C "D=-1";
                    Lbl ("END_" ++ dec k)%string;
                    At (ASym "SP"); C "A=M"; C "M=D"] in
       modify (set_arith (S k)) ;;
       ret code
     else if String.eqb command "and" then ret [C "M=D&M"]
     else if String.eqb command "or" then ret [C "M=D|M"]
     else if String.eqb command "not" then ret [C "M=!M"]
     else raise (InvalidOperator command)) ;;
  ret (pre ++ arith ++ post).

(** [CodeWriter.write_arithmetic] *)
Definition write_arithmetic (vm_command : string) : M unit :=
  log_line vm_command ;;
  code <- translate_arithmetic_vm_code_to_assembly vm_command ;;
  write code.

(** The command types of [Command.COMMAND_TYPES]. *)
Inductive ctype :=
| C_ARITHMETIC | C_PUSH | C_POP | C_LABEL | C_GOTO | C_IF
| C_FUNCTION | C_RETURN | C_CALL.

(** [CodeWriter.write_push_pop] *)
Definition write_push_pop (command_type : ctype) (segment : string)
  (idx : index) : M unit :=
  log_line ((match command_type with C_PUSH => "push" | _ => "pop" end)
              ++ " " ++ segment ++ " " ++ show_index idx)%string ;;
  code <- (match command_type with
           | C_PUSH => translate_push_vm_code_to_asm segment idx
           | C_POP => translate_pop_vm_code_to_asm segment idx
           | _ => raise BadCommandType
           end) ;;
  write code.

(** [f"{self.current_function}.{label}" if self.in_function else label] *)
Definition scoped_label (fn : option string) (label : string) : string :=
  match fn with
  | Some f => (f ++ "." ++ label)%string
  | None => label
  end.

(** [CodeWriter.write_label] *)
Definition write_label (label : string) : M unit :=
  log_line ("label " ++ label)%string ;;
  fn <- gets current_function ;;
  write [Lbl (scoped_label fn label)].

(** [CodeWriter.write_goto] *)
Definition write_goto (label : string) : M unit :=
  log_line ("goto " ++ label)%string ;;
  fn <- gets current_function ;;
  write [At (ASym (scoped_label fn label)); C "0;JMP"].

(** [CodeWriter.write_if] *)
Definition write_if (label : string) : M unit :=
  log_line ("if-goto " ++ label)%string ;;
  fn <- gets current_function ;;
  write [At (ASym "SP"); C "AM=M-1"; C "D=M";
         At (ASym (scoped_label fn label)); C "D;JNE"].

(** One zero-initialised local of [write_function]. *)
Definition init_local (i : nat) : list asm :=
  [At (ASym "LCL"); C "D=M"; At (ANum i); C "A=D+A"; C "M=0";
   At (ASym "SP"); C "M=M+1"].

(** [CodeWriter.write_function]; [range(None)] raises a TypeError. *)
Definition write_function (function_name : string) (num_local_vars : index)
  : M unit :=
  modify (set_function (Some function_name)) ;;
  log_line ("function " ++ function_name ++ " " ++ show_index num_local_vars)%string ;;
  match num_local_vars with
  | None => raise TypeErr
  | Some n => write (Lbl function_name :: List.concat (map init_local (seq 0 n)))
  end.

(** [CodeWriter.write_call]; [num_vars + 5] raises a TypeError on [None],
    after the return counter has been bumped. *)
Definition write_call (function_name : string) (num_vars : index) : M unit :=
  log_line ("call " ++ function_name ++ " " ++ show_index num_vars)%string ;;
  k <- gets return_counter ;;
  let return_address_label := ("RETURN_" ++ dec k)%string in
  modify (set_return (S k)) ;;
  p0 <- translate_push_vm_code_to_asm "skip" None ;;
  p1 <- translate_push_vm_code_to_asm "skip" None ;;
  p2 <- translate_push_vm_code_to_asm "skip" None ;;
  p3 <- translate_push_vm_code_to_asm "skip" None ;;
  p4 <- translate_push_vm_code_to_asm "skip" None ;;
  match num_vars with
  | None => raise TypeErr
  | Some n =>
      write ([At (ASym return_address_label); C "D=A"] ++ p0 ++
             [At (ASym "LCL"); C "D=M"] ++ p1 ++
             [At (ASym "ARG"); C "D=M"] ++ p2 ++
             [At (ASym "THIS"); C "D=M"] ++ p3 ++
             [At (ASym "THAT"); C "D=M"] ++ p4 ++
             [At (ASym "SP"); C "D=M"; At (ANum (n + 5)); C "D=D-A";
              At (ASym "ARG"); C "M=D";
              At (ASym "SP"); C "D=M"; At (ASym "LCL"); C "M=D";
              At (ASym function_name); C "0;JMP";
              Lbl return_address_label])
  end.

(** The straight-line body of [CodeWriter.write_return]. *)
Definition return_code : list asm :=
  [ At (ASym "LCL"); C "D=M"; At (ASym "frame"); C "M=D";
    At (ANum 5); C "A=D-A"; C "D=M"; At (ASym "return"); C "M=D";
    At (ASym "SP"); C "AM=M-1"; C "D=M"; At (ASym "ARG"); C "A=M"; C "M=D";
    C "D=A+1"; At (ASym "SP"); C "M=D";
    At (ASym "frame"); C "D=M"; At (ANum 1); C "A=D-A"; C "D=M";
    At (ASym "THAT"); C "M=D";
    At (ASym "frame"); C "D=M"; At (ANum 2); C "A=D-A"; C "D=M";
    At (ASym "THIS"); C "M=D";
    At (ASym "frame"); C "D=M"; At (ANum 3); C "A=D-A"; C "D=M";
    At (ASym "ARG"); C "M=D";
    At (ASym "frame"); C "D=M"; At (ANum 4); C "A=D-A"; C "D=M";
    At (ASym "LCL"); C "M=D";
    At (ASym "return"); C "A=M"; C "0;JMP" ].

(** [CodeWriter.write_return] *)
Definition write_return : M unit :=
  log_line "return" ;;
  write return_code.

(** The first four lines of [CodeWriter.write_init]. *)
Definition bootstrap_code : list asm :=
  [At (ANum 256); C "D=A"; At (ASym "SP"); C "M=D"].

(** [CodeWriter.write_init]; [isdir] is [os.path.isdir]. *)
Definition write_init (isdir : string -> bool) : M unit :=
  p <- gets in_filepath ;;
  if negb (isdir p) then ret tt
  else
    log_line "Boostrap code" ;;
    write bootstrap_code ;;
    write_call "Sys.init" (Some 0).

(** [CodeWriter.__init__]: output-path selection, [open], then
    [write_init].  [inl] is an exception raised before the file is opened. *)
Definition new_code_writer (isdir : string -> bool) (filepath : string)
  (log_vm_commands : bool) : err + cw :=
  let out :=
    if ends_with ".vm" filepath then inr (replace ".vm" ".asm" filepath)
    else if isdir filepath then
      let base_dir_name := basename filepath in
      if String.eqb base_dir_name "" then inl EmptyBaseDir
      else inr (path_join filepath (base_dir_name ++ ".asm")%string)
    else inr filepath in
  match out with
  | inl e => inl e
  | inr out_filename =>
      if negb (ends_with ".asm" out_filename) then inl (NotAsmOutput filepath)
      else
        let s0 := mkCW filepath out_filename None None 0 0 log_vm_commands
                       true [] in
        match write_init isdir s0 with
        | (s1, inr _) => inr s1
        | (_, inl e) => inl e
        end
  end.

(** [CodeWriter.close] at the end of the job and the [Main] driver follow
    the parser. *)

(* ------------------------------------------------------------------ *)
(** ** Parser and Command *)

(** Python's [str.isspace] on one ASCII character. *)
Definition is_py_space (c : ascii) : bool :=
  let n := nat_of_ascii c in
  ((9 <=? n) && (n <=? 13) || (28 <=? n) && (n <=? 32))%nat.

Fixpoint drop_space (l : list ascii) : list ascii :=
  match l with
  | c :: l' => if is_py_space c then drop_space l' else l
  | [] => []
  end.

(** [str.strip()] *)
Definition strip (s : string) : string :=
  string_of_list_ascii
    (rev (drop_space (rev (drop_space (list_ascii_of_string s))))).

(** [re.sub('//.*', "", line)]: each ["//"] up to the next newline goes. *)
Fixpoint cut_comments (in_comment : bool) (s : string) : string :=
  match s with
  | EmptyString => EmptyString
  | String c s' =>
      if in_comment then
        if Ascii.eqb c "010" then String c (cut_comments false s')
        else cut_comments true s'
      else
        match s' with
        | String c2 s'' =>
            if Ascii.eqb c "/" && Ascii.eqb c2 "/" then cut_comments true s''
            else String c (cut_comments false s')
        | EmptyString => String c EmptyString
        end
  end.

(** [Parser.clean_line] *)
Definition clean_line (line : string) : string := strip (cut_comments false line).

(** [Parser.is_blank] *)
Definition is_blank (line : string) : bool :=
  String.eqb line "" ||
  (negb (String.eqb line "") &&
   forallb is_py_space (list_ascii_of_string line)).

(** [Parser.clean_file] *)
Definition clean_file (file : list string) : list string :=
  filter (fun l => negb (is_blank l)) (map clean_line file).

(** [str.split(" ")] *)
Fixpoint split_space (s : string) : list string :=
  match s with
  | EmptyString => [""]
  | String c s' =>
      let rest := split_space s' in
      if Ascii.eqb c " " then "" :: rest
      else match rest with
           | h :: t => String c h :: t
           | [] => [String c ""]
           end
  end.

Definition is_digit (c : ascii) : bool :=
  let n := nat_of_ascii c in ((48 <=? n) && (n <=? 57))%nat.

(** Digits with single underscores between them, as [int()] accepts. *)
Fixpoint digits_value (after_digit : bool) (acc : Z) (s : string) : option Z :=
  match s with
  | EmptyString => if after_digit then Some acc else None
  | String c s' =>
      if is_digit c then
        digits_value true (acc * 10 + Z.of_nat (nat_of_ascii c - 48))%Z s'
      else if Ascii.eqb c "_" && after_digit then digits_value false acc s'
      else None
  end.

(** Python [int(string)] on ASCII text; [None] is a ValueError. *)
Definition py_int (s : string) : option Z :=
  match strip s with
  | String c r =>
      if Ascii.eqb c "-" then option_map Z.opp (digits_value false 0 r)
      else if Ascii.eqb c "+" then digits_value false 0 r
      else digits_value false 0 (String c r)
  | EmptyString => None
  end.

(** [COMMAND_TYPE_MAP] *)
Definition command_type_map (w : string) : option ctype :=
  if String.eqb w "pop" then Some C_POP
  else if String.eqb w "push" then Some C_PUSH
  else if existsb (String.eqb w)
            ["add"; "sub"; "neg"; "eq"; "gt"; "lt"; "and"; "or"; "not"]
  then Some C_ARITHMETIC
  else if String.eqb w "label" then Some C_LABEL
  else if String.eqb w "goto" then Some C_GOTO
  else if String.eqb w "if-goto" then Some C_IF
  else if String.eqb w "function" then Some C_FUNCTION
  else if String.eqb w "return" then Some C_RETURN
  else if String.eqb w "call" then Some C_CALL
  else None.

(** [ARG2_WHITELIST_COMMAND_TYPES] *)
Definition arg2_allowed (t : ctype) : bool :=
  match t with C_PUSH | C_POP | C_FUNCTION | C_CALL => true | _ => false end.

(** A parsed [Command]; [arg1] is [""] for [C_RETURN], where the source
    keeps [None] and never reads it. *)
Record command := mkCommand {
  command_type : ctype;
  arg1 : string;
  arg2 : index
}.

(** [Command.__init__] *)
Definition parse_command (line : string) : err + command :=
  match split_space line with
  | [] => inl (Malformed "Line with 0 commands found.")
  | w0 :: rest =>
      match command_type_map w0 with
      | None => inl (Malformed "Unidentified command")
      | Some C_ARITHMETIC => inr (mkCommand C_ARITHMETIC w0 None)
      | Some C_RETURN => inr (mkCommand C_RETURN "" None)
      | Some t =>
          match rest with
          | [] => inl (Malformed "Non-arithmetic command with only one argument")
          | [w1] => inr (mkCommand t w1 None)
          | w1 :: w2 :: more =>
              if negb (arg2_allowed t) then inl (Malformed "arg2 should not be given")
              else match py_int w2 with
                   | None => inl (Malformed "arg2 must be an integer")
                   | Some z =>
                       if (z <? 0)%Z then inl (Malformed "indexes cannot be negative")
                       else match more with
                            | [] => inr (mkCommand t w1 (Some (Z.to_nat z)))
                            | _ => inl (Malformed "Line with more than 3 commands")
                            end
                   end
          end
      end
  end.

(* ------------------------------------------------------------------ *)
(** ** Main *)

(** One iteration of the loop of [Main.translate_file], after
    [parser.advance()]. *)
Definition dispatch (c : command) : M unit :=
  match command_type c with
  | C_RETURN => write_return
  | C_ARITHMETIC => write_arithmetic (arg1 c)
  | C_PUSH | C_POP => write_push_pop (command_type c) (arg1 c) (arg2 c)
  | C_LABEL => write_label (arg1 c)
  | C_IF => write_if (arg1 c)
  | C_GOTO => write_goto (arg1 c)
  | C_FUNCTION => write_function (arg1 c) (arg2 c)
  | C_CALL => write_call (arg1 c) (arg2 c)
  end.

Fixpoint translate_lines (lines : list string) : M unit :=
  match lines with
  | [] => ret tt
  | l :: ls =>
      c <- lift (parse_command l) ;;
      dispatch c ;;
      translate_lines ls
  end.

(** [Main.translate_file] *)
Definition translate_file (file : list string) (filepath : string) : M unit :=
  set_filename filepath ;;
  translate_lines (clean_file file).

Fixpoint translate_all (files : list (string * list string)) : M unit :=
  match files with
  | [] => ret tt
  | (fp, file) :: rest => translate_file file fp ;; translate_all rest
  end.

(** The end of a job: [Ok] with the writer after [close()], or the
    exception and the writer if one had been constructed. *)
Inductive job_result :=
| JobOk (s : cw)
| JobErr (e : err) (s : option cw).

(** [Main.translate_files]: [CodeWriter(input_path)] with its default
    [log_vm_commands=True], the loop, then [close()]. *)
Definition translate_files (isdir : string -> bool)
  (files : list (string * list string)) (input_path : string) : job_result :=
  match new_code_writer isdir input_path true with
  | inl e => JobErr e None
  | inr s0 =>
      match translate_all files s0 with
      | (s1, inl e) => JobErr e (Some s1)
      | (s1, inr _) =>
          match close s1 with
          | (s2, _) => JobOk s2
          end
      end
  end.

(** The file system seen by [Main]. *)
Record fs := mkFS {
  fs_exists : string -> bool;
  fs_isfile : string -> bool;
  fs_isdir : string -> bool;
  fs_listdir : string -> list string;
  fs_read : string -> list string
}.

(** [Main.is_vm_file] *)
Definition is_vm_file (f : fs) (filepath : string) : bool :=
  fs_isfile f filepath && ends_with ".vm" filepath.

(** [files[key] = value] on an [OrderedDict]. *)
Fixpoint od_set (k : string) (v : list string) (d : list (string * list string))
  : list (string * list string) :=
  match d with
  | [] => [(k, v)]
  | (k', v') :: d' =>
      if String.eqb k k' then (k, v) :: d' else (k', v') :: od_set k v d'
  end.

(** [Main.read_filepath_input] *)
Definition read_filepath_input (f : fs) (input_path : string)
  : err + list (string * list string) :=
  if negb (fs_exists f input_path) then inl (PathMissing input_path)
  else if is_vm_file f input_path then
    inr [(input_path, fs_read f input_path)]
  else if negb (fs_isdir f input_path) then inl (BadInputPath input_path)
  else
    let files :=
      fold_left (fun d filename =>
                   let full := path_join input_path filename in
                   if is_vm_file f full then od_set full (fs_read f full) d
                   else d)
                (fs_listdir f input_path) [] in
    match files with
    | [] => inl (NoVmFiles input_path)
    | _ => inr files
    end.

(** [Main.translate] *)
Definition translate (f : fs) (input_path : string) : job_result :=
  match read_filepath_input f input_path with
  | inl e => JobErr e None
  | inr files => translate_files (fs_isdir f) files input_path
  end.

(* ------------------------------------------------------------------ *)
(** ** The Hack machine: meaning of an emitted block *)

Open Scope Z_scope.

(** 16-bit two's complement wrap-around of the ALU. *)
Definition w16 (z : Z) : Z := (z + 32768) mod 65536 - 32768.

Record mstate := mkM { rA : Z; rD : Z; ram : Z -> Z }.

Definition upd (m : Z -> Z) (a v : Z) : Z -> Z :=
  fun x => if Z.eqb x a then v else m x.

(** The comp field of a C-instruction ([a], [d], [m] are A, D, RAM[A]).
    Register moves and constants pass the word through; arithmetic wraps.
    The commuted spellings ([M+D], [D&M], ...) are accepted as well. *)
Definition comp_table : list (string * (Z -> Z -> Z -> Z)) :=
  [("0", fun _ _ _ => 0); ("1", fun _ _ _ => 1); ("-1", fun _ _ _ => -1);
   ("D", fun _ d _ => d); ("A", fun a _ _ => a); ("M", fun _ _ m => m);
   ("!D", fun _ d _ => w16 (Z.lnot d)); ("!A", fun a _ _ => w16 (Z.lnot a));
   ("!M", fun _ _ m => w16 (Z.lnot m));
   ("-D", fun _ d _ => w16 (- d)); ("-A", fun a _ _ => w16 (- a));
   ("-M", fun _ _ m => w16 (- m));
   ("D+1", fun _ d _ => w16 (d + 1)); ("A+1", fun a _ _ => w16 (a + 1));
   ("M+1", fun _ _ m => w16 (m + 1));
   ("D-1", fun _ d _ => w16 (d - 1)); ("A-1", fun a _ _ => w16 (a - 1));
   ("M-1", fun _ _ m => w16 (m - 1));
   ("D+A", fun a d _ => w16 (d + a)); ("A+D", fun a d _ => w16 (d + a));
   ("D+M", fun _ d m => w16 (d + m)); ("M+D", fun _ d m => w16 (d + m));
   ("D-A", fun a d _ => w16 (d - a)); ("D-M", fun _ d m => w16 (d - m));
   ("A-D", fun a d _ => w16 (a - d)); ("M-D", fun _ d m => w16 (m - d));
   ("D&A", fun a d _ => w16 (Z.land d a)); ("A&D", fun a d _ => w16 (Z.land d a));
   ("D&M", fun _ d m => w16 (Z.land d m)); ("M&D", fun _ d m => w16 (Z.land d m));
   ("D|A", fun a d _ => w16 (Z.lor d a)); ("A|D", fun a d _ => w16 (Z.lor d a));
   ("D|M", fun _ d m => w16 (Z.lor d m)); ("M|D", fun _ d m => w16 (Z.lor d m))].

(** The dest field: which of A, D, M receive the result. *)
Definition dest_table : list (string * (bool * bool * bool)) :=
  [("", (false, false, false)); ("M", (false, false, true));
   ("D", (false, true, false)); ("MD", (false, true, true));
   ("A", (true, false, false)); ("AM", (true, false, true));
   ("AD", (true, true, false)); ("AMD", (true, true, true))].

(** The jump field, tested on the ALU output. *)
Definition jump_table : list (string * (Z -> bool)) :=
  [("", fun _ => false); ("JGT", fun v => 0 <? v); ("JEQ", fun v => v =? 0);
   ("JGE", fun v => 0 <=? v); ("JLT", fun v => v <? 0);
   ("JNE", fun v => negb (v =? 0)); ("JLE", fun v => v <=? 0);
   ("JMP", fun _ => true)].

Fixpoint lookup {B} (k : string) (t : list (string * B)) : option B :=
  match t with
  | [] => None
  | (k', b) :: t' => if String.eqb k k' then Some b else lookup k t'
  end.

Fixpoint split_at (c : ascii) (s : string) : option (string * string) :=
  match s with
  | EmptyString => None
  | String x s' =>
      if Ascii.eqb x c then Some (EmptyString, s')
      else match split_at c s' with
           | Some (l, r) => Some (String x l, r)
           | None => None
           end
  end.

(** [dest=comp;jump] with both [dest=] and [;jump] optional. *)
Definition decode_c (s : string) : option (string * string * string) :=
  let '(dst, rest) := match split_at "=" s with
                      | Some (d, r) => (d, r)
                      | None => (EmptyString, s)
                      end in
  let '(cmp, jmp) := match split_at ";" rest with
                     | Some (c, j) => (c, j)
                     | None => (rest, EmptyString)
                     end in
  Some (dst, cmp, jmp).

(** One C-instruction: the new state and whether it jumps (to the old A). *)
Definition exec_c (s : string) (st : mstate) : option (mstate * bool) :=
  match decode_c s with
  | None => None
  | Some (dst, cmp, jmp) =>
      match lookup dst dest_table, lookup cmp comp_table, lookup jmp jump_table with
      | Some (wa, wd, wm), Some f, Some j =>
          let v := f (rA st) (rD st) (ram st (rA st)) in
          Some (mkM (if wa then v else rA st) (if wd then v else rD st)
                    (if wm then upd (ram st) (rA st) v else ram st),
                j v)
      | _, _, _ => None
      end
  end.

(** Machine instructions of a block: labels and comments take no ROM word. *)
Inductive minstr := MAt (v : aval) | MC (s : string).

Definition machine_code (b : list asm) : list minstr :=
  flat_map (fun l => match l with
                     | At v => [MAt v]
                     | C s => [MC s]
                     | Lbl _ | Cmt _ => []
                     end) b.

(** ROM offset of the first declaration of a label inside a block. *)
Fixpoint label_index (b : list asm) (s : string) (n : nat) : option nat :=
  match b with
  | [] => None
  | Lbl s' :: b' => if String.eqb s s' then Some n else label_index b' s n
  | (At _ | C _) :: b' => label_index b' s (S n)
  | Cmt _ :: b' => label_index b' s n
  end.

(** The assembler's symbol table for a block placed at ROM address [org]:
    labels of the block get their address, everything else ([SP], [LCL],
    variables, labels elsewhere) comes from the program-wide table [sym]. *)
Definition resolve (sym : string -> Z) (org : Z) (b : list asm) (s : string) : Z :=
  match label_index b s 0 with
  | Some i => org + Z.of_nat i
  | None => sym s
  end.

Inductive outcome :=
| Fell (st : mstate)               (* ran off the end of the block *)
| Jumped (target : Z) (st : mstate)(* jumped to a ROM address outside it *)
| Stuck (pc : nat)                 (* an instruction the assembler rejects *)
| OutOfFuel.

(** The CPU: an A-instruction loads its constant or symbol into A (the
    assembler accepts constants up to 32767); a jump goes to the old A. *)
Fixpoint exec (env : string -> Z) (org : Z) (code : list minstr) (fuel : nat)
  (pc : nat) (st : mstate) : outcome :=
  match fuel with
  | O => OutOfFuel
  | S f =>
      match nth_error code pc with
      | None => Fell st
      | Some (MAt (ANum n)) =>
          exec env org code f (S pc) (mkM (Z.of_nat n) (rD st) (ram st))
      | Some (MAt (ASym s)) =>
          exec env org code f (S pc) (mkM (env s) (rD st) (ram st))
      | Some (MC s) =>
          match exec_c s st with
          | None => Stuck pc
          | Some (st', false) => exec env org code f (S pc) st'
          | Some (st', true) =>
              let t := rA st in
              if (org <=? t) && (t <? org + Z.of_nat (List.length code))
              then exec env org code f (Z.to_nat (t - org)) st'
              else Jumped t st'
          end
      end
  end.

(** Running a block from its first instruction; every block the translator
    emits only jumps forward or out, so one step per word suffices. *)
Definition run_block (sym : string -> Z) (org : Z) (b : list asm) (st : mstate)
  : outcome :=
  exec (resolve sym org b) org (machine_code b)
       (S (List.length (machine_code b))) 0 st.

(** The predefined symbols of the Hack assembler. *)
Definition predefined (sym : string -> Z) : Prop :=
  sym "SP" = 0 /\ sym "LCL" = 1 /\ sym "ARG" = 2 /\ sym "THIS" = 3 /\
  sym "THAT" = 4.

(** A 16-bit word. *)
Definition word (z : Z) : Prop := -32768 <= z < 32768.

Arguments upd : simpl never.
Arguments w16 : simpl never.

(** A jump target outside the ROM range of a block. *)
Definition outside (org : Z) (b : list asm) (t : Z) : Prop :=
  ~ (org <= t < org + Z.of_nat (List.length (machine_code b))).

(* ------------------------------------------------------------------ *)
(** ** Reference definitions taken from the specification's wording *)

(** The memory layout around a [return]: the variables [frame] (at [F])
    and [return] (at [R]) are ordinary cells above the five registers, and
    the saved frame cells, the popped top of stack and [*ARG] are distinct
    from them and from the registers they are read after. *)
Definition return_layout (F R : Z) (m : Z -> Z) : Prop :=
  let frame := m 1 in
  let arg := m 2 in
  let sp := w16 (m 0 - 1) in
  5 <= F /\ 5 <= R /\ F <> R /\ F <> arg /\ R <> arg /\
  w16 (frame - 5) <> F /\
  5 <= sp /\ sp <> F /\ sp <> R /\
  (forall k, 1 <= k <= 4 ->
     5 <= w16 (frame - k) /\ w16 (frame - k) <> F /\
     w16 (frame - k) <> R /\ w16 (frame - k) <> arg).

(** The spec's [return], step by step: FRAME = LCL (kept in [F]);
    RET = *(FRAME - 5) (kept in [R]); *ARG = pop(); SP = ARG + 1;
    THAT, THIS, ARG, LCL = *(FRAME - 1), ..., *(FRAME - 4); every value
    read is the one the caller's frame held before the return. *)
Definition return_spec (F R : Z) (m : Z -> Z) : Z -> Z :=
  let frame := m 1 in
  let ret := m (w16 (frame - 5)) in
  let sp := w16 (m 0 - 1) in
  let arg := m 2 in
  let m1 := upd (upd m F frame) R ret in
  let m2 := upd (upd m1 0 sp) arg (m sp) in
  let m3 := upd m2 0 (w16 (arg + 1)) in
  upd (upd (upd (upd m3 4 (m (w16 (frame - 1)))) 3 (m (w16 (frame - 2))))
           2 (m (w16 (frame - 3)))) 1 (m (w16 (frame - 4))).

(** The condition a comparison tests on [left - right]. *)
Definition comparison_holds (command : string) (v : Z) : bool :=
  if String.eqb command "eq" then v =? 0
  else if String.eqb command "gt" then 0 <? v
  else v <? 0.

(** Label declarations in emitted code, in order. *)
Definition declared_labels (l : list asm) : list string :=
  flat_map (fun a => match a with Lbl s => [s] | _ => [] end) l.

(** The labels the generator makes up itself. *)
Definition true_label (k : nat) : string := ("TRUE_" ++ dec k)%string.
Definition end_label (k : nat) : string := ("END_" ++ dec k)%string.
Definition return_label (k : nat) : string := ("RETURN_" ++ dec k)%string.

(** A name that is none of the generated labels. *)
Definition not_generated (s : string) : Prop :=
  forall k, s <> true_label k /\ s <> end_label k /\ s <> return_label k.

(** What [Main.translate_file] does to the writer, one step at a time:
    starting a new input unit, or translating one parsed instruction. *)
Inductive event :=
| SetFile (filepath : string)
| Instr (c : command).

Definition run_event (e : event) : M unit :=
  match e with
  | SetFile p => set_filename p
  | Instr c => dispatch c
  end.

Fixpoint run_events (es : list event) : M unit :=
  match es with
  | [] => ret tt
  | e :: es' => run_event e ;; run_events es'
  end.

(** The label and function declarations an input instruction brings in
    (before scoping) are none of the generated labels. *)
Definition input_names_ok (e : event) : Prop :=
  match e with
  | Instr c =>
      match command_type c with
      | C_LABEL => forall fn, not_generated (scoped_label fn (arg1 c))
      | C_FUNCTION => not_generated (arg1 c)
      | _ => True
      end
  | SetFile _ => True
  end.

(** Concrete inputs used to exercise the statements below. *)
Definition sample_writer (log : bool) : cw :=
  mkCW "Prog/Main.vm" "Prog/Main.asm" (Some "Main") None 0 0 log true [].

(** The assembler's table for the predefined symbols, with the variables
    [frame] and [return] at the first free addresses (16, 17). *)
Definition hack_symbols (s : string) : Z :=
  if String.eqb s "SP" then 0 else if String.eqb s "LCL" then 1
  else if String.eqb s "ARG" then 2 else if String.eqb s "THIS" then 3
  else if String.eqb s "THAT" then 4 else if String.eqb s "frame" then 16
  else if String.eqb s "return" then 17 else 5000.

(** A RAM given by its nonzero cells. *)
Fixpoint mem_of (l : list (Z * Z)) (x : Z) : Z :=
  match l with
  | [] => 0
  | (a, v) :: l' => if Z.eqb x a then v else mem_of l' x
  end.
(** A callee frame of a function with no arguments: ARG (300) is the
    very cell holding the return address (1000), so the return address has
    to be read before the return value (42) is stored at [*ARG]. *)
Definition frame_memory : Z -> Z :=
  mem_of [(0, 310); (1, 305); (2, 300); (3, 3000); (4, 4000);
          (300, 1000); (301, 401); (302, 402); (303, 403); (304, 404);
          (309, 42)].

(** A caller with SP = 300 that has pushed two arguments (7, 8). *)
Definition call_memory : Z -> Z :=
  mem_of [(0, 300); (1, 1001); (2, 1002); (3, 1003); (4, 1004);
          (298, 7); (299, 8)].

(** A writer in the middle of [Main.main], as left by an input unit that
    ended inside a function. *)
Definition sample_in_function : cw :=
  mkCW "Prog" "Prog/Prog.asm" (Some "Main") (Some "Main.main") 0 0 true true [].

(** Instructions that declare a function (the only ones that set the
    function context). *)
Definition is_function_event (e : event) : bool :=
  match e with
  | Instr c => match command_type c with C_FUNCTION => true | _ => false end
  | SetFile _ => false
  end.

(** [preserves R m]: the writer [m] leaves is [R]-related to the one it
    started from, whether [m] returns or raises. *)
Definition preserves (R : cw -> cw -> Prop) {A} (m : M A) : Prop :=
  forall s, R s (fst (m s)).

Definition same_function (s s' : cw) : Prop :=
  current_function s' = current_function s.
Definition same_sink (s s' : cw) : Prop := sink_open s' = sink_open s.
(** Output is only ever appended to the file. *)
Definition extends (s s' : cw) : Prop := exists l, written s' = written s ++ l.

(** An action that leaves the function context as it found it. *)
Definition keeps_fn {A} (m : M A) : Prop := preserves same_function m.

(** A directory [Prog/] given with its trailing slash, holding [Sys.vm]. *)
Definition sample_dir_fs : fs :=
  mkFS (fun q => String.eqb q "Prog/" || String.eqb q "Prog/Sys.vm")
       (fun q => String.eqb q "Prog/Sys.vm")
       (fun q => String.eqb q "Prog/")
       (fun _ => ["Sys.vm"])
       (fun _ => ["function Sys.init 0"; "label LOOP"; "goto LOOP"]).

(** What one instruction does to the label declarations and the two
    counters: nothing; a comparison's [TRUE_k]/[END_k] pair; a call's
    [RETURN_k] (none if it raises after the bump); the input's own label
    or function name. *)
Definition label_effect (c : command) (s s' : cw) (ls : list string) : Prop :=
  let a := arith_jump_counter s in
  let r := return_counter s in
  (ls = [] /\ arith_jump_counter s' = a /\ return_counter s' = r) \/
  (ls = [true_label a; end_label a] /\ arith_jump_counter s' = S a /\ return_counter s' = r) \/
  ((ls = [] \/ ls = [return_label r]) /\ arith_jump_counter s' = a /\ return_counter s' = S r) \/
  (ls = [scoped_label (current_function s) (arg1 c)] /\ command_type c = C_LABEL /\
   arith_jump_counter s' = a /\ return_counter s' = r) \/
  (ls = [arg1 c] /\ command_type c = C_FUNCTION /\
   arith_jump_counter s' = a /\ return_counter s' = r).

(** How often [x] is declared in the output written so far. *)
Definition label_count (s : cw) (x : string) : nat :=
  count_occ string_dec (declared_labels (written s)) x.

(** Each generated label is declared at most once, and only below the
    counter it is taken from. *)
Definition labels_fresh (s : cw) : Prop :=
  forall k,
    (label_count s (true_label k) <= if k <? arith_jump_counter s then 1 else 0)%nat /\
    (label_count s (end_label k) <= if k <? arith_jump_counter s then 1 else 0)%nat /\
    (label_count s (return_label k) <= if k <? return_counter s then 1 else 0)%nat.

(** A two-unit job with comparisons and calls in both units. *)
Definition sample_job : list (string * list string) :=
  [("Prog/Main.vm", ["function Main.f 0"; "push constant 1"; "push constant 2"; "eq";
                     "return"]);
   ("Prog/Sys.vm", ["function Sys.init 0"; "push constant 3"; "push constant 3"; "eq";
                    "call Main.f 0"; "call Main.f 0"])].

(* ------------------------------------------------------------------ *)
(** ** Meaning of the remaining emitted blocks *)

(** The value that the ALU instruction emitted for a two-operand
    arithmetic command ([M=D+M], [M=M-D], [M=D&M], [M=D|M]) stores, as a
    function of the second-from-top [x] and the top [y] of the stack. *)
Definition binary_op (command : string) : option (Z -> Z -> Z) :=
  if String.eqb command "add" then Some (fun x y => w16 (x + y))
  else if String.eqb command "sub" then Some (fun x y => w16 (x - y))
  else if String.eqb command "and" then Some (fun x y => w16 (Z.land x y))
  else if String.eqb command "or" then Some (fun x y => w16 (Z.lor x y))
  else None.

(** The same for the one-operand commands ([M=-M], [M=!M]). *)
Definition unary_op (command : string) : option (Z -> Z) :=
  if String.eqb command "neg" then Some (fun x => w16 (- x))
  else if String.eqb command "not" then Some (fun x => w16 (Z.lnot x))
  else None.

(** The RAM address that the block of [translate_segment_vm_code] leaves
    in [A] (base-pointer segments, static, pointer, temp), in a RAM [m] and
    a symbol table [sym]; [None] where the source raises or emits nothing. *)
Definition segment_address (sym : string -> Z) (m : Z -> Z) (fname : option string)
  (segment : string) (i : nat) : option Z :=
  match get_ram_code segment with
  | inr r => Some (if Nat.eqb i 0 then m (sym r) else w16 (m (sym r) + Z.of_nat i))
  | inl _ =>
      if String.eqb segment "static" then
        match fname with Some f => Some (sym (f ++ "." ++ dec i)%string) | None => None end
      else if String.eqb segment "pointer" then
        match i with 0%nat => Some 3 | 1%nat => Some 4 | _ => None end
      else if String.eqb segment "temp" then Some (w16 (5 + Z.of_nat i))
      else None
  end.

(** The value pushed by [push segment i]: the constant itself, or the
    content of the segment address. *)
Definition push_value (sym : string -> Z) (m : Z -> Z) (fname : option string)
  (segment : string) (i : nat) : option Z :=
  if String.eqb segment "constant" then Some (Z.of_nat i)
  else option_map m (segment_address sym m fname segment i).

(** One instruction that does not jump. *)
Definition straight_step (env : string -> Z) (i : minstr) (st : mstate) : option mstate :=
  match i with
  | MAt (ANum n) => Some (mkM (Z.of_nat n) (rD st) (ram st))
  | MAt (ASym s) => Some (mkM (env s) (rD st) (ram st))
  | MC s => match exec_c s st with Some (st', false) => Some st' | _ => None end
  end.

(** A jump-free instruction list, run from its first to its last
    instruction. *)
Fixpoint run_straight (env : string -> Z) (l : list minstr) (st : mstate) : option mstate :=
  match l with
  | [] => Some st
  | i :: l' => match straight_step env i st with
               | Some st' => run_straight env l' st'
               | None => None
               end
  end.

(** A word of a line: no space character in it. *)
Definition no_space (s : string) : bool :=
  forallb (fun c => negb (Ascii.eqb c " ")) (list_ascii_of_string s).

(** Whether a line still holds the comment marker ["//"]. *)
Fixpoint has_slashes (l : list ascii) : bool :=
  match l with
  | c :: l' =>
      (Ascii.eqb c "/" && match l' with c2 :: _ => Ascii.eqb c2 "/" | [] => false end)
      || has_slashes l'
  | [] => false
  end.

(** The first and the last character of a line are not white space. *)
Definition head_ns (l : list ascii) : Prop :=
  forall c t, l = c :: t -> is_py_space c = false.
Definition last_ns (l : list ascii) : Prop :=
  forall m c, l = m ++ [c] -> is_py_space c = false.

(** A file name with neither a ['/'] nor a ['.'] in it. *)
Definition plain_name (s : string) : bool :=
  forallb (fun c => negb (Ascii.eqb c "/" || Ascii.eqb c ".")) (list_ascii_of_string s).

Definition no_slash (s : string) : bool :=
  forallb (fun c => negb (Ascii.eqb c "/")) (list_ascii_of_string s).

(** Lines of assembly code, as opposed to the [// vm command] comments
    written when [log_vm_commands] is set. *)
Definition is_code_line (a : asm) : bool :=
  match a with Cmt _ => false | _ => true end.

Definition strip_comments (l : list asm) : list asm := filter is_code_line l.

(** The writer as it would be with [log_vm_commands=False]. *)
Definition quiet (s : cw) : cw :=
  mkCW (in_filepath s) (out_filename s) (current_filename s) (current_function s)
       (arith_jump_counter s) (return_counter s) false (sink_open s)
       (strip_comments (written s)).

(** A writer operation that behaves on the quiet writer as it does on the
    logging one, up to the comments. *)
Definition log_neutral {A} (m : M A) : Prop :=
  forall s, m (quiet s) = (quiet (fst (m s)), snd (m s)).

(** A list of emitted lines that holds at most the one logging comment. *)
Definition comment_only (s : cw) (l : list asm) : Prop :=
  l = [] \/ (log_vm_commands s = true /\ exists t, l = [Cmt t]).

(* ------------------------------------------------------------------ *)
(** ** The [Parser] object and the driver loop of [Main.translate_file] *)

(** A [Parser] object: its cleaned lines, [_line] and [_current_command]. *)
Record parser := mkParser {
  p_file : list string;
  p_line : Z;
  p_current_command : option command
}.

(** [Parser.__init__] *)
Definition new_parser (file : list string) : parser :=
  mkParser (clean_file file) (-1) None.

(** [Parser.has_more_commands] *)
Definition has_more_commands (p : parser) : bool :=
  (p_line p + 1 <? Z.of_nat (List.length (p_file p)))%Z.

(** [Parser.advance]: [None] is the IndexError of [self.file[self.line]]
    past the end; [inl] an exception of [Command]. *)
Definition advance (p : parser) : option (err + parser) :=
  let l := (p_line p + 1)%Z in
  match nth_error (p_file p) (Z.to_nat l) with
  | None => None
  | Some text =>
      match parse_command text with
      | inl e => Some (inl e)
      | inr c => Some (inr (mkParser (p_file p) l (Some c)))
      end
  end.

(** The [while parser.has_more_commands()] loop of [Main.translate_file];
    [fuel] bounds the iterations, and the branches that return early are
    the ones [has_more_commands] rules out. *)
Fixpoint translate_loop (fuel : nat) (p : parser) : M unit :=
  match fuel with
  | O => ret tt
  | S f =>
      if has_more_commands p then
        match advance p with
        | Some (inr p') =>
            match p_current_command p' with
            | Some c => dispatch c ;; translate_loop f p'
            | None => ret tt
            end
        | Some (inl e) => raise e
        | None => ret tt
        end
      else ret tt
  end.

(** [Main.translate_file] with its [Parser]. *)
Definition main_translate_file (file : list string) (filepath : string) : M unit :=
  let parser := new_parser file in
  set_filename filepath ;;
  translate_loop (S (List.length (p_file parser))) parser.

(* ------------------------------------------------------------------ *)
(** ** Symbolic execution of emitted blocks *)

Section Unfold.
Variables (env : string -> Z) (org : Z) (code : list minstr).

Lemma exec_unfold_num f pc st n :
  nth_error code pc = Some (MAt (ANum n)) ->
  exec env org code (S f) pc st =
  exec env org code f (S pc) (mkM (Z.of_nat n) (rD st) (ram st)).
Proof. intros H; cbn; rewrite H; reflexivity. Qed.

Lemma exec_unfold_sym f pc st s :
  nth_error code pc = Some (MAt (ASym s)) ->
  exec env org code (S f) pc st =
  exec env org code f (S pc) (mkM (env s) (rD st) (ram st)).
Proof. intros H; cbn; rewrite H; reflexivity. Qed.

Lemma exec_unfold_next f pc st s st' :
  nth_error code pc = Some (MC s) -> exec_c s st = Some (st', false) ->
  exec env org code (S f) pc st = exec env org code f (S pc) st'.
Proof. intros H E; cbn; rewrite H, E; reflexivity. Qed.

Lemma exec_unfold_out f pc st s st' :
  nth_error code pc = Some (MC s) -> exec_c s st = Some (st', true) ->
  ~ (org <= rA st < org + Z.of_nat (List.length code)) ->
  exec env org code (S f) pc st = Jumped (rA st) st'.
Proof.
  intros H E N; cbn; rewrite H, E.
  destruct ((org <=? rA st) && (rA st <? org + Z.of_nat (List.length code)))
    eqn:B; [|reflexivity].
  apply andb_true_iff in B; destruct B as [B1 B2].
  apply Z.leb_le in B1; apply Z.ltb_lt in B2; lia.
Qed.

Lemma exec_unfold_in f pc st s st' i :
  nth_error code pc = Some (MC s) -> exec_c s st = Some (st', true) ->
  rA st = org + Z.of_nat i -> (i < List.length code)%nat ->
  exec env org code (S f) pc st = exec env org code f i st'.
Proof.
  intros H E A L; cbn; rewrite H, E.
  replace ((org <=? rA st) && (rA st <? org + Z.of_nat (List.length code)))
    with true.
  - rewrite A; f_equal; lia.
  - symmetry; apply andb_true_iff; split; [apply Z.leb_le|apply Z.ltb_lt]; lia.
Qed.

Lemma exec_unfold_end f pc st :
  nth_error code pc = None -> exec env org code (S f) pc st = Fell st.
Proof. intros H; cbn; rewrite H; reflexivity. Qed.

End Unfold.

Lemma upd_same m a v : upd m a v a = v.
Proof. unfold upd; rewrite Z.eqb_refl; reflexivity. Qed.

Lemma upd_eq m a v x : x = a -> upd m a v x = v.
Proof. intros ->; apply upd_same. Qed.

Lemma upd_other m a v x : x <> a -> upd m a v x = m x.
Proof. intros H; unfold upd; apply Z.eqb_neq in H; rewrite H; reflexivity. Qed.

Lemma resolve_outside sym org b s :
  label_index b s 0 = None -> resolve sym org b s = sym s.
Proof. intros H; unfold resolve; rewrite H; reflexivity. Qed.

Lemma resolve_inside sym org b s i :
  label_index b s 0 = Some i -> resolve sym org b s = org + Z.of_nat i.
Proof. intros H; unfold resolve; rewrite H; reflexivity. Qed.

Lemma w16_id z : word z -> w16 z = z.
Proof.
  unfold word, w16; intros H.
  rewrite Z.mod_small by lia; lia.
Qed.

(** Arithmetic side conditions, with the (many) disequalities of the
    context put aside so that [lia] does not case-split on them. *)
Ltac arith :=
  repeat match goal with H : _ <> _ |- _ => clear H end; lia.

Ltac neq :=
  solve [ assumption | apply not_eq_sym; assumption | arith
        | match goal with H : _ <> _ |- _ <> _ =>
            let E := fresh in intro E; apply H; arith end ].

Ltac read_simpl :=
  repeat match goal with
  | |- context [upd ?m ?a ?v ?a] => rewrite (upd_same m a v)
  | |- context [upd ?m ?a ?v ?x] => rewrite (upd_other m a v x) by neq
  | |- context [upd ?m ?a ?v ?x] => rewrite (upd_eq m a v x) by arith
  end.

Ltac w16_simpl :=
  repeat match goal with
  | |- context [w16 ?z] => rewrite (w16_id z) by (unfold word; arith)
  end.

Ltac out_solver :=
  match goal with
  | H : outside ?o ?b ?t |- _ =>
      let n := eval vm_compute in (Z.of_nat (List.length (machine_code b))) in
      let H' := fresh in
      assert (H' : ~ (o <= t < o + n)) by exact H;
      exact H'
  end.

(** [label_index] on a block whose only unknowns are its generated
    label numbers and the names of the context. *)
Ltac label_solver :=
  first
    [ cbn [label_index];
      repeat (rewrite String.eqb_refl
              || match goal with H : String.eqb _ _ = false |- _ => rewrite H end);
      reflexivity
    | cbn;
      repeat (rewrite String.eqb_refl
              || match goal with H : String.eqb _ _ = false |- _ => rewrite H end);
      reflexivity ].

Ltac jump_step env org code f pc st s st' Hc :=
  first
    [ let t := eval cbn in (rA st) in
      match t with
      | org + ?z =>
          let i := eval vm_compute in (Z.to_nat z) in
          rewrite (exec_unfold_in env org code f pc st s st' i eq_refl Hc eq_refl
                     (proj1 (Nat.ltb_lt i (List.length code)) eq_refl))
      end
    | rewrite (exec_unfold_out env org code f pc st s st' eq_refl Hc)
        by out_solver ].

(** One instruction of a concrete block: an A-instruction resolves its
    symbol, a C-instruction is decoded and run, and a conditional jump on
    an unknown value splits the proof in two. *)
Ltac hstep :=
  match goal with
  | |- context [exec ?env ?org ?code (S ?f) ?pc ?st] =>
      let i := eval cbn in (nth_error code pc) in
      match i with
      | Some (MAt (ANum ?n)) =>
          rewrite (exec_unfold_num env org code f pc st n eq_refl)
      | Some (MAt (ASym ?s)) =>
          rewrite (exec_unfold_sym env org code f pc st s eq_refl);
          match env with
          | resolve ?sy ?o ?b =>
              first
                [ rewrite (resolve_outside sy o b s) by label_solver;
                  try match goal with H : sy s = _ |- _ => rewrite H end
                | erewrite (resolve_inside sy o b s) by label_solver ]
          | _ => idtac
          end
      | Some (MC ?s) =>
          let r := eval cbn -[w16 upd Z.sub Z.add Z.opp Z.lnot Z.land Z.lor
                               Z.eqb Z.ltb Z.leb] in (exec_c s st) in
          match r with
          | Some (?st', ?b) =>
              let Hc := fresh "Hc" in
              assert (Hc : exec_c s st = Some (st', b)) by reflexivity;
              lazymatch b with
              | false => rewrite (exec_unfold_next env org code f pc st s st' eq_refl Hc)
              | true => jump_step env org code f pc st s st' Hc
              | _ =>
                  let E := fresh "E" in
                  case_eq b; intro E; rewrite E in Hc;
                  [ jump_step env org code f pc st s st' Hc
                  | rewrite (exec_unfold_next env org code f pc st s st' eq_refl Hc) ]
              end;
              clear Hc
          end
      | None => rewrite (exec_unfold_end env org code f pc st eq_refl)
      end
  end; cbn [rA rD ram Z.of_nat Pos.of_succ_nat]; read_simpl.

Ltac hstep_w := hstep; w16_simpl; read_simpl.

Lemma run_block_cmt sym org t b st :
  run_block sym org (Cmt t :: b) st = run_block sym org b st.
Proof. reflexivity. Qed.

Lemma return_code_runs sym org a d m F R :
  predefined sym -> sym "frame" = F -> sym "return" = R ->
  return_layout F R m -> outside org return_code (m (w16 (m 1 - 5))) ->
  exists st', run_block sym org return_code (mkM a d m) = Jumped (m (w16 (m 1 - 5))) st' /\
              ram st' = return_spec F R m.
Proof.
  intros (H0 & H1 & H2 & H3 & H4) HF HR L Hout.
  unfold return_layout in L; cbv zeta in L.
  destruct L as (LF & LR & LFR & LFa & LRa & L5 & Lsp & LspF & LspR & Lk).
  destruct (Lk 1 ltac:(lia)) as (K1 & K1F & K1R & K1a).
  destruct (Lk 2 ltac:(lia)) as (K2 & K2F & K2R & K2a).
  destruct (Lk 3 ltac:(lia)) as (K3 & K3F & K3R & K3a).
  destruct (Lk 4 ltac:(lia)) as (K4 & K4F & K4R & K4a).
  unfold run_block; cbn [machine_code flat_map return_code app List.length].
  repeat hstep.
  eexists; split; [reflexivity|].
  cbn [ram]; unfold return_spec; reflexivity.
Qed.

(** C1: the block emitted for [return] (after its optional log comment)
    keeps LCL as the frame base in [frame], reads the return address at
    [frame - 5] into [return], pops the top of stack into [*ARG], sets SP
    to ARG + 1, restores THAT, THIS, ARG, LCL from [frame - 1] ... [frame - 4]
    and jumps to the saved return address: on every caller frame laid out
    as in [return_layout], the final RAM is [return_spec], in which every
    value read is the caller's original one. *)
Theorem write_return_restores_caller (s : cw) sym org a d m F R :
  predefined sym -> sym "frame" = F -> sym "return" = R ->
  return_layout F R m -> outside org return_code (m (w16 (m 1 - 5))) ->
  exists block,
    snd (write_return s) = inr tt /\
    written (fst (write_return s)) = written s ++ block /\
    machine_code block = machine_code return_code /\
    exists st', run_block sym org block (mkM a d m) = Jumped (m (w16 (m 1 - 5))) st' /\
                ram st' = return_spec F R m.
Proof.
  intros HP HF HR L Hout.
  destruct (return_code_runs sym org a d m F R HP HF HR L Hout) as (st' & Hrun & Hram).
  exists ((if log_vm_commands s then [Cmt "return"] else []) ++ return_code).
  unfold write_return, log_line, bind, gets, write, modify, ret.
  split; [destruct (log_vm_commands s); reflexivity|].
  split; [destruct (log_vm_commands s); cbn; [rewrite <- app_assoc|]; reflexivity|].
  split; [destruct (log_vm_commands s); reflexivity|].
  exists st'; split; [|exact Hram].
  destruct (log_vm_commands s); [cbn [app]; rewrite run_block_cmt|]; exact Hrun.
Qed.

(** C1 on a callee with no arguments: the caller gets 42 at [*ARG] and its
    pointers back, and control goes to 1000. *)
Lemma write_return_restores_caller_witness :
  exists block,
    snd (write_return (sample_writer true)) = inr tt /\
    written (fst (write_return (sample_writer true))) = written (sample_writer true) ++ block /\
    machine_code block = machine_code return_code /\
    exists st', run_block hack_symbols 100 block (mkM 0 0 frame_memory) =
                  Jumped (frame_memory (w16 (frame_memory 1 - 5))) st' /\
                ram st' = return_spec 16 17 frame_memory.
Proof.
  apply (write_return_restores_caller (sample_writer true) hack_symbols 100 0 0
           frame_memory 16 17).
  - repeat split.
  - reflexivity.
  - reflexivity.
  - unfold return_layout; cbv zeta.
    repeat split; try (unfold w16, frame_memory, mem_of; cbn; lia).
    all: match goal with
         | Hk : 1 <= ?k <= 4 |- _ =>
             assert (k = 1 \/ k = 2 \/ k = 3 \/ k = 4) as [-> | [-> | [-> | ->]]] by lia
         end;
      unfold w16, frame_memory, mem_of; cbn; lia.
  - unfold outside, w16, frame_memory, mem_of; cbn; lia.
Defined.

Lemma comparison_block_runs (s : cw) command sym org a d m sp :
  In command ["eq"; "gt"; "lt"] -> predefined sym -> m 0 = sp -> 3 <= sp < 32768 ->
  exists block,
    snd (write_arithmetic command s) = inr tt /\
    written (fst (write_arithmetic command s)) = written s ++ block /\
    arith_jump_counter (fst (write_arithmetic command s)) = S (arith_jump_counter s) /\
    declared_labels block = [true_label (arith_jump_counter s); end_label (arith_jump_counter s)] /\
    exists st', run_block sym org block (mkM a d m) = Fell st' /\
      ram st' 0 = sp - 1 /\
      ram st' (sp - 2) = (if comparison_holds command (w16 (m (sp - 2) - m (sp - 1))) then -1 else 0) /\
      (forall x, x <> 0 -> x <> sp - 2 -> ram st' x = m x).
Proof.
  intros Hc (H0 & H1 & H2 & H3 & H4) Hsp Hb.
  destruct s as [ip of cf cfn k rc lg so w].
  cbn [arith_jump_counter].
  remember (write_arithmetic command (mkCW ip of cf cfn k rc lg so w)) as r eqn:Er.
  destruct Hc as [<- | [<- | [<- | []]]]; destruct lg;
  unfold write_arithmetic, translate_arithmetic_vm_code_to_assembly, log_line, write, modify, gets, bind, ret in Er;
  cbn -[dec String.append] in Er; subst r; cbn [fst snd written arith_jump_counter append_written set_arith];
  eexists; (split; [reflexivity|]); (split; [rewrite <- ?app_assoc; reflexivity|]);
  (split; [reflexivity|]); (split; [reflexivity|]);
  cbn [app]; rewrite ?run_block_cmt;
  unfold run_block; cbn [machine_code flat_map app List.length];
  repeat hstep_w.
  all: eexists; (split; [reflexivity|]); cbn [ram]; subst sp.
  all: replace (m 0 - 1 - 1) with (m 0 - 2) in * by lia.
  all: split; [read_simpl; lia|]; split.
  all: try (intros x Hx1 Hx2; read_simpl; reflexivity).
  all: read_simpl;
    match goal with
    | E : ?b = _ |- context [comparison_holds ?c ?v] =>
        change (comparison_holds c v) with b; rewrite E; reflexivity
    end.
Qed.

Lemma push_push_eq_runs (s : cw) sym org a d m sp :
  predefined sym -> m 0 = sp -> 5 <= sp < 32766 ->
  exists block,
    snd (translate_lines ["push constant 5"; "push constant 5"; "eq"] s) = inr tt /\
    written (fst (translate_lines ["push constant 5"; "push constant 5"; "eq"] s)) = written s ++ block /\
    exists st', run_block sym org block (mkM a d m) = Fell st' /\
      ram st' 0 = sp + 1 /\ ram st' sp = -1.
Proof.
  intros (H0 & H1 & H2 & H3 & H4) Hsp Hb.
  destruct s as [ip of cf cfn k rc lg so w].
  remember (translate_lines ["push constant 5"; "push constant 5"; "eq"] (mkCW ip of cf cfn k rc lg so w)) as r eqn:Er.
  assert (P1 : parse_command "push constant 5" = inr (mkCommand C_PUSH "constant" (Some 5%nat)))
    by reflexivity.
  assert (P2 : parse_command "eq" = inr (mkCommand C_ARITHMETIC "eq" None)) by reflexivity.
  cbn [translate_lines] in Er; rewrite P1, P2 in Er.
  destruct lg;
  unfold lift, dispatch, write_push_pop, translate_push_vm_code_to_asm, translate_segment_vm_code, write_arithmetic, translate_arithmetic_vm_code_to_assembly, log_line, write, modify, gets, bind, ret in Er;
  cbn -[dec String.append] in Er; subst r;
  cbn [fst snd written arith_jump_counter append_written set_arith];
  eexists; (split; [reflexivity|]); (split; [rewrite <- ?app_assoc; reflexivity|]);
  cbn [app]; rewrite ?run_block_cmt;
  unfold run_block; unfold push_d; cbn [machine_code flat_map app List.length];
  repeat hstep_w.
  all: try (match goal with E : _ = false |- _ => vm_compute in E; discriminate E end).
  all: eexists; (split; [reflexivity|]); cbn [ram]; subst sp.
  all: split; read_simpl; lia.
Qed.

(** C6: a comparison [eq], [gt] or [lt] pops the right operand [y] (at
    SP - 1) and then the left one [x] (at SP - 2), tests [x - y] (a 16-bit
    difference) against the condition through the fresh labels TRUE_k and
    END_k of the comparison counter, and leaves one value, -1 when the
    condition holds and 0 otherwise, on top of the stack; no other cell
    changes.  In particular the code for the lines [push constant 5],
    [push constant 5], [eq] grows the stack by one cell holding -1. *)
Theorem comparison_pushes_truth_value :
  (forall (s : cw) command sym org a d m sp,
    In command ["eq"; "gt"; "lt"] -> predefined sym -> m 0 = sp -> 3 <= sp < 32768 ->
    exists block,
      snd (write_arithmetic command s) = inr tt /\
      written (fst (write_arithmetic command s)) = written s ++ block /\
      arith_jump_counter (fst (write_arithmetic command s)) = S (arith_jump_counter s) /\
      declared_labels block =
        [true_label (arith_jump_counter s); end_label (arith_jump_counter s)] /\
      exists st', run_block sym org block (mkM a d m) = Fell st' /\
        ram st' 0 = sp - 1 /\
        ram st' (sp - 2) =
          (if comparison_holds command (w16 (m (sp - 2) - m (sp - 1))) then -1 else 0) /\
        (forall x, x <> 0 -> x <> sp - 2 -> ram st' x = m x)) /\
  (forall (s : cw) sym org a d m sp,
    predefined sym -> m 0 = sp -> 5 <= sp < 32766 ->
    exists block,
      snd (translate_lines ["push constant 5"; "push constant 5"; "eq"] s) = inr tt /\
      written (fst (translate_lines ["push constant 5"; "push constant 5"; "eq"] s)) =
        written s ++ block /\
      exists st', run_block sym org block (mkM a d m) = Fell st' /\
        ram st' 0 = sp + 1 /\ ram st' sp = -1).
Proof.
  split.
  - intros s command sym org a d m sp; apply comparison_block_runs.
  - intros s sym org a d m sp; apply push_push_eq_runs.
Qed.

(** C6 on [7 gt 3] with SP = 258 (true, -1 at 256, SP = 257), and on
    Scenario B from SP = 256. *)
Lemma comparison_pushes_truth_value_witness :
  (exists block,
      snd (write_arithmetic "gt" (sample_writer true)) = inr tt /\
      written (fst (write_arithmetic "gt" (sample_writer true))) =
        written (sample_writer true) ++ block /\
      arith_jump_counter (fst (write_arithmetic "gt" (sample_writer true))) = 1%nat /\
      declared_labels block = [true_label 0; end_label 0] /\
      exists st', run_block hack_symbols 100 block
                    (mkM 0 0 (mem_of [(0, 258); (256, 7); (257, 3)])) = Fell st' /\
        ram st' 0 = 257 /\ ram st' 256 = -1 /\
        (forall x, x <> 0 -> x <> 256 -> ram st' x = mem_of [(0, 258); (256, 7); (257, 3)] x)) /\
  (exists block,
      snd (translate_lines ["push constant 5"; "push constant 5"; "eq"] (sample_writer true)) = inr tt /\
      written (fst (translate_lines ["push constant 5"; "push constant 5"; "eq"] (sample_writer true))) =
        written (sample_writer true) ++ block /\
      exists st', run_block hack_symbols 100 block (mkM 0 0 (mem_of [(0, 256)])) = Fell st' /\
        ram st' 0 = 257 /\ ram st' 256 = -1).
Proof.
  split.
  - apply (proj1 comparison_pushes_truth_value (sample_writer true) "gt" hack_symbols 100 0 0
             (mem_of [(0, 258); (256, 7); (257, 3)]) 258).
    + cbn; auto.
    + repeat split.
    + reflexivity.
    + lia.
  - apply (proj2 comparison_pushes_truth_value (sample_writer true) hack_symbols 100 0 0
             (mem_of [(0, 256)]) 256).
    + repeat split.
    + reflexivity.
    + lia.
Defined.

(** C2: the block emitted for [call name n] takes the fresh label
    RETURN_k of the return counter (which moves on to k + 1), ends with
    [@name], [0;JMP] and the declaration [(RETURN_k)], and on the machine
    pushes, in this order, the return address (the ROM address just past
    the block, where RETURN_k is declared), LCL, ARG, THIS and THAT; then
    sets ARG to SP - n - 5 and LCL to SP (SP after the five pushes) and
    jumps to [name].  THIS and THAT, and every cell outside the five pushed
    ones and the registers, keep their values. *)
Theorem write_call_protocol (s : cw) name n :
  exists block,
    snd (write_call name (Some n) s) = inr tt /\
    written (fst (write_call name (Some n) s)) = written s ++ block /\
    return_counter (fst (write_call name (Some n) s)) = S (return_counter s) /\
    skipn (List.length block - 3) block =
      [At (ASym name); C "0;JMP"; Lbl (return_label (return_counter s))] /\
    forall sym org a d m sp,
      predefined sym -> m 0 = sp -> 5 <= sp -> sp + 5 < 32768 ->
      name <> return_label (return_counter s) -> outside org block (sym name) ->
      exists st', run_block sym org block (mkM a d m) = Jumped (sym name) st' /\
        ram st' sp = org + Z.of_nat (List.length (machine_code block)) /\
        ram st' (sp + 1) = m 1 /\ ram st' (sp + 2) = m 2 /\
        ram st' (sp + 3) = m 3 /\ ram st' (sp + 4) = m 4 /\
        ram st' 0 = sp + 5 /\
        ram st' 2 = w16 (ram st' 0 - Z.of_nat n - 5) /\
        ram st' 1 = ram st' 0 /\
        ram st' 3 = m 3 /\ ram st' 4 = m 4 /\
        (forall x, 5 <= x -> x < sp \/ sp + 5 <= x -> ram st' x = m x).
Proof.
  destruct s as [ip of cf cfn k rc lg so w]; cbn [return_counter].
  remember (write_call name (Some n) (mkCW ip of cf cfn k rc lg so w)) as r eqn:Er.
  destruct lg;
  unfold write_call, translate_push_vm_code_to_asm, log_line, write, modify, gets, bind, ret in Er;
  cbn -[dec String.append] in Er; subst r;
  cbn [fst snd written return_counter append_written set_return];
  eexists; (split; [reflexivity|]); (split; [rewrite <- ?app_assoc; reflexivity|]);
  (split; [reflexivity|]);
  (split; [reflexivity|]).
  all: intros sym org a d m sp (H0 & H1 & H2 & H3 & H4) Hsp Hs1 Hs2 Hn Hout.
  all: cbn [app] in *; rewrite ?run_block_cmt.
  all: unfold return_label in Hn; apply String.eqb_neq in Hn.
  all: remember ("RETURN_" ++ dec rc)%string as L eqn:HL.
  all: assert (L0 : String.eqb "SP" L = false) by (subst L; reflexivity).
  all: assert (L1 : String.eqb "LCL" L = false) by (subst L; reflexivity).
  all: assert (L2 : String.eqb "ARG" L = false) by (subst L; reflexivity).
  all: assert (L3 : String.eqb "THIS" L = false) by (subst L; reflexivity).
  all: assert (L4 : String.eqb "THAT" L = false) by (subst L; reflexivity).
  all: unfold run_block; cbn [machine_code flat_map app List.length].
  all: repeat hstep_w.
  all: subst sp; eexists; (split; [reflexivity|]); cbn [ram].
  all: repeat match goal with |- _ /\ _ => split end.
  all: try (intros x Hx Hr); read_simpl.
  all: first [ reflexivity | lia | f_equal; lia ].
Qed.

(** C2 on [call Main.f 2] from SP = 300, with the block at ROM address 100
    and [Main.f] at 5000. *)
Lemma write_call_protocol_witness :
  exists block st',
    written (fst (write_call "Main.f" (Some 2%nat) (sample_writer true))) = block /\
    run_block hack_symbols 100 block (mkM 0 0 call_memory) = Jumped 5000 st' /\
    ram st' 300 = 142 /\ ram st' 301 = 1001 /\ ram st' 302 = 1002 /\
    ram st' 303 = 1003 /\ ram st' 304 = 1004 /\
    ram st' 0 = 305 /\ ram st' 2 = 298 /\ ram st' 1 = 305.
Proof.
  destruct (write_call_protocol (sample_writer true) "Main.f" 2)
    as (block & _ & E & _ & _ & Hrun).
  vm_compute in E; subst block.
  destruct (Hrun hack_symbols 100 0 0 call_memory 300) as
      (st' & R & R0 & R1 & R2 & R3 & R4 & R5 & R6 & R7 & _).
  - repeat split.
  - reflexivity.
  - lia.
  - lia.
  - intro H; vm_compute in H; discriminate H.
  - unfold outside; vm_compute; intros [_ Hb]; discriminate Hb.
  - exists (written (fst (write_call "Main.f" (Some 2%nat) (sample_writer true)))), st'.
    rewrite R5 in R6, R7.
    split; [reflexivity|]. split; [exact R|]. split; [exact R0|].
    split; [exact R1|]. split; [exact R2|]. split; [exact R3|]. split; [exact R4|].
    split; [exact R5|]. split; [exact R6|]. exact R7.
Defined.

Lemma get_ram_code_cases seg r :
  get_ram_code seg = inr r ->
  (seg = "argument" /\ r = "ARG") \/ (seg = "local" /\ r = "LCL") \/
  (seg = "this" /\ r = "THIS") \/ (seg = "that" /\ r = "THAT").
Proof.
  unfold get_ram_code.
  destruct (String.eqb_spec seg "argument"); [intros [= <-]; auto|].
  destruct (String.eqb_spec seg "local"); [intros [= <-]; auto|].
  destruct (String.eqb_spec seg "this"); [intros [= <-]; auto|].
  destruct (String.eqb_spec seg "that"); [intros [= <-]; auto|].
  discriminate.
Qed.

Lemma push_base_runs seg r i (s : cw) sym org a d m sp :
  get_ram_code seg = inr r -> predefined sym -> word (m (sym r)) -> m 0 = sp -> 5 <= sp < 32767 ->
  exists block,
    snd (write_push_pop C_PUSH seg (Some i) s) = inr tt /\
    written (fst (write_push_pop C_PUSH seg (Some i) s)) = written s ++ block /\
    exists st', run_block sym org block (mkM a d m) = Fell st' /\
      ram st' 0 = sp + 1 /\ ram st' sp = m (w16 (m (sym r) + Z.of_nat i)) /\
      (forall x, x <> 0 -> x <> sp -> ram st' x = m x).
Proof.
  intros Hr HP Hw Hsp Hb.
  destruct HP as (H0 & H1 & H2 & H3 & H4).
  destruct s as [ip of cf cfn k rc lg so w]; cbn [written].
  remember (write_push_pop C_PUSH seg (Some i) (mkCW ip of cf cfn k rc lg so w)) as res eqn:Er.
  apply get_ram_code_cases in Hr.
  destruct Hr as [[-> ->] | [[-> ->] | [[-> ->] | [-> ->]]]];
  rewrite ?H1, ?H2, ?H3, ?H4 in *; destruct i as [|i']; destruct lg;
  unfold write_push_pop, translate_push_vm_code_to_asm, translate_segment_vm_code, lift,
    log_line, write, modify, gets, bind, ret in Er;
  cbn -[dec String.append show_index] in Er; subst res;
  cbn [fst snd written append_written];
  eexists; (split; [reflexivity|]); (split; [rewrite <- ?app_assoc; reflexivity|]);
  cbn [app]; rewrite ?run_block_cmt;
  unfold run_block, push_d; cbn [machine_code flat_map app List.length at_index];
  repeat hstep_w.
  all: subst sp; eexists; (split; [reflexivity|]); cbn [ram].
  all: split; [read_simpl; lia|]; split; [read_simpl|intros x Hx1 Hx2; read_simpl; reflexivity].
  all: first [ reflexivity | rewrite Z.add_0_r, (w16_id _ Hw); reflexivity ].
Qed.

Lemma pop_constant_fails idx (s : cw) :
  snd (write_push_pop C_POP "constant" idx s) = inl (InvalidSegment "constant").
Proof.
  destruct s as [ip of cf cfn k rc lg so w]; destruct lg; reflexivity.
Qed.

Lemma pointer_other_fails t idx (s : cw) :
  (t = C_PUSH \/ t = C_POP) -> idx <> Some 0%nat -> idx <> Some 1%nat ->
  snd (write_push_pop t "pointer" idx s) = inl (InvalidOperand idx).
Proof.
  intros Ht H0 H1.
  destruct s as [ip of cf cfn k rc lg so w].
  destruct idx as [[|[|n]]|]; try congruence;
  destruct Ht as [-> | ->]; destruct lg; reflexivity.
Qed.

(** C5: pushing from a base segment ([argument], [local], [this], [that])
    at index 0 or at any other index pushes the cell at base + index, SP
    moving up by one and nothing else changing; [pop constant i] fails with
    InvalidSegment; a push or pop on [pointer] with an index other than 0
    or 1 (or none) fails with InvalidOperand. *)
Theorem segment_addressing_boundaries :
  (forall seg r i (s : cw) sym org a d m sp,
     get_ram_code seg = inr r -> predefined sym -> word (m (sym r)) ->
     m 0 = sp -> 5 <= sp < 32767 ->
     exists block,
       snd (write_push_pop C_PUSH seg (Some i) s) = inr tt /\
       written (fst (write_push_pop C_PUSH seg (Some i) s)) = written s ++ block /\
       exists st', run_block sym org block (mkM a d m) = Fell st' /\
         ram st' 0 = sp + 1 /\ ram st' sp = m (w16 (m (sym r) + Z.of_nat i)) /\
         (forall x, x <> 0 -> x <> sp -> ram st' x = m x)) /\
  (forall idx (s : cw),
     snd (write_push_pop C_POP "constant" idx s) = inl (InvalidSegment "constant")) /\
  (forall t idx (s : cw),
     (t = C_PUSH \/ t = C_POP) -> idx <> Some 0%nat -> idx <> Some 1%nat ->
     snd (write_push_pop t "pointer" idx s) = inl (InvalidOperand idx)).
Proof.
  split; [|split].
  - intros seg r i s sym org a d m sp; apply push_base_runs.
  - apply pop_constant_fails.
  - apply pointer_other_fails.
Qed.

(** C5 on [push local 0] and [push local 5] with LCL = 300, on
    [pop constant 0] and on [push pointer 2]. *)
Lemma segment_addressing_boundaries_witness :
  (exists block,
     snd (write_push_pop C_PUSH "local" (Some 0%nat) (sample_writer true)) = inr tt /\
     written (fst (write_push_pop C_PUSH "local" (Some 0%nat) (sample_writer true))) =
       written (sample_writer true) ++ block /\
     exists st', run_block hack_symbols 100 block
                   (mkM 0 0 (mem_of [(0, 256); (1, 300); (300, 11); (305, 22)])) = Fell st' /\
       ram st' 0 = 257 /\ ram st' 256 = 11 /\
       (forall x, x <> 0 -> x <> 256 ->
          ram st' x = mem_of [(0, 256); (1, 300); (300, 11); (305, 22)] x)) /\
  (exists block,
     snd (write_push_pop C_PUSH "local" (Some 5%nat) (sample_writer true)) = inr tt /\
     written (fst (write_push_pop C_PUSH "local" (Some 5%nat) (sample_writer true))) =
       written (sample_writer true) ++ block /\
     exists st', run_block hack_symbols 100 block
                   (mkM 0 0 (mem_of [(0, 256); (1, 300); (300, 11); (305, 22)])) = Fell st' /\
       ram st' 0 = 257 /\ ram st' 256 = 22 /\
       (forall x, x <> 0 -> x <> 256 ->
          ram st' x = mem_of [(0, 256); (1, 300); (300, 11); (305, 22)] x)) /\
  snd (write_push_pop C_POP "constant" (Some 0%nat) (sample_writer true)) =
    inl (InvalidSegment "constant") /\
  snd (write_push_pop C_PUSH "pointer" (Some 2%nat) (sample_writer true)) =
    inl (InvalidOperand (Some 2%nat)).
Proof.
  destruct segment_addressing_boundaries as (P & Q & R).
  split; [|split; [|split]].
  - apply (P "local" "LCL" 0%nat (sample_writer true) hack_symbols 100 0 0
             (mem_of [(0, 256); (1, 300); (300, 11); (305, 22)]) 256);
      [reflexivity | repeat split | cbn; unfold word; lia | reflexivity | lia].
  - apply (P "local" "LCL" 5%nat (sample_writer true) hack_symbols 100 0 0
             (mem_of [(0, 256); (1, 300); (300, 11); (305, 22)]) 256);
      [reflexivity | repeat split | cbn; unfold word; lia | reflexivity | lia].
  - apply Q.
  - apply R; [left; reflexivity | discriminate | discriminate].
Defined.

(** C8 as stated fails: the index-0 address code of [local] is two
    machine instructions shorter than the one for index 5, not one. *)
Lemma base_segment_paths_counterexample :
  exists b0 b5,
    translate_segment_vm_code "local" (Some 0%nat) (sample_writer false) =
      (sample_writer false, inr b0) /\
    translate_segment_vm_code "local" (Some 5%nat) (sample_writer false) =
      (sample_writer false, inr b5) /\
    List.length (machine_code b0) = 2%nat /\
    List.length (machine_code b5) = 4%nat /\
    List.length (machine_code b5) <> S (List.length (machine_code b0)).
Proof.
  eexists; eexists.
  split; [reflexivity|]; split; [reflexivity|].
  split; [reflexivity|]; split; [reflexivity|].
  cbn; discriminate.
Qed.

(** C8 (amended): for a base segment, the address code at index 0
    ([@R], [A=M]) dereferences the base pointer directly and is two machine
    instructions shorter than the code at a nonzero index i
    ([@R], [D=M], [@i], [A=D+A]); both leave A = base + i (the 16-bit sum;
    for index 0 this is the base, a 16-bit word). *)
Theorem base_segment_paths seg r (s : cw) i sym org a d m :
  get_ram_code seg = inr r -> predefined sym -> word (m (sym r)) ->
  exists b0 bi,
    translate_segment_vm_code seg (Some 0%nat) s = (s, inr b0) /\
    translate_segment_vm_code seg (Some (S i)) s = (s, inr bi) /\
    b0 = [At (ASym r); C "A=M"] /\
    bi = [At (ASym r); C "D=M"; At (ANum (S i)); C "A=D+A"] /\
    List.length (machine_code bi) = (List.length (machine_code b0) + 2)%nat /\
    (exists st, run_block sym org b0 (mkM a d m) = Fell st /\ rA st = w16 (m (sym r) + 0)) /\
    (exists st, run_block sym org bi (mkM a d m) = Fell st /\
                rA st = w16 (m (sym r) + Z.of_nat (S i))).
Proof.
  intros Hr (H0 & H1 & H2 & H3 & H4) Hw.
  apply get_ram_code_cases in Hr.
  destruct Hr as [[-> ->] | [[-> ->] | [[-> ->] | [-> ->]]]];
  rewrite ?H1, ?H2, ?H3, ?H4 in *;
  (eexists; eexists; split; [reflexivity|]; split; [reflexivity|]);
  (split; [reflexivity|]); (split; [reflexivity|]); (split; [reflexivity|]);
  split; unfold run_block; cbn [machine_code flat_map app List.length];
  repeat hstep_w; (eexists; split; [reflexivity|]); cbn [rA].
  all: first [ rewrite Z.add_0_r, (w16_id _ Hw); reflexivity | reflexivity ].
Qed.

(** C8 (amended) on [local] with LCL = 300 and index 5. *)
Lemma base_segment_paths_witness :
  exists b0 bi,
    translate_segment_vm_code "local" (Some 0%nat) (sample_writer false) =
      (sample_writer false, inr b0) /\
    translate_segment_vm_code "local" (Some 5%nat) (sample_writer false) =
      (sample_writer false, inr bi) /\
    b0 = [At (ASym "LCL"); C "A=M"] /\
    bi = [At (ASym "LCL"); C "D=M"; At (ANum 5); C "A=D+A"] /\
    List.length (machine_code bi) = (List.length (machine_code b0) + 2)%nat /\
    (exists st, run_block hack_symbols 100 b0 (mkM 0 0 (mem_of [(1, 300)])) = Fell st /\
                rA st = 300) /\
    (exists st, run_block hack_symbols 100 bi (mkM 0 0 (mem_of [(1, 300)])) = Fell st /\
                rA st = 305).
Proof.
  apply (base_segment_paths "local" "LCL" (sample_writer false) 4 hack_symbols 100 0 0
           (mem_of [(1, 300)])).
  - reflexivity.
  - repeat split.
  - cbn; unfold word; lia.
Defined.

(** C9: inside a function [f] (function context [Some f]) the label
    declared by [label L], and the targets of [goto L] and [if-goto L], are
    [f.L]; at top level (context [None]) they are the bare [L].  The
    [if-goto] block pops the top of the stack (SP goes down by one, nothing
    else in RAM changes) and jumps to the target exactly when the popped
    value is nonzero, falling through otherwise. *)
Theorem label_scoping_and_if_goto (s : cw) (L : string) :
  let target := match current_function s with
                | Some f => (f ++ "." ++ L)%string
                | None => L
                end in
  let logged t := if log_vm_commands s then [Cmt t] else [] in
  snd (write_label L s) = inr tt /\
  written (fst (write_label L s)) = written s ++ logged ("label " ++ L)%string ++ [Lbl target] /\
  snd (write_goto L s) = inr tt /\
  written (fst (write_goto L s)) =
    written s ++ logged ("goto " ++ L)%string ++ [At (ASym target); C "0;JMP"] /\
  snd (write_if L s) = inr tt /\
  written (fst (write_if L s)) =
    written s ++ logged ("if-goto " ++ L)%string ++
    [At (ASym "SP"); C "AM=M-1"; C "D=M"; At (ASym target); C "D;JNE"] /\
  forall sym org a d m sp,
    predefined sym -> m 0 = sp -> 2 <= sp < 32768 ->
    outside org [At (ASym "SP"); C "AM=M-1"; C "D=M"; At (ASym target); C "D;JNE"] (sym target) ->
    exists st', ram st' = upd m 0 (sp - 1) /\
      run_block sym org (logged ("if-goto " ++ L)%string ++
                         [At (ASym "SP"); C "AM=M-1"; C "D=M"; At (ASym target); C "D;JNE"])
                (mkM a d m) =
      (if m (sp - 1) =? 0 then Fell st' else Jumped (sym target) st').
Proof.
  cbv zeta.
  destruct s as [ip of cf cfn k rc lg so w]; cbn [current_function log_vm_commands written].
  unfold write_label, write_goto, write_if, log_line, write, modify, gets, bind, ret.
  destruct lg.
  all: do 6 (split; [cbn; rewrite <- ?app_assoc; reflexivity|]).
  all: intros sym org a d m sp (H0 & H1 & H2 & H3 & H4) Hsp Hb Hout.
  all: cbn [app]; rewrite ?run_block_cmt.
  all: unfold run_block; cbn [machine_code flat_map app List.length].
  all: repeat hstep_w.
  all: subst sp; destruct (m (m 0 - 1) =? 0); cbn in E; try discriminate E.
  all: eexists; split; [|reflexivity]; reflexivity.
Qed.

(** C9 inside [Main.main] with a nonzero value (1) on top of the stack: the
    label is [Main.main.LOOP] and the jump goes to its address (5000). *)
Lemma label_scoping_and_if_goto_witness :
  written (fst (write_label "LOOP" sample_in_function)) =
    [Cmt "label LOOP"; Lbl "Main.main.LOOP"] /\
  written (fst (write_goto "LOOP" sample_in_function)) =
    [Cmt "goto LOOP"; At (ASym "Main.main.LOOP"); C "0;JMP"] /\
  exists st',
    ram st' = upd (mem_of [(0, 257); (256, 1)]) 0 256 /\
    run_block hack_symbols 100
      [Cmt "if-goto LOOP"; At (ASym "SP"); C "AM=M-1"; C "D=M";
       At (ASym "Main.main.LOOP"); C "D;JNE"]
      (mkM 0 0 (mem_of [(0, 257); (256, 1)])) = Jumped 5000 st'.
Proof.
  destruct (label_scoping_and_if_goto sample_in_function "LOOP")
    as (_ & E1 & _ & E2 & _ & _ & R).
  split; [exact E1|]. split; [exact E2|].
  apply (R hack_symbols 100 0 0 (mem_of [(0, 257); (256, 1)]) 257).
  - repeat split.
  - reflexivity.
  - lia.
  - unfold outside; vm_compute; intros [_ Hb]; discriminate Hb.
Defined.

Lemma fst_bind {A B} (m : M A) (k : A -> M B) s :
  fst (bind m k s) = match m s with (s', inl _) => s' | (s', inr a) => fst (k a s') end.
Proof. unfold bind; destruct (m s) as [s' [e|a]]; reflexivity. Qed.

Section Preserves.
Variable R : cw -> cw -> Prop.
Hypothesis R_refl : forall s, R s s.
Hypothesis R_trans : forall s1 s2 s3, R s1 s2 -> R s2 s3 -> R s1 s3.

Lemma pres_ret {A} (a : A) : preserves R (ret a).
Proof. intros s; apply R_refl. Qed.
Lemma pres_raise {A} e : preserves R (@raise A e).
Proof. intros s; apply R_refl. Qed.
Lemma pres_gets {A} (f : cw -> A) : preserves R (gets f).
Proof. intros s; apply R_refl. Qed.
Lemma pres_modify f : (forall s, R s (f s)) -> preserves R (modify f).
Proof. intros Hf s; apply Hf. Qed.
Lemma pres_bind {A B} (m : M A) (k : A -> M B) :
  preserves R m -> (forall a, preserves R (k a)) -> preserves R (bind m k).
Proof.
  intros Hm Hk s; unfold bind.
  specialize (Hm s); destruct (m s) as [s' [e|a]]; cbn in *; [exact Hm|].
  exact (R_trans _ _ _ Hm (Hk a s')).
Qed.
End Preserves.

(** Decompose an action into its primitive steps; what is left are the
    obligations [R s (f s)] of the [modify] steps. *)
Ltac pres_tac refl trans :=
  repeat first
    [ progress unfold log_line, lift, write, close, set_filename, dispatch,
        write_return, write_arithmetic, translate_arithmetic_vm_code_to_assembly,
        write_push_pop, translate_push_vm_code_to_asm, translate_pop_vm_code_to_asm,
        translate_segment_vm_code, write_label, write_goto, write_if,
        write_function, write_call, write_init
    | match goal with
      | |- preserves _ (bind _ _) => apply (pres_bind _ trans); [|intro]
      | |- preserves _ (ret _) => apply (pres_ret _ refl)
      | |- preserves _ (raise _) => apply (pres_raise _ refl)
      | |- preserves _ (gets _) => apply (pres_gets _ refl)
      | |- preserves _ (modify _) => apply pres_modify; intro
      | |- preserves _ (match ?x with _ => _ end) => destruct x
      | |- preserves _ (if ?b then _ else _) => destruct b
      | |- preserves _ (let _ := _ in _) => cbv zeta
      end ].

Lemma same_function_refl s : same_function s s.
Proof. reflexivity. Qed.
Lemma same_function_trans s1 s2 s3 :
  same_function s1 s2 -> same_function s2 s3 -> same_function s1 s3.
Proof. unfold same_function; congruence. Qed.
Lemma same_sink_refl s : same_sink s s.
Proof. reflexivity. Qed.
Lemma same_sink_trans s1 s2 s3 : same_sink s1 s2 -> same_sink s2 s3 -> same_sink s1 s3.
Proof. unfold same_sink; congruence. Qed.
Lemma extends_refl s : extends s s.
Proof. exists []; symmetry; apply app_nil_r. Qed.
Lemma extends_trans s1 s2 s3 : extends s1 s2 -> extends s2 s3 -> extends s1 s3.
Proof.
  intros [l1 H1] [l2 H2]; exists (l1 ++ l2); rewrite H2, H1, app_assoc; reflexivity.
Qed.

Lemma dispatch_keeps_function c :
  command_type c <> C_FUNCTION -> keeps_fn (dispatch c).
Proof.
  intros Hc; destruct c as [t a1 a2]; cbn [command_type arg1 arg2] in *.
  destruct t; try congruence; unfold dispatch; cbn [command_type arg1 arg2];
  unfold keeps_fn; pres_tac same_function_refl same_function_trans; reflexivity.
Qed.

Lemma fst_run_events_cons e es (s : cw) :
  fst (run_events (e :: es) s) =
  match run_event e s with
  | (s', inl _) => s'
  | (s', inr _) => fst (run_events es s')
  end.
Proof. cbn [run_events]; unfold bind; destruct (run_event e s) as [s' [x|x]]; reflexivity. Qed.

Lemma run_events_keep_none es (s : cw) :
  current_function s = None ->
  forallb (fun e => negb (is_function_event e)) es = true ->
  current_function (fst (run_events es s)) = None.
Proof.
  revert s; induction es as [|e es IH]; intros s Hs Hes; [exact Hs|].
  cbn [forallb] in Hes; apply andb_true_iff in Hes as [He Hes].
  rewrite fst_run_events_cons.
  assert (Hk : current_function (fst (run_event e s)) = None).
  { destruct e as [p|c]; cbn [run_event].
    - reflexivity.
    - rewrite dispatch_keeps_function; [exact Hs|].
      cbn in He; destruct (command_type c); cbn in He; congruence. }
  destruct (run_event e s) as [s' [x|x]]; cbn [fst] in Hk; [exact Hk|].
  apply IH; assumption.
Qed.

(** C10: [set_filename] always clears the function context; after it,
    instructions other than [function] keep it clear (whether they
    succeed or raise), so the next [label L], [goto L] or [if-goto L]
    emits the bare name [L], however the previous unit ended. *)
Theorem set_filename_unscopes_labels (s : cw) (p : string) (es : list event) (c : command) :
  forallb (fun e => negb (is_function_event e)) es = true ->
  let s1 := fst (run_events (SetFile p :: es) s) in
  let logged t := if log_vm_commands s1 then [Cmt t] else [] in
  current_function (fst (set_filename p s)) = None /\
  current_function s1 = None /\
  (command_type c = C_LABEL ->
     written (fst (dispatch c s1)) =
       written s1 ++ logged ("label " ++ arg1 c)%string ++ [Lbl (arg1 c)]) /\
  (command_type c = C_GOTO ->
     written (fst (dispatch c s1)) =
       written s1 ++ logged ("goto " ++ arg1 c)%string ++ [At (ASym (arg1 c)); C "0;JMP"]) /\
  (command_type c = C_IF ->
     written (fst (dispatch c s1)) =
       written s1 ++ logged ("if-goto " ++ arg1 c)%string ++
       [At (ASym "SP"); C "AM=M-1"; C "D=M"; At (ASym (arg1 c)); C "D;JNE"]).
Proof.
  intros Hes; cbv zeta.
  assert (Hn : current_function (fst (run_events (SetFile p :: es) s)) = None).
  { rewrite fst_run_events_cons; cbn [run_event].
    apply run_events_keep_none; [reflexivity | exact Hes]. }
  split; [reflexivity|]. split; [exact Hn|].
  destruct (fst (run_events (SetFile p :: es) s)) as [ip of cf cfn k rc lg so w].
  cbn [current_function] in Hn; subst cfn.
  destruct c as [t a1 a2]; cbn [command_type arg1].
  unfold dispatch, write_label, write_goto, write_if, log_line, write, modify, gets, bind, ret;
    cbn [command_type arg1].
  split; [|split]; intros ->; destruct lg; cbn; rewrite <- ?app_assoc; reflexivity.
Qed.

(** C10 after a unit that ended inside [Main.main]: a new unit starts,
    [push constant 1] is translated, and [label LOOP] is emitted bare. *)
Lemma set_filename_unscopes_labels_witness :
  current_function (fst (set_filename "Prog/Sys.vm" sample_in_function)) = None /\
  current_function (fst (run_events [SetFile "Prog/Sys.vm";
                                      Instr (mkCommand C_PUSH "constant" (Some 1%nat))]
                                     sample_in_function)) = None /\
  written (fst (dispatch (mkCommand C_LABEL "LOOP" None)
                  (fst (run_events [SetFile "Prog/Sys.vm";
                                    Instr (mkCommand C_PUSH "constant" (Some 1%nat))]
                                   sample_in_function)))) =
    [Cmt "push constant 1"; At (ANum 1); C "D=A"; At (ASym "SP"); C "AM=M+1";
     C "A=A-1"; C "M=D"; Cmt "label LOOP"; Lbl "LOOP"].
Proof.
  destruct (set_filename_unscopes_labels sample_in_function "Prog/Sys.vm"
              [Instr (mkCommand C_PUSH "constant" (Some 1%nat))]
              (mkCommand C_LABEL "LOOP" None) eq_refl)
    as (E1 & E2 & E3 & _ & _).
  split; [exact E1|]. split; [exact E2|].
  rewrite (E3 eq_refl). reflexivity.
Defined.

Section Job.
Variable R : cw -> cw -> Prop.
Hypothesis R_refl : forall s, R s s.
Hypothesis R_trans : forall s1 s2 s3, R s1 s2 -> R s2 s3 -> R s1 s3.
Hypothesis R_dispatch : forall c, preserves R (dispatch c).
Hypothesis R_set_filename : forall p, preserves R (set_filename p).

Lemma translate_lines_preserves ls : preserves R (translate_lines ls).
Proof.
  induction ls as [|l ls IH]; cbn [translate_lines].
  - apply (pres_ret _ R_refl).
  - apply (pres_bind _ R_trans); [|intros c].
    + unfold lift; destruct (parse_command l);
        [apply (pres_raise _ R_refl) | apply (pres_ret _ R_refl)].
    + apply (pres_bind _ R_trans); [apply R_dispatch | intros _; exact IH].
Qed.

Lemma translate_all_preserves files : preserves R (translate_all files).
Proof.
  induction files as [|[fp file] files IH]; cbn [translate_all].
  - apply (pres_ret _ R_refl).
  - apply (pres_bind _ R_trans); [|intros _; exact IH].
    unfold translate_file; apply (pres_bind _ R_trans);
      [apply R_set_filename | intros _; apply translate_lines_preserves].
Qed.
End Job.

Lemma dispatch_keeps_sink c : preserves same_sink (dispatch c).
Proof.
  destruct c as [t a1 a2]; unfold dispatch; cbn [command_type arg1 arg2];
  destruct t; pres_tac same_sink_refl same_sink_trans; reflexivity.
Qed.

Lemma set_filename_keeps_sink p : preserves same_sink (set_filename p).
Proof. pres_tac same_sink_refl same_sink_trans; reflexivity. Qed.

Lemma write_init_keeps_sink isdir : preserves same_sink (write_init isdir).
Proof. pres_tac same_sink_refl same_sink_trans; reflexivity. Qed.

(** A constructed writer is [write_init] run on the freshly opened file. *)
Lemma new_code_writer_init isdir p lg s :
  new_code_writer isdir p lg = inr s ->
  exists out, write_init isdir (mkCW p out None None 0 0 lg true []) = (s, inr tt).
Proof.
  intros H; unfold new_code_writer in H.
  destruct (ends_with ".vm" p);
    [|destruct (isdir p); [destruct (String.eqb (basename p) "")|]];
    cbv beta iota zeta in H; try discriminate H;
  match type of H with
  | context [negb (ends_with ".asm" ?o)] =>
      exists o; destruct (negb (ends_with ".asm" o)); [discriminate H|];
      destruct (write_init isdir _) as [s1 [e|[]]]; [discriminate H|];
      injection H as <-; reflexivity
  end.
Qed.

Lemma new_code_writer_sink isdir p lg s :
  new_code_writer isdir p lg = inr s -> sink_open s = true.
Proof.
  intros H; destruct (new_code_writer_init isdir p lg s H) as [out E].
  pose proof (write_init_keeps_sink isdir (mkCW p out None None 0 0 lg true [])) as K.
  rewrite E in K; exact K.
Qed.

(** C7 does not hold as stated: [pop constant 0] raises [InvalidSegment]
    inside the loop of [Main.translate_files], and the exception leaves
    the function before [code_writer.close()] with the file still open. *)
Lemma translate_files_releases_sink_counterexample :
  exists s, translate_files (fun _ => false)
              [("Prog/Main.vm", ["push constant 1"; "pop constant 0"])] "Prog/Main.vm"
            = JobErr (InvalidSegment "constant") (Some s) /\ sink_open s = true.
Proof. eexists; split; [cbv; reflexivity | reflexivity]. Qed.

(** C7 (amended): the sink is closed exactly when the job succeeds.  An
    error raised while translating the input units reaches the caller
    with the sink still open; an error of the constructor happens before
    the file is opened. *)
Theorem translate_files_releases_sink isdir files p :
  match translate_files isdir files p with
  | JobOk s => sink_open s = false
  | JobErr e None => new_code_writer isdir p true = inl e
  | JobErr e (Some s) =>
      sink_open s = true /\
      exists s0, new_code_writer isdir p true = inr s0 /\
                 translate_all files s0 = (s, inl e)
  end.
Proof.
  unfold translate_files.
  destruct (new_code_writer isdir p true) as [e|s0] eqn:E; [reflexivity|].
  pose proof (translate_all_preserves same_sink same_sink_refl same_sink_trans
                dispatch_keeps_sink set_filename_keeps_sink files s0) as K.
  destruct (translate_all files s0) as [s1 [e|u]] eqn:T; cbn [fst] in K.
  - split; [|exists s0; split; [reflexivity | exact T]].
    unfold same_sink in K; rewrite K; exact (new_code_writer_sink _ _ _ _ E).
  - reflexivity.
Qed.

Lemma ends_with_app_r suf x y :
  ends_with suf y = true -> ends_with suf (x ++ y) = true.
Proof.
  intros H; induction x as [|c x IH]; [exact H|].
  cbn [String.append ends_with]; rewrite IH; apply orb_true_r.
Qed.

Lemma path_join_ends_with suf a b :
  ends_with suf b = true -> ends_with suf (path_join a b) = true.
Proof.
  intros H; unfold path_join.
  destruct (String.eqb a ""); [exact H|].
  destruct (ends_with "/" a); apply ends_with_app_r; [exact H|].
  apply (ends_with_app_r suf "/" b H).
Qed.

Lemma ends_with_self_app suf x : ends_with suf (x ++ suf) = true.
Proof.
  apply ends_with_app_r; destruct suf; cbn; [reflexivity|].
  rewrite Ascii.eqb_refl, String.eqb_refl; reflexivity.
Qed.

Lemma write_call_init_block t lg :
  return_counter t = 0%nat -> log_vm_commands t = lg ->
  snd (write_call "Sys.init" (Some 0%nat) t) = inr tt /\
  written (fst (write_call "Sys.init" (Some 0%nat) t)) =
    written t ++ written (fst (write_call "Sys.init" (Some 0%nat)
                                 (mkCW "" "" None None 0 0 lg true []))).
Proof.
  destruct t as [ip of cf cfn k rc lg' so w]; cbn [return_counter log_vm_commands].
  intros -> ->; destruct lg; split; try reflexivity; cbn; rewrite <- ?app_assoc; reflexivity.
Qed.

Section StringFacts.
Local Open Scope string_scope.

Lemma str_length_app x y : String.length (x ++ y) = (String.length x + String.length y)%nat.
Proof. induction x as [|c x IH]; cbn; [|rewrite IH]; reflexivity. Qed.

Lemma substring_0_all s m : (String.length s <= m)%nat -> substring 0 m s = s.
Proof.
  revert m; induction s as [|c s IH]; intros m Hm; destruct m; cbn in *;
    try reflexivity; try lia.
  rewrite IH by lia; reflexivity.
Qed.

Lemma replace_vm_suffix n : forall d f1 f2,
  (String.length d < n)%nat -> (String.length d + 3 < f1)%nat -> (String.length d < f2)%nat ->
  replace_fuel f1 ".vm" ".asm" (d ++ ".vm") = replace_fuel f2 ".vm" ".asm" d ++ ".asm".
Proof.
  induction n as [|n IH]; intros d f1 f2 Hn H1 H2; [lia|].
  destruct f1 as [|f1]; [lia|]; destruct f2 as [|f2]; [lia|].
  destruct d as [|c [|c1 [|c2 r]]].
  - cbn. destruct f1; reflexivity.
  - cbn [String.length] in *.
    destruct f1 as [|f1]; [lia|]; destruct f2 as [|f2]; [lia|].
    cbn [String.append replace_fuel].
    replace (starts_with ".vm" (String c ".vm")) with false
      by (cbn; rewrite ?andb_false_r; reflexivity).
    replace (starts_with ".vm" (String c "")) with false
      by (cbn; rewrite ?andb_false_r; reflexivity).
    destruct f1 as [|f1]; [lia|].
    cbn; destruct f1; reflexivity.
  - cbn [String.append replace_fuel].
    replace (starts_with ".vm" (String c (String c1 ".vm"))) with false
      by (cbn; rewrite ?andb_false_r; reflexivity).
    replace (starts_with ".vm" (String c (String c1 ""))) with false
      by (cbn; rewrite ?andb_false_r; reflexivity).
    cbn [String.length] in *.
    change (String c1 ".vm") with (String c1 "" ++ ".vm").
    rewrite (IH (String c1 "") f1 f2) by (cbn; lia); reflexivity.
  - cbn [String.append replace_fuel].
    assert (E : starts_with ".vm" (String c (String c1 (String c2 (r ++ ".vm")))) =
                starts_with ".vm" (String c (String c1 (String c2 r)))) by reflexivity.
    rewrite E; destruct (starts_with ".vm" (String c (String c1 (String c2 r)))) eqn:Es.
    + cbn [starts_with] in Es; apply andb_prop in Es as [Ec Es]; apply andb_prop in Es as [Ec1 Ec2].
      apply andb_prop in Ec2 as [Ec2 _].
      apply Ascii.eqb_eq in Ec, Ec1, Ec2; subst c c1 c2.
      cbn [String.length substring] in *.
      rewrite !substring_0_all by (rewrite ?str_length_app; cbn; lia).
      cbn [String.length] in *.
      rewrite (IH r f1 f2) by lia.
      reflexivity.
    + cbn [String.length] in *.
      change (String c1 (String c2 (r ++ ".vm"))) with (String c1 (String c2 r) ++ ".vm").
      rewrite (IH (String c1 (String c2 r)) f1 f2) by (cbn; lia); reflexivity.
Qed.

Lemma replace_vm_app d :
  replace ".vm" ".asm" (d ++ ".vm") = replace ".vm" ".asm" d ++ ".asm".
Proof.
  unfold replace; apply (replace_vm_suffix (S (String.length d)));
    rewrite ?str_length_app; cbn; lia.
Qed.

Lemma ends_with_split suf p : ends_with suf p = true -> exists x, p = x ++ suf.
Proof.
  induction p as [|c p IH].
  - destruct suf; [intros _; exists ""; reflexivity|cbn; discriminate].
  - cbn [ends_with]; destruct (String.eqb_spec (String c p) suf) as [E|_].
    + intros _; exists ""; exact E.
    + cbn [orb]; intros H; destruct (IH H) as [x ->]; exists (String c x); reflexivity.
Qed.

End StringFacts.

Lemma bootstrap_writer_output (isdir : string -> bool) (p : string) (lg : bool) :
  (isdir p = true -> ends_with ".vm" p = false -> basename p <> ""%string ->
     exists s call_block,
       new_code_writer isdir p lg = inr s /\
       written s = (if lg then [Cmt "Boostrap code"] else []) ++ bootstrap_code ++ call_block /\
       return_counter s = 1%nat /\
       (forall t, return_counter t = 0%nat -> log_vm_commands t = lg ->
          snd (write_call "Sys.init" (Some 0%nat) t) = inr tt /\
          written (fst (write_call "Sys.init" (Some 0%nat) t)) = written t ++ call_block)).
Proof.
  intros Hd Hvm Hb.
  unfold new_code_writer. rewrite Hvm, Hd. apply String.eqb_neq in Hb; rewrite Hb.
  cbv beta iota zeta. rewrite path_join_ends_with by apply ends_with_self_app. cbn [negb].
  match goal with |- context [write_init isdir ?s0] =>
    remember (write_init isdir s0) as r eqn:Er end.
  unfold write_init, gets, bind at 1 in Er; cbv beta iota in Er; cbn [in_filepath] in Er.
  rewrite Hd in Er.
  exists (fst r), (written (fst (write_call "Sys.init" (Some 0%nat)
                                  (mkCW "" "" None None 0 0 lg true [])))).
  split; [|split; [|split]].
  - subst r; destruct lg; reflexivity.
  - subst r; destruct lg; reflexivity.
  - subst r; destruct lg; reflexivity.
  - intros t Ht Hl; apply (write_call_init_block t lg Ht Hl).
Qed.

Lemma bootstrap_vm_dir_output (isdir : string -> bool) (p : string) (lg : bool) :
  isdir p = true -> ends_with ".vm" p = true ->
  forall s, new_code_writer isdir p lg = inr s ->
    out_filename s = replace ".vm" ".asm" p /\
    exists call_block,
      written s = (if lg then [Cmt "Boostrap code"] else []) ++ bootstrap_code ++ call_block /\
      return_counter s = 1%nat /\
      (forall t, return_counter t = 0%nat -> log_vm_commands t = lg ->
         snd (write_call "Sys.init" (Some 0%nat) t) = inr tt /\
         written (fst (write_call "Sys.init" (Some 0%nat) t)) = written t ++ call_block).
Proof.
  intros Hd Hvm s Hs.
  destruct (ends_with_split ".vm" p Hvm) as [x Ex].
  unfold new_code_writer in Hs; rewrite Hvm in Hs; cbv beta iota zeta in Hs.
  rewrite Ex, replace_vm_app, ends_with_self_app in Hs; cbn [negb] in Hs.
  rewrite <- replace_vm_app, <- Ex in Hs.
  match type of Hs with context [write_init isdir ?s0] =>
    remember (write_init isdir s0) as r eqn:Er end.
  unfold write_init, gets, bind at 1 in Er; cbv beta iota in Er; cbn [in_filepath] in Er.
  rewrite Hd in Er.
  subst r; destruct lg; cbn -[bootstrap_code write_call] in Hs; injection Hs as <-.
  all: split; [reflexivity|].
  1: exists (written (fst (write_call "Sys.init" (Some 0%nat)
                              (mkCW "" "" None None 0 0 true true [])))).
  2: exists (written (fst (write_call "Sys.init" (Some 0%nat)
                              (mkCW "" "" None None 0 0 false true [])))).
  all: split; [reflexivity|split; [reflexivity|]].
  - intros t Ht Hl; apply (write_call_init_block t true Ht Hl).
  - intros t Ht Hl; apply (write_call_init_block t false Ht Hl).
Qed.

Lemma bootstrap_code_runs sym org a d m :
  predefined sym ->
  run_block sym org bootstrap_code (mkM a d m) = Fell (mkM 0 256 (upd m 0 256)).
Proof.
  intros (H0 & H1 & H2 & H3 & H4).
  unfold run_block, bootstrap_code; cbn [machine_code flat_map app List.length].
  repeat hstep_w.
  reflexivity.
Qed.

Ltac extends_step := first [exists []; symmetry; apply app_nil_r | eexists; reflexivity].

Lemma dispatch_extends c : preserves extends (dispatch c).
Proof.
  destruct c as [t a1 a2]; unfold dispatch; cbn [command_type arg1 arg2];
  destruct t; pres_tac extends_refl extends_trans; extends_step.
Qed.

Lemma set_filename_extends p : preserves extends (set_filename p).
Proof. pres_tac extends_refl extends_trans; extends_step. Qed.

Lemma translate_files_extends isdir files p s :
  (translate_files isdir files p = JobOk s \/
   exists e, translate_files isdir files p = JobErr e (Some s)) ->
  exists s0 rest, new_code_writer isdir p true = inr s0 /\ written s = written s0 ++ rest.
Proof.
  unfold translate_files.
  destruct (new_code_writer isdir p true) as [e|s0] eqn:E;
    [intros [H|[e' H]]; discriminate H|].
  pose proof (translate_all_preserves extends extends_refl extends_trans
                dispatch_extends set_filename_extends files s0) as [l K].
  destruct (translate_all files s0) as [s1 [e|u]]; cbn [fst] in K;
    intros [Hj|[e' Hj]]; cbn in Hj; try discriminate Hj;
    injection Hj; intros; subst; exists s0, l; split; [reflexivity | exact K | reflexivity | exact K].
Qed.

(** C4 (amended): for a path that is not a directory the constructor
    writes nothing.  For a directory whose name does not end in [.vm]:
    with an empty basename (a trailing slash) the constructor raises
    before anything is written; otherwise its whole output is the log
    comment, [SP=256] and exactly the block that [write_call "Sys.init" 0]
    appends from return counter 0, which sets RAM[0] to 256 and nothing
    else.  A directory whose name ends in [.vm] gets the same bootstrap:
    its output file is the path with [.vm] rewritten to [.asm], and the
    constructor's output, when it returns, is that same bootstrap.  Every
    job output, finished or aborted, starts with the constructor's output,
    before any instruction is consumed. *)
Theorem write_init_bootstrap (isdir : string -> bool) (p : string) (lg : bool) :
  (isdir p = false -> forall s, new_code_writer isdir p lg = inr s -> written s = []) /\
  (isdir p = true -> ends_with ".vm" p = false -> basename p = ""%string ->
     new_code_writer isdir p lg = inl EmptyBaseDir) /\
  (isdir p = true -> ends_with ".vm" p = false -> basename p <> ""%string ->
     exists s call_block,
       new_code_writer isdir p lg = inr s /\
       written s = (if lg then [Cmt "Boostrap code"] else []) ++ bootstrap_code ++ call_block /\
       return_counter s = 1%nat /\
       (forall t, return_counter t = 0%nat -> log_vm_commands t = lg ->
          snd (write_call "Sys.init" (Some 0%nat) t) = inr tt /\
          written (fst (write_call "Sys.init" (Some 0%nat) t)) = written t ++ call_block)) /\
  (isdir p = true -> ends_with ".vm" p = true ->
     forall s, new_code_writer isdir p lg = inr s ->
     out_filename s = replace ".vm" ".asm" p /\
     exists call_block,
       written s = (if lg then [Cmt "Boostrap code"] else []) ++ bootstrap_code ++ call_block /\
       return_counter s = 1%nat /\
       (forall t, return_counter t = 0%nat -> log_vm_commands t = lg ->
          snd (write_call "Sys.init" (Some 0%nat) t) = inr tt /\
          written (fst (write_call "Sys.init" (Some 0%nat) t)) = written t ++ call_block)) /\
  (forall sym org a d m, predefined sym ->
     run_block sym org bootstrap_code (mkM a d m) = Fell (mkM 0 256 (upd m 0 256))) /\
  (forall files s,
     (translate_files isdir files p = JobOk s \/
      exists e, translate_files isdir files p = JobErr e (Some s)) ->
     exists s0 rest, new_code_writer isdir p true = inr s0 /\ written s = written s0 ++ rest).
Proof.
  split; [|split; [|split; [|split; [|split]]]].
  - intros Hd s H; destruct (new_code_writer_init isdir p lg s H) as [out E].
    unfold write_init, gets, bind at 1 in E; cbv beta iota in E; cbn [in_filepath] in E.
    rewrite Hd in E; cbn in E; injection E as <-; reflexivity.
  - intros Hd Hvm Hb; unfold new_code_writer; rewrite Hvm, Hd, Hb; reflexivity.
  - apply bootstrap_writer_output.
  - apply bootstrap_vm_dir_output.
  - apply bootstrap_code_runs.
  - intros files s; apply translate_files_extends.
Qed.

(** C4 does not hold as stated: for the directory [Prog/] the basename is
    empty and the constructor raises, so no bootstrap is emitted. *)
Lemma bootstrap_for_directories_counterexample :
  translate sample_dir_fs "Prog/" = JobErr EmptyBaseDir None.
Proof. vm_compute; reflexivity. Qed.

(** C4 on a file job, on [Prog/], on the directory [Prog], and on the
    directory [Prog.vm] (written to [Prog.asm]). *)
Lemma write_init_bootstrap_witness :
  (forall s, new_code_writer (fun _ => false) "Prog/Main.vm" true = inr s -> written s = []) /\
  new_code_writer (fun q => String.eqb q "Prog/") "Prog/" true = inl EmptyBaseDir /\
  (exists s, new_code_writer (fun q => String.eqb q "Prog") "Prog" true = inr s /\
    written s = [Cmt "Boostrap code"] ++ bootstrap_code ++
                written (fst (write_call "Sys.init" (Some 0%nat) (sample_writer true)))) /\
  exists s, new_code_writer (fun q => String.eqb q "Prog.vm") "Prog.vm" true = inr s /\
    out_filename s = "Prog.asm" /\
    written s = [Cmt "Boostrap code"] ++ bootstrap_code ++
                written (fst (write_call "Sys.init" (Some 0%nat) (sample_writer true))).
Proof.
  destruct (write_init_bootstrap (fun _ => false) "Prog/Main.vm" true) as (A & _).
  destruct (write_init_bootstrap (fun q => String.eqb q "Prog/") "Prog/" true) as (_ & B & _).
  destruct (write_init_bootstrap (fun q => String.eqb q "Prog") "Prog" true)
    as (_ & _ & C & _).
  destruct (write_init_bootstrap (fun q => String.eqb q "Prog.vm") "Prog.vm" true)
    as (_ & _ & _ & D & _).
  split; [exact (A eq_refl)|]. split; [exact (B eq_refl eq_refl eq_refl)|]. split.
  - destruct (C eq_refl eq_refl ltac:(discriminate)) as (s & cb & E & W & _ & K).
    exists s; split; [exact E|].
    rewrite W; destruct (K (sample_writer true) eq_refl eq_refl) as [_ K2].
    rewrite K2; reflexivity.
  - eexists; split; [reflexivity|].
    destruct (D eq_refl eq_refl _ eq_refl) as [O (cb & W & _ & K)].
    split; [exact O|].
    rewrite W; destruct (K (sample_writer true) eq_refl eq_refl) as [_ K2].
    rewrite K2; reflexivity.
Defined.

Ltac eff_pick :=
  first
    [ left; (split; [reflexivity|]); split; reflexivity
    | right; left; (split; [reflexivity|]); split; reflexivity
    | right; right; left; (split; [first [left; reflexivity | right; reflexivity]|]);
      split; reflexivity
    | right; right; right; left; (split; [reflexivity|]); split; [reflexivity|split; reflexivity]
    | right; right; right; right; (split; [reflexivity|]);
      split; [reflexivity|split; reflexivity] ].

Lemma declared_labels_app l1 l2 :
  declared_labels (l1 ++ l2) = declared_labels l1 ++ declared_labels l2.
Proof. apply flat_map_app. Qed.

Lemma declared_labels_init_locals l :
  declared_labels (List.concat (map init_local l)) = [].
Proof.
  induction l as [|i l IH]; [reflexivity|].
  cbn [map List.concat]; rewrite declared_labels_app, IH; reflexivity.
Qed.

Lemma declared_labels_function_block f l :
  declared_labels (Lbl f :: List.concat (map init_local l)) = [f].
Proof.
  change (Lbl f :: List.concat (map init_local l)) with ([Lbl f] ++ List.concat (map init_local l)).
  rewrite declared_labels_app, declared_labels_init_locals; reflexivity.
Qed.

Lemma dispatch_labels c s :
  exists l, written (fst (dispatch c s)) = written s ++ l /\
            label_effect c s (fst (dispatch c s)) (declared_labels l).
Proof.
  destruct s as [ip of cf cfn k rc lg so w]; destruct c as [t a1 a2].
  destruct t; unfold dispatch; cbn [command_type arg1 arg2];
  unfold write_arithmetic, translate_arithmetic_vm_code_to_assembly, write_push_pop,
    translate_push_vm_code_to_asm, translate_pop_vm_code_to_asm, translate_segment_vm_code,
    write_label, write_goto, write_if, write_function, write_call, write_return,
    log_line, write, lift, gets, modify, bind, ret, raise, push_d, at_index;
  destruct lg; cbn -[dec String.append].
  all: repeat (match goal with
         | |- context [if ?b then _ else _] =>
             lazymatch b with true => fail | false => fail | _ => destruct b end
         | |- context [match ?o with Some _ => _ | None => _ end] => is_var o; destruct o
         | |- context [match ?o with inl _ => _ | inr _ => _ end] =>
             lazymatch o with inl _ => fail | inr _ => fail | _ => destruct o end
         | |- context [match ?n with O => _ | S _ => _ end] => is_var n; destruct n
         end; cbn -[dec String.append]).
  all: try (eexists; split; [rewrite <- ?app_assoc; first [reflexivity | symmetry; apply app_nil_r]|];
            unfold label_effect; cbn -[dec String.append]; eff_pick).
  all: eexists; split; [rewrite <- ?app_assoc; reflexivity|];
    unfold label_effect; rewrite ?declared_labels_app, declared_labels_function_block; cbn -[dec String.append];
    eff_pick.
Qed.

Lemma uint_to_string_inj u v : uint_to_string u = uint_to_string v -> u = v.
Proof.
  revert v; induction u; intros [] H; cbn in H; try discriminate H;
    try reflexivity; injection H as H; f_equal; apply IHu; exact H.
Qed.

Lemma dec_inj a b : dec a = dec b -> a = b.
Proof.
  unfold dec; intros H; apply DecimalNat.Unsigned.to_uint_inj, uint_to_string_inj, H.
Qed.

Lemma true_label_inj a b : true_label a = true_label b -> a = b.
Proof. unfold true_label; cbn; intros H; injection H as H; apply dec_inj, H. Qed.
Lemma end_label_inj a b : end_label a = end_label b -> a = b.
Proof. unfold end_label; cbn; intros H; injection H as H; apply dec_inj, H. Qed.
Lemma return_label_inj a b : return_label a = return_label b -> a = b.
Proof. unfold return_label; cbn; intros H; injection H as H; apply dec_inj, H. Qed.

Lemma true_end_label a b : true_label a <> end_label b.
Proof. discriminate. Qed.
Lemma end_true_label a b : end_label a <> true_label b.
Proof. discriminate. Qed.
Lemma true_return_label a b : true_label a <> return_label b.
Proof. discriminate. Qed.
Lemma return_true_label a b : return_label a <> true_label b.
Proof. discriminate. Qed.
Lemma end_return_label a b : end_label a <> return_label b.
Proof. discriminate. Qed.
Lemma return_end_label a b : return_label a <> end_label b.
Proof. discriminate. Qed.

Ltac label_dec :=
  repeat match goal with
  | |- context [string_dec ?x ?y] =>
      let He := fresh "He" in
      destruct (string_dec x y) as [He|He];
      [ first [ apply true_label_inj in He; subst
              | apply end_label_inj in He; subst
              | apply return_label_inj in He; subst
              | exfalso; revert He;
                first [ apply true_end_label | apply end_true_label
                      | apply true_return_label | apply return_true_label
                      | apply end_return_label | apply return_end_label ]
              | exfalso; match goal with
                         | Hn : not_generated ?u, He : ?u = _ |- _ =>
                             first [ exact (proj1 (Hn _) He)
                                   | exact (proj1 (proj2 (Hn _)) He)
                                   | exact (proj2 (proj2 (Hn _)) He) ]
                         end
              | idtac ]
      | ]
  end.

Lemma labels_fresh_dispatch s c :
  labels_fresh s -> input_names_ok (Instr c) -> labels_fresh (fst (dispatch c s)).
Proof.
  intros Hf Hok; destruct (dispatch_labels c s) as (l & W & E).
  unfold labels_fresh, label_count in *; rewrite W, declared_labels_app.
  intros k; specialize (Hf k); rewrite !count_occ_app.
  cbn [input_names_ok] in Hok.
  unfold label_effect in E.
  destruct E as [(L & A & R)|[(L & A & R)|[([L|L] & A & R)|[(L & T & A & R)|(L & T & A & R)]]]];
    try (rewrite T in Hok; cbv beta iota in Hok);
    try specialize (Hok (current_function s));
    rewrite L, A, R; cbn [count_occ]; revert Hf;
    (repeat match goal with |- context [Nat.ltb ?a ?b] => destruct (Nat.ltb_spec a b) end);
    intros (Hc1 & Hc2 & Hc3); (split; [|split]); label_dec; lia.
Qed.

Lemma labels_fresh_append s l :
  labels_fresh s -> declared_labels l = [] -> labels_fresh (append_written l s).
Proof.
  intros Hf L k; specialize (Hf k); unfold label_count in *; cbn [written append_written].
  rewrite declared_labels_app, L, !count_occ_app; cbn [count_occ]; rewrite !Nat.add_0_r; exact Hf.
Qed.

Lemma labels_fresh_write_init isdir s :
  labels_fresh s -> labels_fresh (fst (write_init isdir s)).
Proof.
  intros Hf; unfold write_init, log_line, write, modify, gets, bind, ret.
  destruct (negb (isdir (in_filepath s))); [exact Hf|].
  change (write_call "Sys.init" (Some 0%nat))
    with (dispatch (mkCommand C_CALL "Sys.init" (Some 0%nat))).
  destruct (log_vm_commands s); apply labels_fresh_dispatch; try exact I;
    repeat (apply labels_fresh_append; [|reflexivity]); exact Hf.
Qed.

Lemma labels_fresh_new_code_writer isdir p lg s :
  new_code_writer isdir p lg = inr s -> labels_fresh s.
Proof.
  intros H; destruct (new_code_writer_init isdir p lg s H) as [out E].
  pose proof (labels_fresh_write_init isdir (mkCW p out None None 0 0 lg true [])) as F.
  rewrite E in F; apply F.
  intros k; unfold label_count; cbn; lia.
Qed.

Lemma labels_fresh_translate_lines ls s :
  (forall l c, In l ls -> parse_command l = inr c -> input_names_ok (Instr c)) ->
  labels_fresh s -> labels_fresh (fst (translate_lines ls s)).
Proof.
  revert s; induction ls as [|l ls IH]; intros s Hok Hf; [exact Hf|].
  cbn [translate_lines]; rewrite fst_bind; unfold lift.
  destruct (parse_command l) as [e|c] eqn:P; [exact Hf|].
  cbn [ret]; rewrite fst_bind.
  pose proof (labels_fresh_dispatch s c Hf (Hok l c (or_introl eq_refl) P)) as F.
  destruct (dispatch c s) as [s1 [e|u]]; cbn [fst] in F |- *; [exact F|].
  apply IH; [|exact F]; intros l' c' Hin; apply Hok; right; exact Hin.
Qed.

Lemma labels_fresh_translate_file file fp s :
  (forall l c, In l (clean_file file) -> parse_command l = inr c -> input_names_ok (Instr c)) ->
  labels_fresh s -> labels_fresh (fst (translate_file file fp s)).
Proof.
  intros Hok Hf; unfold translate_file; rewrite fst_bind.
  assert (F1 : labels_fresh (fst (set_filename fp s))) by exact Hf.
  destruct (set_filename fp s) as [s1 [e|u]]; cbn [fst] in F1 |- *; [exact F1|].
  exact (labels_fresh_translate_lines (clean_file file) s1 Hok F1).
Qed.

Lemma labels_fresh_translate_all files s :
  (forall fp file l c, In (fp, file) files -> In l (clean_file file) ->
     parse_command l = inr c -> input_names_ok (Instr c)) ->
  labels_fresh s -> labels_fresh (fst (translate_all files s)).
Proof.
  revert s; induction files as [|[fp file] files IH]; intros s Hok Hf; [exact Hf|].
  cbn [translate_all]; rewrite fst_bind.
  pose proof (labels_fresh_translate_file file fp s
                (fun l c => Hok fp file l c (or_introl eq_refl)) Hf) as F.
  destruct (translate_file file fp s) as [s1 [e|u]]; cbn [fst] in F |- *; [exact F|].
  apply IH; [|exact F]; intros fp' file' l c Hin; exact (Hok fp' file' l c (or_intror Hin)).
Qed.

(** C3 (amended): if no label or function name of the input has the form
    of a generated label, then in the output of a job (finished or
    aborted) every [TRUE_k], [END_k] and [RETURN_k] is declared at most
    once, and only for [k] below the counter it is drawn from; each
    instruction leaves each counter unchanged or raises it by one, so a
    counter value is never handed out twice, across all input units. *)
Theorem generated_labels_unique isdir files p :
  (forall fp file l c, In (fp, file) files -> In l (clean_file file) ->
     parse_command l = inr c -> input_names_ok (Instr c)) ->
  (forall c t,
     (arith_jump_counter t <= arith_jump_counter (fst (dispatch c t))
        <= S (arith_jump_counter t))%nat /\
     (return_counter t <= return_counter (fst (dispatch c t)) <= S (return_counter t))%nat) /\
  forall s,
    (translate_files isdir files p = JobOk s \/
     exists e, translate_files isdir files p = JobErr e (Some s)) ->
    forall k,
      (label_count s (true_label k) <= if k <? arith_jump_counter s then 1 else 0)%nat /\
      (label_count s (end_label k) <= if k <? arith_jump_counter s then 1 else 0)%nat /\
      (label_count s (return_label k) <= if k <? return_counter s then 1 else 0)%nat.
Proof.
  intros Hok; split.
  - intros c t; destruct (dispatch_labels c t) as (l & _ & E); unfold label_effect in E.
    destruct E as [(_ & A & R)|[(_ & A & R)|[(_ & A & R)|[(_ & _ & A & R)|(_ & _ & A & R)]]]];
      rewrite A, R; lia.
  - intros s Hs; cut (labels_fresh s); [exact (fun F => F)|].
    unfold translate_files in Hs.
    destruct (new_code_writer isdir p true) as [e|s0] eqn:E;
      [destruct Hs as [Hs|[e' Hs]]; discriminate Hs|].
    pose proof (labels_fresh_translate_all files s0 Hok
                  (labels_fresh_new_code_writer _ _ _ _ E)) as F.
    destruct (translate_all files s0) as [s1 [e|u]]; cbn [fst] in F;
      destruct Hs as [Hs|[e' Hs]]; cbn in Hs; try discriminate Hs;
      injection Hs; intros; subst; exact F.
Qed.

(** C3 does not hold as stated: a top-level [label TRUE_0] is emitted bare
    and collides with the label of the first comparison. *)
Lemma generated_labels_unique_counterexample :
  match translate_files (fun _ => false)
          [("Prog/Main.vm", ["label TRUE_0"; "push constant 1"; "push constant 1"; "eq"])]
          "Prog/Main.vm" with
  | JobOk s => label_count s (true_label 0) = 2%nat
  | JobErr _ _ => False
  end.
Proof. vm_compute; reflexivity. Qed.

(** C3 on [sample_job]: two comparisons and three calls (with the
    bootstrap call) over two units. *)
Lemma generated_labels_unique_witness :
  exists s, translate_files (fun q => String.eqb q "Prog") sample_job "Prog" = JobOk s /\
    (label_count s (true_label 1) <= 1)%nat /\ (label_count s (return_label 2) <= 1)%nat /\
    label_count s (true_label 2) = 0%nat.
Proof.
  destruct (generated_labels_unique (fun q => String.eqb q "Prog") sample_job "Prog")
    as [_ U].
  - intros fp file l c Hin Hl Hp; cbn in Hin.
    destruct Hin as [Hin|[Hin|[]]]; injection Hin as <- <-; vm_compute in Hl;
      repeat destruct Hl as [<-|Hl]; try contradiction;
      vm_compute in Hp; injection Hp as <-; cbn; try exact I;
      intros k; unfold true_label, end_label, return_label; repeat split; discriminate.
  - destruct (translate_files (fun q => String.eqb q "Prog") sample_job "Prog")
      as [s|e os] eqn:E; [|vm_compute in E; discriminate E].
    exists s; split; [reflexivity|].
    assert (AR : arith_jump_counter s = 2%nat /\ return_counter s = 3%nat)
      by (vm_compute in E; injection E as <-; split; reflexivity).
    destruct AR as [A R].
    destruct (U s (or_introl eq_refl) 1%nat) as (H1 & _ & _).
    destruct (U s (or_introl eq_refl) 2%nat) as (H4 & _ & H3).
    rewrite A in H1, H4; rewrite R in H3; cbn [Nat.ltb Nat.leb] in H1, H3, H4.
    split; [exact H1|]. split; [exact H3|]. lia.
Defined.

(* ------------------------------------------------------------------ *)
(** ** Further properties of the translator *)

(** *** Arithmetic, push and pop, and function entry on the machine *)

Lemma binary_op_cases command f :
  binary_op command = Some f ->
  (command = "add" /\ f = fun x y => w16 (x + y)) \/
  (command = "sub" /\ f = fun x y => w16 (x - y)) \/
  (command = "and" /\ f = fun x y => w16 (Z.land x y)) \/
  (command = "or" /\ f = fun x y => w16 (Z.lor x y)).
Proof.
  unfold binary_op.
  destruct (String.eqb_spec command "add"); [intros [= <-]; auto|].
  destruct (String.eqb_spec command "sub"); [intros [= <-]; auto|].
  destruct (String.eqb_spec command "and"); [intros [= <-]; auto|].
  destruct (String.eqb_spec command "or"); [intros [= <-]; auto|].
  discriminate.
Qed.

Lemma unary_op_cases command f :
  unary_op command = Some f ->
  (command = "neg" /\ f = fun x => w16 (- x)) \/
  (command = "not" /\ f = fun x => w16 (Z.lnot x)).
Proof.
  unfold unary_op.
  destruct (String.eqb_spec command "neg"); [intros [= <-]; auto|].
  destruct (String.eqb_spec command "not"); [intros [= <-]; auto|].
  discriminate.
Qed.

(** X1: for [add], [sub], [and] and [or], [write_arithmetic] succeeds,
    leaves the jump counter alone and appends a block that, run from a
    stack of at least two values, replaces the two top values [x] (second
    from top) and [y] (top) by the 16-bit result of [x+y], [x-y], [x&y] or
    [x|y]: SP goes down by one and no other RAM cell changes. *)
Theorem binary_arithmetic_runs (s : cw) command f sym org a d m sp :
  binary_op command = Some f -> predefined sym -> m 0 = sp -> 3 <= sp < 32768 ->
  exists block,
    snd (write_arithmetic command s) = inr tt /\
    written (fst (write_arithmetic command s)) = written s ++ block /\
    arith_jump_counter (fst (write_arithmetic command s)) = arith_jump_counter s /\
    exists st', run_block sym org block (mkM a d m) = Fell st' /\
      ram st' 0 = sp - 1 /\
      ram st' (sp - 2) = f (m (sp - 2)) (m (sp - 1)) /\
      (forall x, x <> 0 -> x <> sp - 2 -> ram st' x = m x).
Proof.
  intros Hc (H0 & H1 & H2 & H3 & H4) Hsp Hb.
  destruct s as [ip of cf cfn k rc lg so w].
  cbn [arith_jump_counter].
  remember (write_arithmetic command (mkCW ip of cf cfn k rc lg so w)) as r eqn:Er.
  apply binary_op_cases in Hc.
  destruct Hc as [[-> ->] | [[-> ->] | [[-> ->] | [-> ->]]]]; destruct lg;
  unfold write_arithmetic, translate_arithmetic_vm_code_to_assembly, log_line, write, modify, gets, bind, ret in Er;
  cbn -[dec String.append] in Er; subst r; cbn [fst snd written arith_jump_counter append_written];
  eexists; (split; [reflexivity|]); (split; [rewrite <- ?app_assoc; reflexivity|]);
  (split; [reflexivity|]);
  cbn [app]; rewrite ?run_block_cmt;
  unfold run_block; cbn [machine_code flat_map app List.length];
  repeat hstep_w.
  all: eexists; (split; [reflexivity|]); cbn [ram]; subst sp.
  all: replace (m 0 - 1 - 1) with (m 0 - 2) in * by lia.
  all: split; [read_simpl; lia|]; split.
  all: try (intros x Hx1 Hx2; read_simpl; reflexivity).
  all: read_simpl; f_equal; auto using Z.add_comm, Z.land_comm, Z.lor_comm.
Qed.

(** X2: for [neg] and [not], [write_arithmetic] succeeds, leaves the jump
    counter alone and appends a block that replaces the top of the stack
    [x] by the 16-bit [-x] or [!x]; SP and every other RAM cell keep their
    values. *)
Theorem unary_arithmetic_runs (s : cw) command f sym org a d m sp :
  unary_op command = Some f -> predefined sym -> m 0 = sp -> 2 <= sp < 32768 ->
  exists block,
    snd (write_arithmetic command s) = inr tt /\
    written (fst (write_arithmetic command s)) = written s ++ block /\
    arith_jump_counter (fst (write_arithmetic command s)) = arith_jump_counter s /\
    exists st', run_block sym org block (mkM a d m) = Fell st' /\
      ram st' 0 = sp /\
      ram st' (sp - 1) = f (m (sp - 1)) /\
      (forall x, x <> 0 -> x <> sp - 1 -> ram st' x = m x).
Proof.
  intros Hc (H0 & H1 & H2 & H3 & H4) Hsp Hb.
  destruct s as [ip of cf cfn k rc lg so w].
  cbn [arith_jump_counter].
  remember (write_arithmetic command (mkCW ip of cf cfn k rc lg so w)) as r eqn:Er.
  apply unary_op_cases in Hc.
  destruct Hc as [[-> ->] | [-> ->]]; destruct lg;
  unfold write_arithmetic, translate_arithmetic_vm_code_to_assembly, log_line, write, modify, gets, bind, ret in Er;
  cbn -[dec String.append] in Er; subst r; cbn [fst snd written arith_jump_counter append_written];
  eexists; (split; [reflexivity|]); (split; [rewrite <- ?app_assoc; reflexivity|]);
  (split; [reflexivity|]);
  cbn [app]; rewrite ?run_block_cmt;
  unfold run_block; cbn [machine_code flat_map app List.length];
  repeat hstep_w.
  all: eexists; (split; [reflexivity|]); cbn [ram]; subst sp.
  all: split; [read_simpl; lia|]; split.
  all: try (intros x Hx1 Hx2; read_simpl; reflexivity).
  all: read_simpl; reflexivity.
Qed.

Lemma w16_add_l x y : w16 (w16 x + y) = w16 (x + y).
Proof.
  unfold w16.
  replace ((x + 32768) mod 65536 - 32768 + y + 32768) with ((x + 32768) mod 65536 + y) by lia.
  rewrite Z.add_mod_idemp_l by lia.
  f_equal; f_equal; lia.
Qed.

Lemma w16_sub_l x y : w16 (w16 x - y) = w16 (x - y).
Proof. rewrite <- !Z.add_opp_r; apply w16_add_l. Qed.

Lemma pop_trick a v : word a -> word v ->
  w16 (w16 (a + v) - v) = a /\ w16 (w16 (a + v) - a) = v.
Proof.
  intros Ha Hv; rewrite !w16_sub_l.
  replace (a + v - v) with a by lia; replace (a + v - a) with v by lia.
  split; apply w16_id; assumption.
Qed.

Lemma segment_address_cases sym m fname seg i addr :
  segment_address sym m fname seg i = Some addr ->
  (exists r, get_ram_code seg = inr r /\
     addr = if Nat.eqb i 0 then m (sym r) else w16 (m (sym r) + Z.of_nat i)) \/
  (exists f, seg = "static" /\ fname = Some f /\ addr = sym (f ++ "." ++ dec i)%string) \/
  (seg = "pointer" /\ i = 0%nat /\ addr = 3) \/
  (seg = "pointer" /\ i = 1%nat /\ addr = 4) \/
  (seg = "temp" /\ addr = w16 (5 + Z.of_nat i)).
Proof.
  unfold segment_address.
  destruct (get_ram_code seg) as [e|r] eqn:Er.
  2: intros [= <-]; left; eauto.
  destruct (String.eqb_spec seg "static").
  { destruct fname as [f|]; [intros [= <-]|discriminate]; right; left; eauto. }
  destruct (String.eqb_spec seg "pointer").
  { destruct i as [|[|i]]; intros H; inversion H; subst.
    - right; right; left; auto.
    - right; right; right; left; auto. }
  destruct (String.eqb_spec seg "temp"); [intros [= <-]; right; right; right; right; auto|discriminate].
Qed.

(** X3: for every segment whose address the block of
    [translate_segment_vm_code] computes (local, argument, this, that,
    static, pointer 0/1, temp), [pop segment i] succeeds and its block
    moves the top of the stack into that address: afterwards the RAM is
    the old one with SP decreased by one and the popped value stored at
    the address (the address and the value being 16-bit words). *)
Theorem pop_stores_top (s : cw) seg i addr sym org a d m sp :
  segment_address sym m (current_filename s) seg i = Some addr ->
  predefined sym -> m 0 = sp -> 2 <= sp < 32768 -> word addr -> word (m (sp - 1)) ->
  exists block,
    snd (write_push_pop C_POP seg (Some i) s) = inr tt /\
    written (fst (write_push_pop C_POP seg (Some i) s)) = written s ++ block /\
    exists st', run_block sym org block (mkM a d m) = Fell st' /\
      ram st' = upd (upd m 0 (sp - 1)) addr (m (sp - 1)).
Proof.
  intros Ha (H0 & H1 & H2 & H3 & H4) Hsp Hb Hwa Hwv.
  destruct s as [ip of cf cfn k rc lg so w]; cbn [written current_filename] in *.
  remember (write_push_pop C_POP seg (Some i) (mkCW ip of cf cfn k rc lg so w)) as res eqn:Er.
  apply segment_address_cases in Ha.
  destruct Ha as [(r & Hr & ->) | [(f & -> & -> & ->) | [(-> & -> & ->) | [(-> & -> & ->) | (-> & ->)]]]].
  1: apply get_ram_code_cases in Hr;
     destruct Hr as [[-> ->] | [[-> ->] | [[-> ->] | [-> ->]]]];
     rewrite ?H1, ?H2, ?H3, ?H4 in *; destruct i as [|i'].
  all: destruct lg;
  unfold write_push_pop, translate_pop_vm_code_to_asm, translate_segment_vm_code, lift,
    log_line, write, modify, gets, bind, ret in Er;
  cbn -[dec String.append show_index] in Er; subst res;
  cbn [fst snd written append_written];
  eexists; (split; [reflexivity|]); (split; [rewrite <- ?app_assoc; reflexivity|]);
  cbn [app]; rewrite ?run_block_cmt;
  unfold run_block; cbn [machine_code flat_map app List.length at_index];
  repeat hstep_w.
  all: subst sp; eexists; (split; [reflexivity|]); cbn [ram].
  all: match goal with
       | |- upd _ (w16 (w16 (?x + ?v) - ?v)) _ = _ =>
           destruct (pop_trick x v) as [E1 E2]; [assumption|assumption|];
           rewrite E1, E2; reflexivity
       end.
Qed.

Lemma push_value_cases sym m fname seg i v :
  push_value sym m fname seg i = Some v ->
  (seg = "constant" /\ v = Z.of_nat i) \/
  (exists addr, String.eqb seg "constant" = false /\
     segment_address sym m fname seg i = Some addr /\ v = m addr).
Proof.
  unfold push_value.
  destruct (String.eqb_spec seg "constant") as [->|Hc]; [intros [= <-]; auto|].
  destruct (segment_address sym m fname seg i) as [addr|]; [intros [= <-]|discriminate].
  right; exists addr; auto.
Qed.

(** X4: for [push constant i] and for every segment with an address,
    with an index [i] of at most 32767 (the largest constant the
    assembler accepts in the emitted [@i]), [push segment i] succeeds and
    its block pushes the constant or the content of the address:
    afterwards the RAM is the old one with the value stored at the old SP
    and SP increased by one. *)
Theorem push_loads_value (s : cw) seg i v sym org a d m sp :
  Z.of_nat i <= 32767 ->
  push_value sym m (current_filename s) seg i = Some v ->
  predefined sym -> m 0 = sp -> 0 <= sp < 32767 ->
  exists block,
    snd (write_push_pop C_PUSH seg (Some i) s) = inr tt /\
    written (fst (write_push_pop C_PUSH seg (Some i) s)) = written s ++ block /\
    exists st', run_block sym org block (mkM a d m) = Fell st' /\
      ram st' = upd (upd m 0 (sp + 1)) sp v.
Proof.
  intros _ Hv (H0 & H1 & H2 & H3 & H4) Hsp Hb.
  destruct s as [ip of cf cfn k rc lg so w]; cbn [written current_filename] in *.
  remember (write_push_pop C_PUSH seg (Some i) (mkCW ip of cf cfn k rc lg so w)) as res eqn:Er.
  apply push_value_cases in Hv.
  destruct Hv as [[-> ->] | (addr & Hnc & Ha & ->)].
  2: apply segment_address_cases in Ha;
     destruct Ha as [(r & Hr & ->) | [(f & -> & -> & ->) | [(-> & -> & ->) | [(-> & -> & ->) | (-> & ->)]]]].
  2: apply get_ram_code_cases in Hr;
     destruct Hr as [[-> ->] | [[-> ->] | [[-> ->] | [-> ->]]]];
     rewrite ?H1, ?H2, ?H3, ?H4 in *; destruct i as [|i'].
  all: destruct lg;
  unfold write_push_pop, translate_push_vm_code_to_asm, translate_segment_vm_code, lift,
    log_line, write, modify, gets, bind, ret in Er;
  cbn -[dec String.append show_index] in Er; subst res;
  cbn [fst snd written append_written];
  eexists; (split; [reflexivity|]); (split; [rewrite <- ?app_assoc; reflexivity|]);
  cbn [app]; rewrite ?run_block_cmt;
  unfold run_block, push_d; cbn [machine_code flat_map app List.length at_index];
  repeat hstep_w.
  all: subst sp; eexists; (split; [reflexivity|]); cbn [ram].
  all: replace (m 0 + 1 - 1) with (m 0) by lia; cbn [Nat.eqb]; reflexivity.
Qed.

Lemma run_straight_app env l1 l2 st :
  run_straight env (l1 ++ l2) st =
  match run_straight env l1 st with Some st' => run_straight env l2 st' | None => None end.
Proof.
  revert st; induction l1 as [|i l1 IH]; intros st; [reflexivity|].
  cbn; destruct (straight_step env i st); [apply IH|reflexivity].
Qed.

Lemma exec_straight env org P Q R f st st' :
  run_straight env Q st = Some st' ->
  exec env org (P ++ Q ++ R) (List.length Q + f) (List.length P) st =
  exec env org (P ++ Q ++ R) f (List.length P + List.length Q) st'.
Proof.
  revert P st; induction Q as [|i Q IH]; intros P st H.
  - cbn in H; injection H as <-; rewrite Nat.add_0_r; reflexivity.
  - cbn in H; destruct (straight_step env i st) as [st1|] eqn:Es; [|discriminate].
    assert (Hn : nth_error (P ++ (i :: Q) ++ R) (List.length P) = Some i).
    { rewrite nth_error_app2 by lia; rewrite Nat.sub_diag; reflexivity. }
    cbn [List.length Nat.add]; cbn [exec]; rewrite Hn.
    replace (P ++ (i :: Q) ++ R) with ((P ++ [i]) ++ Q ++ R)
      by (rewrite <- app_assoc; reflexivity).
    replace (S (List.length P)) with (List.length (P ++ [i]))
      by (rewrite length_app; cbn; lia).
    replace (List.length P + S (List.length Q))%nat with (List.length (P ++ [i]) + List.length Q)%nat
      by (rewrite length_app; cbn; lia).
    destruct i as [[n|s]|s]; cbn in Es.
    + injection Es as <-; apply IH; exact H.
    + injection Es as <-; apply IH; exact H.
    + destruct (exec_c s st) as [[st2 [|]]|]; try discriminate.
      injection Es as <-; apply IH; exact H.
Qed.

Lemma run_block_straight sym org b st st' :
  run_straight (resolve sym org b) (machine_code b) st = Some st' ->
  run_block sym org b st = Fell st'.
Proof.
  intros H; unfold run_block.
  pose proof (exec_straight (resolve sym org b) org [] (machine_code b) [] 1 st st' H) as E.
  rewrite !app_nil_r in E; cbn [app List.length Nat.add] in E.
  rewrite Nat.add_1_r in E; rewrite E.
  cbn [exec]; rewrite (proj2 (nth_error_None (machine_code b) _)) by lia; reflexivity.
Qed.

Lemma init_local_step env j a d r l q :
  env "LCL" = 1 -> env "SP" = 0 -> r 1 = l -> r 0 = q ->
  run_straight env (machine_code (init_local j)) (mkM a d r) =
  Some (mkM 0 l (upd (upd r (w16 (l + Z.of_nat j)) 0) 0
                     (w16 (upd r (w16 (l + Z.of_nat j)) 0 0 + 1)))).
Proof.
  intros HL HS Hl Hq.
  cbn -[w16 upd Z.of_nat]. rewrite HL, HS. cbn -[w16 upd Z.of_nat].
  rewrite Hl. reflexivity.
Qed.

Lemma machine_code_app l1 l2 : machine_code (l1 ++ l2) = machine_code l1 ++ machine_code l2.
Proof. unfold machine_code; apply flat_map_app. Qed.

Lemma init_locals_run env n a d m l sp :
  env "LCL" = 1 -> env "SP" = 0 -> m 1 = l -> m 0 = sp ->
  2 <= l -> l + Z.of_nat n <= 32768 -> 0 <= sp -> sp + Z.of_nat n < 32768 ->
  exists st',
    run_straight env (machine_code (List.concat (map init_local (seq 0 n)))) (mkM a d m) = Some st' /\
    ram st' 0 = sp + Z.of_nat n /\
    (forall x, l <= x < l + Z.of_nat n -> ram st' x = 0) /\
    (forall x, x <> 0 -> ~ (l <= x < l + Z.of_nat n) -> ram st' x = m x).
Proof.
  intros HL HS Hl Hsp Hl2 Hln Hs0 Hsn.
  induction n as [|n IH].
  - exists (mkM a d m); cbn; repeat split; intros; try lia; auto.
  - destruct IH as (st & Hrun & R0 & Rin & Rout); [lia|lia|].
    rewrite seq_S, map_app, concat_app, machine_code_app, run_straight_app, Hrun.
    cbn [map List.concat Nat.add]; rewrite app_nil_r.
    destruct st as [a' d' r]; cbn [ram] in *.
    assert (Hr1 : r 1 = l) by (rewrite Rout by lia; exact Hl).
    rewrite (init_local_step env n a' d' r l (r 0) HL HS Hr1 eq_refl).
    eexists; split; [reflexivity|]; cbn [ram].
    rewrite (w16_id (l + Z.of_nat n)) by (unfold word; lia).
    rewrite (upd_other r _ 0 0) by lia; rewrite R0.
    rewrite (w16_id (sp + Z.of_nat n + 1)) by (unfold word; lia).
    split; [rewrite upd_same; lia|split].
    + intros x Hx; rewrite upd_other by lia.
      destruct (Z.eq_dec x (l + Z.of_nat n)) as [->|Hne]; [apply upd_same|].
      rewrite upd_other by exact Hne; apply Rin; lia.
    + intros x Hx0 Hx; rewrite upd_other by exact Hx0.
      rewrite upd_other by lia; apply Rout; [exact Hx0|lia].
Qed.

Lemma label_index_undeclared b s n :
  ~ In s (declared_labels b) -> label_index b s n = None.
Proof.
  revert n; induction b as [|x b IH]; intros n H; [reflexivity|].
  destruct x as [v|c|t|t]; cbn in H |- *; try (apply IH; exact H).
  destruct (String.eqb_spec s t) as [->|]; [exfalso; apply H; left; reflexivity|].
  apply IH; intros Hin; apply H; right; exact Hin.
Qed.

(** X5: [function f n] succeeds, makes [f] the current function and
    appends a block declaring the one label [f]; run with LCL = [l] and
    SP = [sp], it zeroes the [n] cells [l .. l+n-1], raises SP by [n] and
    changes no other cell.  (The name [f] must not be [LCL] or [SP], whose
    addresses a label [f] would shadow.) *)
Theorem function_allocates_locals (s : cw) f n sym org a d m l sp :
  f <> "LCL" -> f <> "SP" -> predefined sym -> m 1 = l -> m 0 = sp ->
  2 <= l -> l + Z.of_nat n <= 32768 -> 0 <= sp -> sp + Z.of_nat n < 32768 ->
  exists block,
    snd (write_function f (Some n) s) = inr tt /\
    written (fst (write_function f (Some n) s)) = written s ++ block /\
    current_function (fst (write_function f (Some n) s)) = Some f /\
    declared_labels block = [f] /\
    exists st', run_block sym org block (mkM a d m) = Fell st' /\
      ram st' 0 = sp + Z.of_nat n /\
      (forall x, l <= x < l + Z.of_nat n -> ram st' x = 0) /\
      (forall x, x <> 0 -> ~ (l <= x < l + Z.of_nat n) -> ram st' x = m x).
Proof.
  intros HfL HfS (H0 & H1 & H2 & H3 & H4) Hl Hsp Hl2 Hln Hs0 Hsn.
  set (body := Lbl f :: List.concat (map init_local (seq 0 n))).
  exists ((if log_vm_commands s
           then [Cmt ("function " ++ f ++ " " ++ show_index (Some n))%string]
           else []) ++ body).
  assert (Hnl : forall x, ~ In x (declared_labels (List.concat (map init_local (seq 0 n))))).
  { intros x; rewrite declared_labels_init_locals; intros []. }
  assert (Env : forall x, x <> f ->
            resolve sym org ((if log_vm_commands s
                              then [Cmt ("function " ++ f ++ " " ++ show_index (Some n))%string]
                              else []) ++ body) x = sym x).
  { intros x Hx; apply resolve_outside.
    destruct (log_vm_commands s); cbn [app label_index]; unfold body; cbn [label_index];
      (destruct (String.eqb_spec x f); [contradiction|]); apply label_index_undeclared, Hnl. }
  destruct (init_locals_run (resolve sym org ((if log_vm_commands s
                              then [Cmt ("function " ++ f ++ " " ++ show_index (Some n))%string]
                              else []) ++ body)) n a d m l sp)
    as (st' & Hrun & R0 & Rin & Rout);
    [rewrite Env by congruence; exact H1 | rewrite Env by congruence; exact H0
    | assumption | assumption | assumption | assumption | assumption | assumption |].
  unfold write_function, log_line, write, modify, gets, bind, ret.
  destruct s as [ip of cf cfn k rc lg so w]; cbn [log_vm_commands] in *.
  destruct lg; cbn [fst snd written current_function append_written set_function log_vm_commands].
  all: split; [reflexivity|]; split; [rewrite <- ?app_assoc; reflexivity|]; split; [reflexivity|].
  all: split; [unfold body; rewrite ?declared_labels_app, declared_labels_function_block; reflexivity|].
  all: exists st'; split; [|auto].
  all: apply run_block_straight; exact Hrun.
Qed.

(** *** Parsing of command lines *)

Section ParseProps.
Local Open Scope string_scope.
Local Open Scope list_scope.

Lemma split_space_word x : no_space x = true -> split_space x = [x].
Proof.
  induction x as [|c x IH]; [reflexivity|].
  cbn; intros H; apply andb_true_iff in H as [Hc Hx].
  destruct (Ascii.eqb c " "); [discriminate|].
  rewrite IH by exact Hx; reflexivity.
Qed.

Lemma split_space_app x y : no_space x = true ->
  split_space (x ++ String " " y) = x :: split_space y.
Proof.
  induction x as [|c x IH]; [reflexivity|].
  cbn; intros H; apply andb_true_iff in H as [Hc Hx].
  destruct (Ascii.eqb c " "); [discriminate|].
  rewrite IH by exact Hx; reflexivity.
Qed.

Lemma arith_words w : command_type_map w = Some C_ARITHMETIC ->
  In w ["add"; "sub"; "neg"; "eq"; "gt"; "lt"; "and"; "or"; "not"].
Proof.
  unfold command_type_map.
  destruct (String.eqb w "pop"); [discriminate|].
  destruct (String.eqb w "push"); [discriminate|].
  destruct (existsb (String.eqb w) ["add"; "sub"; "neg"; "eq"; "gt"; "lt"; "and"; "or"; "not"]) eqn:E.
  - intros _; apply existsb_exists in E as (x & Hx & Ex).
    apply String.eqb_eq in Ex; subst; exact Hx.
  - repeat match goal with |- context [if ?b then _ else _] => destruct b end; discriminate.
Qed.

Lemma parse_arith line c :
  parse_command line = inr c -> command_type c = C_ARITHMETIC ->
  In (arg1 c) ["add"; "sub"; "neg"; "eq"; "gt"; "lt"; "and"; "or"; "not"] /\ arg2 c = None.
Proof.
  unfold parse_command.
  destruct (split_space line) as [|w0 rest]; [discriminate|].
  destruct (command_type_map w0) as [t|] eqn:Et; [|discriminate].
  destruct t; try (intros [= <-]; cbn; split; [apply arith_words; exact Et|reflexivity]);
  try (intros [= <-]; discriminate);
  (destruct rest as [|w1 [|w2 more]]; [discriminate| intros [= <-]; discriminate|]);
  cbn [arg2_allowed negb];
  try discriminate;
  (destruct (py_int w2) as [z|]; [|discriminate]);
  (destruct (z <? 0)%Z; [discriminate|]);
  (destruct more; [intros [= <-]; discriminate|discriminate]).
Qed.

(** X6: dispatching a command that [Command] parsed from a line as an
    arithmetic command never raises (the parse admits only the nine
    operators): it only appends lines to the output. *)
Theorem parsed_arithmetic_translates line c (s : cw) :
  parse_command line = inr c -> command_type c = C_ARITHMETIC ->
  snd (dispatch c s) = inr tt /\
  exists block, written (fst (dispatch c s)) = written s ++ block.
Proof.
  intros Hp Ht; destruct (parse_arith line c Hp Ht) as [Hin _].
  destruct c as [t a1 a2]; cbn in Ht, Hin; subst t.
  unfold dispatch; cbn [command_type arg1].
  destruct s as [ip of cf cfn k rc lg so w].
  destruct Hin as [<-|[<-|[<-|[<-|[<-|[<-|[<-|[<-|[<-|[]]]]]]]]]]; destruct lg;
  unfold write_arithmetic, translate_arithmetic_vm_code_to_assembly, log_line, write, modify, gets, bind, ret;
  cbn -[dec String.append]; (split; [reflexivity|]); eexists; rewrite <- ?app_assoc; reflexivity.
Qed.

Lemma digits_value_uint u b a :
  u <> Decimal.Nil ->
  digits_value b (Z.of_nat a) (uint_to_string u) =
  Some (Z.of_nat (Nat.of_uint_acc u a)).
Proof.
  revert b a; induction u; intros b a Hu; [contradiction|..];
  cbn [uint_to_string digits_value Nat.of_uint_acc];
  match goal with |- context [is_digit ?c] => change (is_digit c) with true end;
  cbv iota;
  match goal with
  | |- digits_value _ ?e _ = Some (Z.of_nat (Nat.of_uint_acc _ ?n)) =>
      replace e with (Z.of_nat n) by (rewrite ?Nat.tail_mul_spec; cbn [nat_of_ascii]; cbn; lia)
  end;
  (destruct u; [reflexivity| apply IHu; discriminate ..]).
Qed.

Lemma uint_nonnil n : Nat.to_uint n <> Decimal.Nil.
Proof.
  intros H.
  assert (E : Nat.of_uint (Nat.to_uint n) = n) by apply DecimalNat.Unsigned.of_to.
  rewrite H in E; cbn in E; subst n; discriminate H.
Qed.

Lemma dec_digits n : digits_value false 0 (dec n) = Some (Z.of_nat n).
Proof.
  unfold dec; change 0%Z with (Z.of_nat 0).
  rewrite (digits_value_uint _ false 0 (uint_nonnil n)).
  f_equal; f_equal; exact (DecimalNat.Unsigned.of_to n).
Qed.

Lemma uint_chars u c :
  In c (list_ascii_of_string (uint_to_string u)) ->
  In c ["0"; "1"; "2"; "3"; "4"; "5"; "6"; "7"; "8"; "9"]%char.
Proof.
  induction u; cbn; [intros []|..];
  intros [<-|H]; try (apply IHu; exact H); cbn; tauto.
Qed.

Lemma drop_space_id l : (forall c, In c l -> is_py_space c = false) -> drop_space l = l.
Proof.
  destruct l as [|c l]; intros H; [reflexivity|].
  cbn; rewrite (H c (or_introl eq_refl)); reflexivity.
Qed.

Lemma strip_id s :
  (forall c, In c (list_ascii_of_string s) -> is_py_space c = false) -> strip s = s.
Proof.
  intros H; unfold strip.
  rewrite (drop_space_id (list_ascii_of_string s)) by exact H.
  rewrite (drop_space_id (rev (list_ascii_of_string s)))
    by (intros c Hc; apply H; apply in_rev; exact Hc).
  rewrite rev_involutive; apply string_of_list_ascii_of_string.
Qed.

Lemma py_int_dec n : py_int (dec n) = Some (Z.of_nat n).
Proof.
  unfold py_int.
  rewrite strip_id.
  2: { intros c Hc; apply uint_chars in Hc.
       destruct Hc as [<-|[<-|[<-|[<-|[<-|[<-|[<-|[<-|[<-|[<-|[]]]]]]]]]]]; reflexivity. }
  pose proof (dec_digits n) as D.
  pose proof (uint_chars (Nat.to_uint n)) as Hch; fold (dec n) in Hch.
  destruct (dec n) as [|c r] eqn:E; [discriminate D|].
  specialize (Hch c (or_introl eq_refl)).
  destruct Hch as [<-|[<-|[<-|[<-|[<-|[<-|[<-|[<-|[<-|[<-|[]]]]]]]]]]]; exact D.
Qed.

Lemma no_space_dec n : no_space (dec n) = true.
Proof.
  unfold no_space; apply forallb_forall; intros c Hc; apply uint_chars in Hc.
  destruct Hc as [<-|[<-|[<-|[<-|[<-|[<-|[<-|[<-|[<-|[<-|[]]]]]]]]]]]; reflexivity.
Qed.

(** X7: parsing inverts printing: for a command word [kw] and space-free
    words [w1] and [dec n], the line [kw w1] parses to the command of
    [kw]'s type with [arg1 = w1] and no [arg2] (for every type but
    arithmetic and return), and the line [kw w1 n] parses to the same with
    [arg2 = n] whenever the type admits a second argument. *)
Theorem parse_command_roundtrip kw t w1 n :
  command_type_map kw = Some t -> no_space kw = true -> no_space w1 = true ->
  (t <> C_ARITHMETIC -> t <> C_RETURN ->
   parse_command (kw ++ " " ++ w1)%string = inr (mkCommand t w1 None)) /\
  (arg2_allowed t = true ->
   parse_command (kw ++ " " ++ w1 ++ " " ++ dec n)%string = inr (mkCommand t w1 (Some n))).
Proof.
  intros Ht Hk Hw; unfold parse_command.
  change (kw ++ " " ++ w1)%string with (kw ++ String " " w1)%string.
  change (kw ++ " " ++ w1 ++ " " ++ dec n)%string with (kw ++ String " " (w1 ++ String " " (dec n)))%string.
  rewrite !split_space_app by assumption.
  rewrite (split_space_word w1 Hw), (split_space_word (dec n) (no_space_dec n)), Ht.
  rewrite py_int_dec.
  replace (Z.of_nat n <? 0)%Z with false by (symmetry; apply Z.ltb_ge; lia).
  rewrite Nat2Z.id.
  split; destruct t; cbn; intros; try reflexivity; try congruence; discriminate.
Qed.

Lemma split_space_nonempty x : split_space x <> [].
Proof.
  destruct x as [|c x]; cbn; [discriminate|].
  destruct (Ascii.eqb c " "); [discriminate|].
  destruct (split_space x); discriminate.
Qed.

Lemma split_space_cat x y :
  split_space (x ++ String " " y) = split_space x ++ split_space y.
Proof.
  induction x as [|c x IH]; [reflexivity|].
  cbn [String.append split_space]; rewrite IH.
  destruct (Ascii.eqb c " "); [reflexivity|].
  pose proof (split_space_nonempty x) as Hn.
  destruct (split_space x) as [|h t]; [contradiction|reflexivity].
Qed.

(** X8: a parsed command holds an [arg2] only if its type is in
    [ARG2_WHITELIST_COMMAND_TYPES]; and for arithmetic and return lines
    everything after the first word is ignored: appending more words does
    not change the parse. *)
Theorem command_arguments line c :
  parse_command line = inr c ->
  (arg2 c <> None -> arg2_allowed (command_type c) = true) /\
  (command_type c = C_ARITHMETIC \/ command_type c = C_RETURN ->
   forall rest, parse_command (line ++ String " " rest)%string = parse_command line).
Proof.
  intros Hp; split.
  - revert Hp; unfold parse_command.
    destruct (split_space line) as [|w0 rest]; [discriminate|].
    destruct (command_type_map w0) as [t|]; [|discriminate].
    destruct t; try (intros [= <-]; cbn; congruence);
    (destruct rest as [|w1 [|w2 more]]; [discriminate| intros [= <-]; cbn; congruence|]);
    cbn [arg2_allowed negb]; try discriminate;
    (destruct (py_int w2) as [z|]; [|discriminate]);
    (destruct (z <? 0)%Z; [discriminate|]);
    (destruct more; [intros [= <-]; reflexivity|discriminate]).
  - intros Ht rest; revert Hp Ht; unfold parse_command.
    rewrite split_space_cat.
    destruct (split_space line) as [|w0 ws]; [discriminate|]; cbn [app].
    destruct (command_type_map w0) as [t|]; [|discriminate].
    destruct t; try reflexivity;
    (destruct ws as [|w1 [|w2 more]]; [discriminate| intros [= <-]; cbn; intros [H|H]; discriminate|]);
    cbn [arg2_allowed negb]; try discriminate;
    (destruct (py_int w2) as [z|]; [|discriminate]);
    (destruct (z <? 0)%Z; [discriminate|]);
    (destruct more; [intros [= <-]; cbn; intros [H|H]; discriminate|discriminate]).
Qed.

(** X9: a [push] line with no index on [local], [argument], [this],
    [that], [temp] or [constant], and a [pop] line with no index on
    [local], [argument], [this], [that] or [temp], is accepted: it parses
    with [arg2 = None], its translation raises nothing, and the emitted
    block refers to the assembler symbol [@None] (Python's [f"{None}"]).
    (The other segments behave otherwise: [pointer] raises, [static]
    emits [@<file>.None], [pop constant] raises.) *)
Theorem missing_index_reads_None (s : cw) kw seg :
  (kw = "push" /\ In seg ["local"; "argument"; "this"; "that"; "temp"; "constant"]) \/
  (kw = "pop" /\ In seg ["local"; "argument"; "this"; "that"; "temp"]) ->
  (exists t, parse_command (kw ++ " " ++ seg)%string = inr (mkCommand t seg None)) /\
  snd (translate_lines [(kw ++ " " ++ seg)%string] s) = inr tt /\
  exists block,
    written (fst (translate_lines [(kw ++ " " ++ seg)%string] s)) = written s ++ block /\
    In (At (ASym "None")) block.
Proof.
  destruct s as [ip of cf cfn k rc lg so w].
  intros [[-> Hs]|[-> Hs]];
  repeat (destruct Hs as [<-|Hs]; [|]); try contradiction Hs;
  destruct lg;
  (split; [eexists; reflexivity|]);
  cbn;
  (split; [reflexivity|]);
  eexists; (split; [rewrite <- ?app_assoc; reflexivity|]); cbn; tauto.
Qed.

End ParseProps.

(** *** Cleaning, reading and naming of input files *)

Section CleanProps.
Local Open Scope string_scope.
Local Open Scope list_scope.

Lemma cut_true_head s :
  cut_comments true s = EmptyString \/ exists t, cut_comments true s = String "010" t.
Proof.
  induction s as [|c s IH]; [left; reflexivity|].
  cbn; destruct (Ascii.eqb_spec c "010") as [->|]; [right; eexists; reflexivity|exact IH].
Qed.

Lemma cut_false_head c s : c <> "/"%char ->
  exists t, cut_comments false (String c s) = String c t.
Proof.
  intros Hc; cbn; destruct s as [|c2 s'].
  - eexists; reflexivity.
  - destruct (Ascii.eqb_spec c "/"); [contradiction|]; cbn; eexists; reflexivity.
Qed.

Lemma has_slashes_cons c t :
  has_slashes (list_ascii_of_string (String c t)) =
  (Ascii.eqb c "/" && match t with String c2 _ => Ascii.eqb c2 "/" | EmptyString => false end)
  || has_slashes (list_ascii_of_string t).
Proof. destruct t; reflexivity. Qed.

Lemma cut_comments_no_slashes n : forall s b, (String.length s <= n)%nat ->
  has_slashes (list_ascii_of_string (cut_comments b s)) = false.
Proof.
  induction n as [|n IH]; intros s b Hl.
  { destruct s; [destruct b; reflexivity|cbn in Hl; lia]. }
  destruct s as [|c s']; [destruct b; reflexivity|].
  cbn in Hl; destruct b.
  - cbn [cut_comments].
    destruct (Ascii.eqb_spec c "010") as [->|Hc].
    + rewrite has_slashes_cons, IH by lia; reflexivity.
    + apply IH; lia.
  - cbn [cut_comments]; destruct s' as [|c2 s'']; [cbn; rewrite andb_false_r; reflexivity|].
    cbn in Hl.
    destruct (Ascii.eqb_spec c "/") as [->|Hc]; destruct (Ascii.eqb_spec c2 "/") as [->|Hc2];
      cbn [andb].
    + apply IH; lia.
    + rewrite has_slashes_cons, IH by (cbn; lia).
      destruct (cut_false_head c2 s'' Hc2) as [t Ht]; rewrite Ht.
      destruct (Ascii.eqb_spec c2 "/"); [contradiction|reflexivity].
    + rewrite has_slashes_cons, IH by (cbn; lia).
      destruct (Ascii.eqb_spec c "/"); [contradiction|reflexivity].
    + rewrite has_slashes_cons, IH by (cbn; lia).
      destruct (Ascii.eqb_spec c "/"); [contradiction|reflexivity].
Qed.

Lemma drop_space_suffix l : exists p, l = p ++ drop_space l.
Proof.
  induction l as [|c l IH]; [exists []; reflexivity|].
  cbn; destruct (is_py_space c).
  - destruct IH as [p Hp]; exists (c :: p); cbn; rewrite <- Hp; reflexivity.
  - exists []; reflexivity.
Qed.

Lemma drop_space_head l c t : drop_space l = c :: t -> is_py_space c = false.
Proof.
  induction l as [|x l IH]; cbn; [discriminate|].
  destruct (is_py_space x) eqn:E; [exact IH|intros [= <- _]; exact E].
Qed.

Lemma drop_space_keep c t : is_py_space c = false -> drop_space (c :: t) = c :: t.
Proof. intros H; cbn; rewrite H; reflexivity. Qed.

Lemma has_slashes_app_r p m : has_slashes (p ++ m) = false -> has_slashes m = false.
Proof.
  induction p as [|c p IH]; [auto|].
  cbn [app has_slashes]; intros H; apply orb_false_iff in H as [_ H]; auto.
Qed.

Lemma has_slashes_app_l m q : has_slashes (m ++ q) = false -> has_slashes m = false.
Proof.
  induction m as [|c m IH]; [reflexivity|].
  cbn [app has_slashes]; intros H; apply orb_false_iff in H as [H1 H2].
  rewrite IH by exact H2; rewrite orb_false_r.
  destruct m as [|c2 m']; [apply andb_false_r|exact H1].
Qed.

Lemma strip_infix s : exists p q,
  list_ascii_of_string s = p ++ list_ascii_of_string (strip s) ++ q.
Proof.
  unfold strip; rewrite list_ascii_of_string_of_list_ascii.
  set (L := list_ascii_of_string s).
  destruct (drop_space_suffix L) as [p Hp].
  set (D := drop_space L) in *.
  destruct (drop_space_suffix (rev D)) as [q Hq].
  set (E := drop_space (rev D)) in *.
  exists p, (rev q).
  rewrite Hp at 1; f_equal.
  rewrite <- (rev_involutive D), Hq, rev_app_distr; reflexivity.
Qed.


Lemma head_ns_drop x : head_ns (drop_space x).
Proof. intros c t E; exact (drop_space_head x c t E). Qed.

Lemma last_ns_suffix p x : last_ns (p ++ x) -> last_ns x.
Proof. intros H m c E; apply (H (p ++ m)); rewrite E, app_assoc; reflexivity. Qed.

Lemma last_ns_rev l : head_ns l -> last_ns (rev l).
Proof.
  intros H m c E; apply (H c (rev m)).
  rewrite <- (rev_involutive l), E, rev_app_distr; reflexivity.
Qed.

Lemma head_ns_rev l : last_ns l -> head_ns (rev l).
Proof.
  intros H c t E; apply (H (rev t)).
  rewrite <- (rev_involutive l), E; reflexivity.
Qed.

Lemma drop_keep l : head_ns l -> drop_space l = l.
Proof.
  destruct l as [|c t]; intros H; [reflexivity|].
  apply drop_space_keep, (H c t); reflexivity.
Qed.

Lemma strip_trimmed s :
  head_ns (list_ascii_of_string (strip s)) /\ last_ns (list_ascii_of_string (strip s)).
Proof.
  unfold strip; rewrite list_ascii_of_string_of_list_ascii.
  set (A := drop_space (list_ascii_of_string s)).
  set (B := drop_space (rev A)).
  assert (HA : head_ns A) by apply head_ns_drop.
  assert (HB : head_ns B) by apply head_ns_drop.
  assert (LB : last_ns B).
  { destruct (drop_space_suffix (rev A)) as [p Hp].
    apply (last_ns_suffix p); fold B in Hp; rewrite <- Hp; apply last_ns_rev, HA. }
  split; [apply head_ns_rev, LB|apply last_ns_rev, HB].
Qed.

Lemma strip_idem s : strip (strip s) = strip s.
Proof.
  destruct (strip_trimmed s) as [H L].
  unfold strip at 1.
  rewrite (drop_keep _ H), (drop_keep _ (head_ns_rev _ L)), rev_involutive.
  apply string_of_list_ascii_of_string.
Qed.

Lemma is_blank_false l : is_blank l = false -> l <> EmptyString.
Proof. intros H E; subst; discriminate H. Qed.

(** X10: every line that [Parser.clean_file] keeps is non-empty, has no
    white space at either end ([strip] leaves it unchanged) and holds no
    [//] comment marker. *)
Theorem clean_file_lines file l :
  In l (clean_file file) ->
  l <> EmptyString /\ strip l = l /\ has_slashes (list_ascii_of_string l) = false.
Proof.
  unfold clean_file; rewrite filter_In, in_map_iff.
  intros [(x & <- & _) Hb]; apply negb_true_iff in Hb.
  split; [apply is_blank_false; exact Hb|split].
  - unfold clean_line; apply strip_idem.
  - unfold clean_line.
    destruct (strip_infix (cut_comments false x)) as (p & q & E).
    apply (has_slashes_app_l _ q), (has_slashes_app_r p).
    rewrite <- E.
    apply (cut_comments_no_slashes (String.length x)); lia.
Qed.

End CleanProps.

Section ReadProps.
Local Open Scope string_scope.
Local Open Scope list_scope.

Lemma od_set_in k v d kv : In kv (od_set k v d) -> kv = (k, v) \/ In kv d.
Proof.
  induction d as [|[k' v'] d IH]; cbn; [intros [<-|[]]; auto|].
  destruct (String.eqb k k'); cbn; intros [<-|H]; auto.
  destruct (IH H); auto.
Qed.

Lemma od_set_keys k v d :
  map fst (od_set k v d) = if existsb (String.eqb k) (map fst d) then map fst d
                           else map fst d ++ [k].
Proof.
  induction d as [|[k' v'] d IH]; [reflexivity|].
  cbn; destruct (String.eqb_spec k k') as [->|Hne]; [reflexivity|].
  cbn; rewrite IH; destruct (existsb _ _); reflexivity.
Qed.

Lemma od_set_nodup k v d : NoDup (map fst d) -> NoDup (map fst (od_set k v d)).
Proof.
  intros H; rewrite od_set_keys.
  destruct (existsb (String.eqb k) (map fst d)) eqn:E; [exact H|].
  apply NoDup_app; [exact H|constructor; [intros []|constructor]|].
  intros x Hx [<-|[]].
  assert (existsb (String.eqb k) (map fst d) = true)
    by (apply existsb_exists; exists k; split; [exact Hx|apply String.eqb_refl]).
  congruence.
Qed.

Lemma od_set_nonempty k v d : od_set k v d <> [].
Proof. destruct d as [|[k' v'] d]; cbn; [|destruct (String.eqb k k')]; discriminate. Qed.

(** X11: when [read_filepath_input] succeeds, it returns a non-empty
    table with no key twice, whose every key is a [.vm] file, mapped to the
    lines read from it, and is either the input path itself or the input
    path joined with a name listed in that directory. *)
Theorem read_filepath_input_files f p files :
  read_filepath_input f p = inr files ->
  files <> [] /\ NoDup (map fst files) /\
  Forall (fun kv => is_vm_file f (fst kv) = true /\ snd kv = fs_read f (fst kv) /\
                    (fst kv = p \/ exists name, In name (fs_listdir f p) /\
                                                fst kv = path_join p name)) files.
Proof.
  unfold read_filepath_input.
  destruct (fs_exists f p); cbn [negb]; [|discriminate].
  destruct (is_vm_file f p) eqn:Ev.
  { intros [= <-]; split; [discriminate|split; [repeat constructor; intros []|]].
    repeat constructor; cbn; auto. }
  destruct (fs_isdir f p); cbn [negb]; [|discriminate].
  set (step := fun d filename =>
                 let full := path_join p filename in
                 if is_vm_file f full then od_set full (fs_read f full) d else d).
  assert (Inv : forall names d,
             NoDup (map fst d) ->
             Forall (fun kv => is_vm_file f (fst kv) = true /\ snd kv = fs_read f (fst kv) /\
                       (fst kv = p \/ exists name, In name (fs_listdir f p) /\
                                                   fst kv = path_join p name)) d ->
             incl names (fs_listdir f p) ->
             NoDup (map fst (fold_left step names d)) /\
             Forall (fun kv => is_vm_file f (fst kv) = true /\ snd kv = fs_read f (fst kv) /\
                       (fst kv = p \/ exists name, In name (fs_listdir f p) /\
                                                   fst kv = path_join p name))
                    (fold_left step names d)).
  { induction names as [|nm names IH]; intros d Hd Hf Hi; [auto|].
    cbn [fold_left]; apply IH.
    - unfold step; destruct (is_vm_file f (path_join p nm)); [apply od_set_nodup|]; exact Hd.
    - unfold step; destruct (is_vm_file f (path_join p nm)) eqn:Ef; [|exact Hf].
      apply Forall_forall; intros kv Hkv; apply od_set_in in Hkv as [->|Hkv].
      + cbn; split; [exact Ef|split; [reflexivity|right; exists nm; split; [apply Hi; left|]]];
          reflexivity.
      + exact (proj1 (Forall_forall _ _) Hf kv Hkv).
    - intros x Hx; apply Hi; right; exact Hx. }
  destruct (Inv (fs_listdir f p) [] (NoDup_nil _) (Forall_nil _) (incl_refl _)) as [N F].
  cbv zeta; fold step.
  destruct (fold_left step (fs_listdir f p) []) as [|kv rest] eqn:E; [discriminate|].
  intros [= <-]; split; [discriminate|split; assumption].
Qed.

End ReadProps.

Section NameProps.
Local Open Scope list_scope.
Local Open Scope string_scope.


Lemma str_app_nil_r s : s ++ "" = s.
Proof. induction s as [|c s IH]; cbn; [|rewrite IH]; reflexivity. Qed.

Lemma str_app_assoc x y z : (x ++ y) ++ z = x ++ (y ++ z).
Proof. induction x as [|c x IH]; cbn; [|rewrite IH]; reflexivity. Qed.


Lemma basename_acc_plain acc b : no_slash b = true -> basename_acc acc b = acc ++ b.
Proof.
  revert acc; induction b as [|c b IH]; intros acc H; [symmetry; apply str_app_nil_r|].
  cbn in H |- *; apply andb_true_iff in H as [Hc Hb].
  apply negb_true_iff in Hc; rewrite Hc.
  rewrite IH by exact Hb; rewrite str_app_assoc; reflexivity.
Qed.

Lemma basename_acc_slash acc x b : basename_acc acc (x ++ String "/" b) = basename_acc "" b.
Proof.
  revert acc; induction x as [|c x IH]; intros acc; [reflexivity|].
  cbn; destruct (Ascii.eqb c "/"); apply IH.
Qed.

Lemma ends_with_slash d : ends_with "/" d = true -> exists x, d = x ++ "/".
Proof.
  induction d as [|c d IH]; [discriminate|].
  cbn [ends_with]; destruct (String.eqb_spec (String c d) "/") as [E|_].
  - intros _; exists ""; exact E.
  - cbn [orb]; intros H; destruct (IH H) as [x ->]; exists (String c x); reflexivity.
Qed.

Lemma basename_path_join d b : no_slash b = true -> basename (path_join d b) = b.
Proof.
  intros Hb; unfold basename, path_join.
  destruct (String.eqb d "").
  { apply basename_acc_plain; exact Hb. }
  destruct (ends_with "/" d) eqn:E.
  - destruct (ends_with_slash d E) as [x ->].
    rewrite str_app_assoc; cbn [String.append]; rewrite basename_acc_slash.
    apply basename_acc_plain; exact Hb.
  - cbn [String.append]; rewrite basename_acc_slash; apply basename_acc_plain; exact Hb.
Qed.

Lemma replace_vm_plain fuel name :
  (String.length name < fuel)%nat ->
  forallb (fun c => negb (Ascii.eqb c ".")) (list_ascii_of_string name) = true ->
  replace_fuel fuel ".vm" "" (name ++ ".vm") = name.
Proof.
  revert fuel; induction name as [|c name IH]; intros fuel Hl Hn.
  - destruct fuel as [|f]; [cbn in Hl; lia|]; cbn.
    destruct f; reflexivity.
  - destruct fuel as [|f]; [cbn in Hl; lia|].
    cbn in Hn; apply andb_true_iff in Hn as [Hc Hn]; apply negb_true_iff in Hc.
    cbn [String.append replace_fuel starts_with]; rewrite Ascii.eqb_sym, Hc; cbn [andb].
    rewrite IH by (cbn in Hl; lia || exact Hn); reflexivity.
Qed.

Lemma plain_name_vm name : plain_name name = true -> no_slash (name ++ ".vm") = true.
Proof.
  induction name as [|c name IH]; [reflexivity|].
  cbn; intros H; apply andb_true_iff in H as [Hc Hn].
  apply negb_true_iff, orb_false_iff in Hc as [Hc _]; rewrite Hc; cbn; apply IH, Hn.
Qed.

Lemma plain_name_nodot name :
  plain_name name = true ->
  forallb (fun c => negb (Ascii.eqb c ".")) (list_ascii_of_string name) = true.
Proof.
  induction name as [|c name IH]; [reflexivity|].
  cbn; intros H; apply andb_true_iff in H as [Hc Hn].
  apply negb_true_iff, orb_false_iff in Hc as [_ Hc]; rewrite Hc; cbn; apply IH, Hn.
Qed.


(** X12: [set_filename] on the path of a [.vm] file, [dir/name.vm] with a
    plain [name] (no ['/'], no ['.']), succeeds and sets the unit name,
    used for static variables, to [name], clearing the current function. *)
Theorem set_filename_names_unit (s : cw) dir name :
  plain_name name = true ->
  snd (set_filename (path_join dir (name ++ ".vm")) s) = inr tt /\
  current_filename (fst (set_filename (path_join dir (name ++ ".vm")) s)) = Some name /\
  current_function (fst (set_filename (path_join dir (name ++ ".vm")) s)) = None.
Proof.
  intros Hp; unfold set_filename, bind, modify;
  cbn [fst snd set_filename_field set_function current_filename current_function].
  rewrite basename_path_join by (apply plain_name_vm; exact Hp).
  unfold replace; rewrite replace_vm_plain by
    (rewrite ?str_length_app; cbn; lia || apply plain_name_nodot; exact Hp).
  repeat split.
Qed.

End NameProps.

(** *** Logging, failures and the driver loop *)

Section QuietProps.
Local Open Scope list_scope.
Local Open Scope string_scope.

Lemma neutral_bind {A B} (m : M A) (k : A -> M B) :
  log_neutral m -> (forall a, log_neutral (k a)) -> log_neutral (bind m k).
Proof.
  intros Hm Hk s; unfold bind; rewrite Hm.
  destruct (m s) as [s1 [e|a]]; cbn [fst snd]; [reflexivity|apply Hk].
Qed.

Lemma neutral_ret {A} (a : A) : log_neutral (ret a).
Proof. intros s; reflexivity. Qed.

Lemma filter_init_locals l :
  filter is_code_line (List.concat (map init_local l)) = List.concat (map init_local l).
Proof.
  induction l as [|i l IH]; [reflexivity|].
  cbn [map List.concat]; rewrite filter_app, IH; reflexivity.
Qed.

Ltac quiet_calc :=
  unfold quiet, strip_comments, append_written, set_function, set_arith, set_return;
  cbn [fst snd in_filepath out_filename current_filename current_function
       arith_jump_counter return_counter log_vm_commands sink_open written];
  rewrite ?filter_app; cbn [filter is_code_line app];
  rewrite ?filter_init_locals, ?app_nil_r, <- ?app_assoc; reflexivity.

Lemma dispatch_neutral c : log_neutral (dispatch c).
Proof.
  intros [ip of cf cfn k rc lg so w].
  destruct c as [t a1 a2]; destruct t; unfold dispatch; cbn [command_type arg1 arg2];
  unfold write_return, write_arithmetic, translate_arithmetic_vm_code_to_assembly,
    write_push_pop, translate_push_vm_code_to_asm, translate_pop_vm_code_to_asm,
    translate_segment_vm_code, write_label, write_goto, write_if, write_function,
    write_call, log_line, write, lift, gets, modify, bind, ret, raise, push_d, at_index;
  destruct lg; cbn -[dec String.append].
  all: repeat (match goal with
        | |- context [if ?b then _ else _] => lazymatch b with true => fail | false => fail | _ => destruct b end
        | |- context [match ?o with Some _ => _ | None => _ end] => is_var o; destruct o
        | |- context [match ?o with inl _ => _ | inr _ => _ end] => lazymatch o with inl _ => fail | inr _ => fail | _ => destruct o end
        | |- context [match ?n with O => _ | S _ => _ end] => is_var n; destruct n
        end; cbn -[dec String.append]).
  all: quiet_calc.
Qed.

Lemma lift_neutral {A} (r : err + A) : log_neutral (lift r).
Proof. destruct r; intros s; reflexivity. Qed.

Lemma translate_lines_neutral ls : log_neutral (translate_lines ls).
Proof.
  induction ls as [|l ls IH]; [apply neutral_ret|].
  cbn [translate_lines]; apply neutral_bind; [apply lift_neutral|intros c].
  apply neutral_bind; [apply dispatch_neutral|intros _; exact IH].
Qed.

Lemma set_filename_neutral p : log_neutral (set_filename p).
Proof. intros s; reflexivity. Qed.

Lemma translate_all_neutral files : log_neutral (translate_all files).
Proof.
  induction files as [|[fp file] files IH]; [apply neutral_ret|].
  cbn [translate_all]; unfold translate_file.
  apply neutral_bind; [|intros _; exact IH].
  apply neutral_bind; [apply set_filename_neutral|intros _; apply translate_lines_neutral].
Qed.

Lemma write_init_neutral isdir : log_neutral (write_init isdir).
Proof.
  intros [ip of cf cfn k rc lg so w].
  unfold write_init, write_call, translate_push_vm_code_to_asm, log_line, write, gets,
    modify, bind, ret, push_d.
  cbn -[dec String.append].
  destruct (isdir ip); cbn -[dec String.append]; [|reflexivity].
  destruct lg; cbn -[dec String.append]; quiet_calc.
Qed.

(** X13: the [log_vm_commands] flag of [CodeWriter] changes nothing but
    the [// vm command] comments: with it off, the constructor fails
    exactly when it fails with it on, and otherwise gives the same writer
    minus the comments; and translating any list of files from the quiet
    writer yields the quiet version of the logging run, with the same
    outcome. *)
Theorem logging_only_adds_comments isdir p files :
  new_code_writer isdir p false =
    match new_code_writer isdir p true with inl e => inl e | inr s => inr (quiet s) end /\
  forall s, translate_all files (quiet s) =
            (quiet (fst (translate_all files s)), snd (translate_all files s)).
Proof.
  split; [|intros s; apply translate_all_neutral].
  unfold new_code_writer.
  destruct (if ends_with ".vm" p then _ else _) as [e|out]; [reflexivity|].
  destruct (negb (ends_with ".asm" out)); [reflexivity|].
  pose proof (write_init_neutral isdir (mkCW p out None None 0 0 true true [])) as H.
  change (quiet (mkCW p out None None 0 0 true true []))
    with (mkCW p out None None 0 0 false true []) in H.
  rewrite H; destruct (write_init isdir (mkCW p out None None 0 0 true true [])) as [s1 [e|u]];
    reflexivity.
Qed.

End QuietProps.

Section FailProps.
Local Open Scope list_scope.
Local Open Scope string_scope.

Lemma dispatch_failure_shape c s :
  match dispatch c s with
  | (s', inl _) => exists l, (written s' = written s ++ l)%list /\ comment_only s l
  | (_, inr _) => True
  end.
Proof.
  destruct s as [ip of cf cfn k rc lg so w].
  destruct c as [t a1 a2]; destruct t; unfold dispatch; cbn [command_type arg1 arg2];
  unfold write_return, write_arithmetic, translate_arithmetic_vm_code_to_assembly,
    write_push_pop, translate_push_vm_code_to_asm, translate_pop_vm_code_to_asm,
    translate_segment_vm_code, write_label, write_goto, write_if, write_function,
    write_call, log_line, write, lift, gets, modify, bind, ret, raise, push_d, at_index;
  destruct lg; cbn -[dec String.append].
  all: repeat (match goal with
        | |- context [if ?b then _ else _] => lazymatch b with true => fail | false => fail | _ => destruct b end
        | |- context [match ?o with Some _ => _ | None => _ end] => is_var o; destruct o
        | |- context [match ?o with inl _ => _ | inr _ => _ end] => lazymatch o with inl _ => fail | inr _ => fail | _ => destruct o end
        | |- context [match ?n with O => _ | S _ => _ end] => is_var n; destruct n
        end; cbn -[dec String.append]).
  all: first [ exact I
             | exists []; split; [symmetry; apply app_nil_r|left; reflexivity]
             | eexists; split; [reflexivity|right; split; [reflexivity|eexists; reflexivity]] ].
Qed.

(** X14: an instruction whose dispatch raises writes no assembly code:
    the output grows at most by the one logging comment of the failing
    instruction. *)
Theorem failed_instruction_writes_no_code c (s : cw) e :
  snd (dispatch c s) = inl e ->
  exists l, (written (fst (dispatch c s)) = written s ++ l)%list /\
    (l = [] \/ (log_vm_commands s = true /\ exists t, l = [Cmt t])).
Proof.
  pose proof (dispatch_failure_shape c s) as H.
  destruct (dispatch c s) as [s' [e'|u]]; cbn [fst snd]; [intros _; exact H|discriminate].
Qed.

End FailProps.

Section LoopProps.
Local Open Scope list_scope.
Local Open Scope string_scope.

Lemma skipn_nth {A} (L : list A) k x :
  nth_error L k = Some x -> skipn k L = x :: skipn (S k) L.
Proof.
  revert k; induction L as [|y L IH]; intros [|k] H; cbn in H |- *; try discriminate.
  - injection H as ->; reflexivity.
  - apply IH, H.
Qed.

Lemma translate_loop_lines f L k cur s :
  (List.length L - k < f)%nat ->
  translate_loop f (mkParser L (Z.of_nat k - 1) cur) s = translate_lines (skipn k L) s.
Proof.
  revert k cur s; induction f as [|f IH]; intros k cur s Hf; [lia|].
  cbn [translate_loop]; unfold has_more_commands, advance; cbn [p_line p_file].
  replace (Z.of_nat k - 1 + 1)%Z with (Z.of_nat k) by lia.
  rewrite Nat2Z.id.
  destruct (Z.of_nat k <? Z.of_nat (List.length L))%Z eqn:Hk.
  - apply Z.ltb_lt in Hk.
    destruct (nth_error L k) as [text|] eqn:En.
    2: { apply nth_error_None in En; lia. }
    rewrite (skipn_nth L k text En); cbn [translate_lines].
    unfold bind at 2, lift.
    destruct (parse_command text) as [e|c]; [reflexivity|].
    cbn [p_current_command]; unfold bind, ret.
    destruct (dispatch c s) as [s1 [e|u]]; [reflexivity|].
    replace (Z.of_nat k) with (Z.of_nat (S k) - 1)%Z by lia.
    apply IH; lia.
  - apply Z.ltb_ge in Hk.
    rewrite skipn_all2 by lia; reflexivity.
Qed.

(** X15: the [while parser.has_more_commands(): parser.advance() ...] loop
    of [Main.translate_file] translates the cleaned lines of the file one
    after the other, exactly once each, and stops at the first exception,
    as [translate_lines] does: its outcome and output are those of
    [translate_file]. *)
Theorem driver_loop_translates_each_line file filepath (s : cw) :
  main_translate_file file filepath s = translate_file file filepath s.
Proof.
  unfold main_translate_file, translate_file, new_parser, bind; cbn [p_file].
  destruct (set_filename filepath s) as [s1 [e|u]]; [reflexivity|].
  change (-1)%Z with (Z.of_nat 0 - 1)%Z.
  rewrite translate_loop_lines by lia; reflexivity.
Qed.

End LoopProps.

(** *** Output file of a job *)

Section OutputProps.
Local Open Scope list_scope.
Local Open Scope string_scope.



Lemma write_init_succeeds isdir s : snd (write_init isdir s) = inr tt.
Proof.
  destruct s as [ip of cf cfn k rc lg so w].
  unfold write_init, write_call, translate_push_vm_code_to_asm, log_line, write, gets,
    modify, bind, ret, push_d.
  cbn -[dec String.append].
  destruct (isdir ip); cbn -[dec String.append]; [|reflexivity].
  destruct lg; reflexivity.
Qed.

Lemma write_init_keeps_paths isdir s :
  in_filepath (fst (write_init isdir s)) = in_filepath s /\
  out_filename (fst (write_init isdir s)) = out_filename s.
Proof.
  destruct s as [ip of cf cfn k rc lg so w].
  unfold write_init, write_call, translate_push_vm_code_to_asm, log_line, write, gets,
    modify, bind, ret, push_d.
  cbn -[dec String.append].
  destruct (isdir ip); cbn -[dec String.append]; [|split; reflexivity].
  destruct lg; split; reflexivity.
Qed.

(** X16: the output file of a job on a path [d.vm] is named after the
    input path with every [.vm] replaced by [.asm]: that name ends in
    [.asm], so the constructor never raises its "must be a '.asm' file"
    exception, and a [.vm] inside a directory name of [d] is rewritten as
    well ([d.vm/Main.vm] is written to [d.asm/Main.asm]).  Whether [open]
    then finds that directory is outside the model; the statement is about
    the name and the [.asm] check, and the writer's paths when the
    constructor returns. *)
Theorem vm_input_output_name isdir d log :
  (forall q, new_code_writer isdir (d ++ ".vm") log <> inl (NotAsmOutput q)) /\
  (forall s, new_code_writer isdir (d ++ ".vm") log = inr s ->
     in_filepath s = d ++ ".vm" /\
     out_filename s = replace ".vm" ".asm" d ++ ".asm").
Proof.
  unfold new_code_writer.
  rewrite ends_with_self_app, replace_vm_app, ends_with_self_app; cbn [negb].
  pose proof (write_init_succeeds isdir
    (mkCW (d ++ ".vm") (replace ".vm" ".asm" d ++ ".asm") None None 0 0 log true [])) as H.
  pose proof (write_init_keeps_paths isdir
    (mkCW (d ++ ".vm") (replace ".vm" ".asm" d ++ ".asm") None None 0 0 log true [])) as K.
  destruct (write_init isdir _) as [s1 [e|[]]]; cbn in H, K; [discriminate|].
  split; [intros q; discriminate|].
  intros s E; injection E as <-; exact K.
Qed.

(** X16 on [Prog.vm/Main.vm]: the output goes to [Prog.asm/Main.asm]. *)
Lemma vm_input_output_name_witness :
  exists s, new_code_writer (fun _ => false) ("Prog.vm/Main" ++ ".vm") true = inr s /\
    in_filepath s = "Prog.vm/Main.vm" /\ out_filename s = "Prog.asm/Main.asm".
Proof.
  eexists; split; [reflexivity|].
  apply (proj2 (vm_input_output_name (fun _ => false) "Prog.vm/Main" true)).
  reflexivity.
Defined.


Lemma basename_slash_empty p : ends_with "/" p = true -> basename p = "".
Proof.
  intros H; destruct (ends_with_slash p H) as [x ->].
  unfold basename; apply (basename_acc_slash "" x "").
Qed.

Lemma basename_acc_nonempty s : forall acc,
  s <> "" -> ends_with "/" s = false -> basename_acc acc s <> "".
Proof.
  induction s as [|c s IH]; intros acc Hs He; [contradiction|].
  cbn [ends_with] in He; apply orb_false_iff in He as [He1 He2].
  cbn [basename_acc]; destruct s as [|c' s'].
  - destruct (Ascii.eqb_spec c "/") as [->|_]; [discriminate He1|].
    cbn; destruct acc; discriminate.
  - destruct (Ascii.eqb c "/"); apply IH; easy.
Qed.

(** X17: the output file of a job on a directory [p] (not ending in
    [.vm]) is [p/b.asm] for the last component [b] of [p]; a directory
    given with a trailing ['/'] has an empty last component, and the
    constructor raises [EmptyBaseDir]. *)
Theorem dir_input_output_name isdir p log :
  ends_with ".vm" p = false -> isdir p = true ->
  (ends_with "/" p = true -> new_code_writer isdir p log = inl EmptyBaseDir) /\
  (p <> "" -> ends_with "/" p = false ->
   exists s, new_code_writer isdir p log = inr s /\ basename p <> "" /\
     in_filepath s = p /\ out_filename s = path_join p (basename p ++ ".asm")).
Proof.
  intros Hv Hd; unfold new_code_writer; rewrite Hv, Hd; split.
  - intros Hs; rewrite (basename_slash_empty p Hs); reflexivity.
  - intros Hp Hs.
    pose proof (basename_acc_nonempty p "" Hp Hs) as Hb; fold (basename p) in Hb.
    destruct (String.eqb_spec (basename p) "") as [E|_]; [contradiction|].
    rewrite (path_join_ends_with ".asm" p (basename p ++ ".asm") (ends_with_self_app _ _)).
    cbn [negb].
    pose proof (write_init_succeeds isdir
      (mkCW p (path_join p (basename p ++ ".asm")) None None 0 0 log true [])) as H.
    pose proof (write_init_keeps_paths isdir
      (mkCW p (path_join p (basename p ++ ".asm")) None None 0 0 log true [])) as K.
    destruct (write_init isdir _) as [s1 [e|[]]]; cbn in H, K; [discriminate|].
    exists s1; repeat split; [exact Hb|apply K|apply K].
Qed.

(** X17 on [Prog/] (refused) and on [Prog] (written to [Prog/Prog.asm]). *)
Lemma dir_input_output_name_witness :
  (ends_with "/" "Prog/" = true ->
   new_code_writer (fun q => String.eqb q "Prog/") "Prog/" true = inl EmptyBaseDir) /\
  ("Prog" <> "" -> ends_with "/" "Prog" = false ->
   exists s, new_code_writer (fun q => String.eqb q "Prog") "Prog" true = inr s /\
     basename "Prog" <> "" /\ in_filepath s = "Prog" /\
     out_filename s = path_join "Prog" (basename "Prog" ++ ".asm")).
Proof.
  split.
  - apply (dir_input_output_name (fun q => String.eqb q "Prog/") "Prog/" true);
      reflexivity.
  - apply (dir_input_output_name (fun q => String.eqb q "Prog") "Prog" true); reflexivity.
Defined.

End OutputProps.

(** *** The further properties on concrete inputs *)

(** X1 on [sub] with 7 below 3 on the stack (SP = 258): the result 4
    replaces them. *)
Lemma binary_arithmetic_runs_witness :
  binary_op "sub" = Some (fun x y => w16 (x - y)) /\
  exists block,
    snd (write_arithmetic "sub" (sample_writer true)) = inr tt /\
    written (fst (write_arithmetic "sub" (sample_writer true))) =
      written (sample_writer true) ++ block /\
    arith_jump_counter (fst (write_arithmetic "sub" (sample_writer true))) = 0%nat /\
    exists st', run_block hack_symbols 100 block
                  (mkM 0 0 (mem_of [(0, 258); (256, 7); (257, 3)])) = Fell st' /\
      ram st' 0 = 257 /\ ram st' 256 = 4 /\
      (forall x, x <> 0 -> x <> 256 -> ram st' x = mem_of [(0, 258); (256, 7); (257, 3)] x).
Proof.
  split; [reflexivity|].
  apply (binary_arithmetic_runs (sample_writer true) "sub" (fun x y => w16 (x - y))
           hack_symbols 100 0 0 (mem_of [(0, 258); (256, 7); (257, 3)]) 258).
  - reflexivity.
  - repeat split.
  - reflexivity.
  - lia.
Defined.

(** X2 on [neg] with 5 on top of the stack (SP = 257). *)
Lemma unary_arithmetic_runs_witness :
  unary_op "neg" = Some (fun x => w16 (- x)) /\
  exists block,
    snd (write_arithmetic "neg" (sample_writer false)) = inr tt /\
    written (fst (write_arithmetic "neg" (sample_writer false))) =
      written (sample_writer false) ++ block /\
    arith_jump_counter (fst (write_arithmetic "neg" (sample_writer false))) = 0%nat /\
    exists st', run_block hack_symbols 100 block
                  (mkM 0 0 (mem_of [(0, 257); (256, 5)])) = Fell st' /\
      ram st' 0 = 257 /\ ram st' 256 = -5 /\
      (forall x, x <> 0 -> x <> 256 -> ram st' x = mem_of [(0, 257); (256, 5)] x).
Proof.
  split; [reflexivity|].
  apply (unary_arithmetic_runs (sample_writer false) "neg" (fun x => w16 (- x))
           hack_symbols 100 0 0 (mem_of [(0, 257); (256, 5)]) 257).
  - reflexivity.
  - repeat split.
  - reflexivity.
  - lia.
Defined.

(** X3 on [pop local 1] with LCL = 300 and 9 on top of the stack: 9 goes
    to RAM[301]. *)
Lemma pop_stores_top_witness :
  segment_address hack_symbols (mem_of [(0, 258); (1, 300); (257, 9)]) (Some "Main")
    "local" 1 = Some 301 /\
  exists block,
    snd (write_push_pop C_POP "local" (Some 1%nat) (sample_writer true)) = inr tt /\
    written (fst (write_push_pop C_POP "local" (Some 1%nat) (sample_writer true))) =
      written (sample_writer true) ++ block /\
    exists st', run_block hack_symbols 100 block
                  (mkM 0 0 (mem_of [(0, 258); (1, 300); (257, 9)])) = Fell st' /\
      ram st' = upd (upd (mem_of [(0, 258); (1, 300); (257, 9)]) 0 257) 301 9.
Proof.
  split; [reflexivity|].
  apply (pop_stores_top (sample_writer true) "local" 1 301 hack_symbols 100 0 0
           (mem_of [(0, 258); (1, 300); (257, 9)]) 258).
  - reflexivity.
  - repeat split.
  - reflexivity.
  - lia.
  - unfold word; lia.
  - cbn; unfold word; lia.
Defined.

(** X4 on [push static 3] in [Main], the variable [Main.3] (at 5000)
    holding 11. *)
Lemma push_loads_value_witness :
  push_value hack_symbols (mem_of [(0, 258); (5000, 11)]) (Some "Main") "static" 3 = Some 11 /\
  exists block,
    snd (write_push_pop C_PUSH "static" (Some 3%nat) (sample_writer true)) = inr tt /\
    written (fst (write_push_pop C_PUSH "static" (Some 3%nat) (sample_writer true))) =
      written (sample_writer true) ++ block /\
    exists st', run_block hack_symbols 100 block
                  (mkM 0 0 (mem_of [(0, 258); (5000, 11)])) = Fell st' /\
      ram st' = upd (upd (mem_of [(0, 258); (5000, 11)]) 0 259) 258 11.
Proof.
  split; [reflexivity|].
  apply (push_loads_value (sample_writer true) "static" 3 11 hack_symbols 100 0 0
           (mem_of [(0, 258); (5000, 11)]) 258).
  - lia.
  - reflexivity.
  - repeat split.
  - reflexivity.
  - lia.
Defined.

(** X5 on [function Main.f 2] entered with LCL = SP = 300. *)
Lemma function_allocates_locals_witness :
  exists block,
    snd (write_function "Main.f" (Some 2%nat) (sample_writer true)) = inr tt /\
    written (fst (write_function "Main.f" (Some 2%nat) (sample_writer true))) =
      written (sample_writer true) ++ block /\
    current_function (fst (write_function "Main.f" (Some 2%nat) (sample_writer true))) =
      Some "Main.f" /\
    declared_labels block = ["Main.f"] /\
    exists st', run_block hack_symbols 100 block
                  (mkM 0 0 (mem_of [(0, 300); (1, 300); (300, 7)])) = Fell st' /\
      ram st' 0 = 302 /\
      (forall x, 300 <= x < 302 -> ram st' x = 0) /\
      (forall x, x <> 0 -> ~ (300 <= x < 302) ->
                 ram st' x = mem_of [(0, 300); (1, 300); (300, 7)] x).
Proof.
  apply (function_allocates_locals (sample_writer true) "Main.f" 2 hack_symbols 100 0 0
           (mem_of [(0, 300); (1, 300); (300, 7)]) 300 300).
  - discriminate.
  - discriminate.
  - repeat split.
  - reflexivity.
  - reflexivity.
  - lia.
  - cbn; lia.
  - lia.
  - cbn; lia.
Defined.

(** X6 on the line [add]. *)
Lemma parsed_arithmetic_translates_witness :
  parse_command "add" = inr (mkCommand C_ARITHMETIC "add" None) /\
  snd (dispatch (mkCommand C_ARITHMETIC "add" None) (sample_writer true)) = inr tt /\
  exists block,
    written (fst (dispatch (mkCommand C_ARITHMETIC "add" None) (sample_writer true))) =
      written (sample_writer true) ++ block.
Proof.
  split; [reflexivity|].
  apply (parsed_arithmetic_translates "add"); reflexivity.
Defined.

(** X7 on [pop local] and [pop local 2]. *)
Lemma parse_command_roundtrip_witness :
  (C_POP <> C_ARITHMETIC -> C_POP <> C_RETURN ->
   parse_command ("pop" ++ " " ++ "local") = inr (mkCommand C_POP "local" None)) /\
  (arg2_allowed C_POP = true ->
   parse_command ("pop" ++ " " ++ "local" ++ " " ++ dec 2) =
     inr (mkCommand C_POP "local" (Some 2%nat))).
Proof.
  apply (parse_command_roundtrip "pop" C_POP "local" 2); reflexivity.
Defined.

(** X8 on [add x y], whose extra words are ignored. *)
Lemma command_arguments_witness :
  parse_command "add x y" = inr (mkCommand C_ARITHMETIC "add" None) /\
  ((None : option nat) <> None -> arg2_allowed C_ARITHMETIC = true) /\
  (C_ARITHMETIC = C_ARITHMETIC \/ C_ARITHMETIC = C_RETURN ->
   forall rest, parse_command ("add x y" ++ String " " rest) = parse_command "add x y").
Proof.
  split; [reflexivity|].
  apply (command_arguments "add x y" (mkCommand C_ARITHMETIC "add" None)); reflexivity.
Defined.

(** X9 on [push constant]. *)
Lemma missing_index_reads_None_witness :
  (exists t, parse_command ("push" ++ " " ++ "constant") = inr (mkCommand t "constant" None)) /\
  snd (translate_lines [("push" ++ " " ++ "constant")%string] (sample_writer true)) = inr tt /\
  exists block,
    written (fst (translate_lines [("push" ++ " " ++ "constant")%string] (sample_writer true))) =
      written (sample_writer true) ++ block /\
    In (At (ASym "None")) block.
Proof.
  apply (missing_index_reads_None (sample_writer true) "push" "constant").
  left; split; [reflexivity|cbn; tauto].
Defined.

(** X10 on a file with an indented, commented command and a comment
    line. *)
Lemma clean_file_lines_witness :
  "push constant 1" <> EmptyString /\ strip "push constant 1" = "push constant 1" /\
  has_slashes (list_ascii_of_string "push constant 1") = false.
Proof.
  apply (clean_file_lines ["  push constant 1 // c"; "// only"; ""] "push constant 1").
  vm_compute; left; reflexivity.
Defined.

(** X11 on the directory [Prog/] holding [Sys.vm]. *)
Lemma read_filepath_input_files_witness :
  let files := [("Prog/Sys.vm", ["function Sys.init 0"; "label LOOP"; "goto LOOP"])] in
  files <> [] /\ NoDup (map fst files) /\
  Forall (fun kv => is_vm_file sample_dir_fs (fst kv) = true /\
                    snd kv = fs_read sample_dir_fs (fst kv) /\
                    (fst kv = "Prog/" \/
                     exists name, In name (fs_listdir sample_dir_fs "Prog/") /\
                                  fst kv = path_join "Prog/" name)) files.
Proof.
  apply (read_filepath_input_files sample_dir_fs "Prog/"); reflexivity.
Defined.

(** X12 on [Prog/Sys.vm] from a writer inside [Main.main]. *)
Lemma set_filename_names_unit_witness :
  snd (set_filename (path_join "Prog" ("Sys" ++ ".vm")) sample_in_function) = inr tt /\
  current_filename (fst (set_filename (path_join "Prog" ("Sys" ++ ".vm")) sample_in_function)) =
    Some "Sys" /\
  current_function (fst (set_filename (path_join "Prog" ("Sys" ++ ".vm")) sample_in_function)) =
    None.
Proof.
  apply (set_filename_names_unit sample_in_function "Prog" "Sys"); reflexivity.
Defined.

(** X14 on [pop constant 0], which raises [InvalidSegment] after its
    logging comment. *)
Lemma failed_instruction_writes_no_code_witness :
  exists l,
    written (fst (dispatch (mkCommand C_POP "constant" (Some 0%nat)) (sample_writer true))) =
      written (sample_writer true) ++ l /\
    (l = [] \/ (log_vm_commands (sample_writer true) = true /\ exists t, l = [Cmt t])).
Proof.
  apply (failed_instruction_writes_no_code (mkCommand C_POP "constant" (Some 0%nat))
           (sample_writer true) (InvalidSegment "constant")).
  reflexivity.
Defined.
